(** * docs.json sandbox validator: a shallow embedding of the three
      [DocsJsonSandbox] components and the properties of their validators.

    The repository holds three variants of one React component:
    - [snippets/settings-sandbox.jsx] (module [Sandbox] below), whose
      validator is split into memoised helpers and which scans the whole
      navigation tree for reserved paths;
    - an earlier variant with one inline validator (module [Legacy]);
    - the first variant, which also reserves [/api] (module [LegacyApi]).

    JavaScript values are embedded as data, a thrown exception as the
    [Throw] completion, and the [errors] / [warnings] arrays that the
    helpers push to as lists passed in and out. *)

From Stdlib Require Import String Ascii List Bool Arith Lia DecimalString.
Import ListNotations.
Open Scope string_scope.

(** ** Values *)

(** A JSON number. The validators observe a number in two ways only:
    through [ToBoolean] (false exactly for [+0] and [-0]; [JSON.parse]
    yields no [NaN]) and through [ToString] in a template literal. A
    number is carried as this pair of observations. *)
Record number := { number_is_zero : bool; number_text : string }.

(** The values [JSON.parse] returns. An object is the list of its own
    properties; a lookup takes the first binding of a key. *)
#[local] Unset Elimination Schemes.
Inductive json : Type :=
| JNull
| JBool (b : bool)
| JNumber (n : number)
| JString (s : string)
| JArray (items : list json)
| JObject (fields : list (string * json)).
#[local] Set Elimination Schemes.

(** The values an expression of the validators can have: a parsed value,
    [undefined] (a missing property), or a builtin method read off a
    prototype. *)
Inductive value : Type :=
| Undefined
| Json (j : json)
| NativeFunction (name : string).

Coercion Json : json >-> value.

Inductive type_error : Type :=
| CannotReadProperty (key : string)
| NotAFunction (method : string)
| CannotConvertToPrimitive.

Inductive js_error : Type :=
| SyntaxError (message : string)
| TypeError (why : type_error).

(** The outcome of evaluating a piece of code: a value, or a thrown
    exception that unwinds to the nearest [catch]. *)
Inductive completion (A : Type) : Type :=
| Normal (a : A)
| Throw (e : js_error).

Arguments Normal {A} a.
Arguments Throw {A} e.

Definition bind {A B : Type} (c : completion A) (k : A -> completion B)
  : completion B :=
  match c with
  | Normal a => k a
  | Throw e => Throw e
  end.

Declare Scope js_scope.
Delimit Scope js_scope with js.
Notation "x <- c ;; k" := (bind c (fun x => k))
  (at level 61, c at next level, right associativity) : js_scope.
Open Scope js_scope.

(** ** Builtins *)

(** [own_property k fields]: the own property [k] of an object. *)
Fixpoint own_property (k : string) (fields : list (string * json)) : value :=
  match fields with
  | [] => Undefined
  | (k', v) :: rest => if String.eqb k' k then Json v else own_property k rest
  end.

(** [with_property k fields f d] is [f v] when [fields] binds [k] to [v]
    and [d] otherwise: the form of [own_property] that keeps the
    recursion of the path scanner structural. *)
Definition with_property {A : Type} (k : string) (f : json -> A) (d : A)
  : list (string * json) -> A :=
  fix find (fields : list (string * json)) : A :=
    match fields with
    | [] => d
    | (k', v) :: rest => if String.eqb k' k then f v else find rest
    end.

(** [v.k]. Reading a property of [undefined] or [null] throws. The
    validators read only these names: theme, name, colors, primary, light,
    dark, navigation, pages, groups, group, tabs, tab, url, menu, item,
    anchors, anchor, dropdowns, dropdown, versions, version, languages,
    language, global, href, logo, favicon, integrations, ga4,
    measurementId, gtm, containerId, $schema, description. None of them is
    on [Object.prototype], [Array.prototype], [Number.prototype],
    [Boolean.prototype] or [Function.prototype]; on [String.prototype]
    there is the one method [anchor], and a function has its own [name].
    [Get] is exact for these names. *)
Definition Get (v : value) (k : string) : completion value :=
  match v with
  | Undefined => Throw (TypeError (CannotReadProperty k))
  | Json JNull => Throw (TypeError (CannotReadProperty k))
  | Json (JObject fields) => Normal (own_property k fields)
  | Json (JString _) =>
      if String.eqb k "anchor" then Normal (NativeFunction "anchor")
      else Normal Undefined
  | Json _ => Normal Undefined
  | NativeFunction name =>
      if String.eqb k "name" then Normal (Json (JString name))
      else Normal Undefined
  end.

(** [v?.k] *)
Definition OptionalGet (v : value) (k : string) : completion value :=
  match v with
  | Undefined | Json JNull => Normal Undefined
  | _ => Get v k
  end.

Definition ToBoolean (v : value) : bool :=
  match v with
  | Undefined => false
  | Json JNull => false
  | Json (JBool b) => b
  | Json (JNumber n) => negb (number_is_zero n)
  | Json (JString s) => negb (String.eqb s "")
  | Json (JArray _) => true
  | Json (JObject _) => true
  | NativeFunction _ => true
  end.

(** [a || b] on values, [b] already evaluated (it has no effect here). *)
Definition or_else (a b : value) : value := if ToBoolean a then a else b.

Inductive js_type : Type :=
| TUndefined | TObject | TBoolean | TNumber | TString | TFunction.

Definition typeof (v : value) : js_type :=
  match v with
  | Undefined => TUndefined
  | Json JNull => TObject
  | Json (JBool _) => TBoolean
  | Json (JNumber _) => TNumber
  | Json (JString _) => TString
  | Json (JArray _) => TObject
  | Json (JObject _) => TObject
  | NativeFunction _ => TFunction
  end.

Definition js_type_eqb (a b : js_type) : bool :=
  match a, b with
  | TUndefined, TUndefined | TObject, TObject | TBoolean, TBoolean
  | TNumber, TNumber | TString, TString | TFunction, TFunction => true
  | _, _ => false
  end.

Definition Array_isArray (v : value) : bool :=
  match v with
  | Json (JArray _) => true
  | _ => false
  end.

(** [xs.join(sep)] on an array of strings. *)
Fixpoint join (sep : string) (xs : list string) : string :=
  match xs with
  | [] => ""
  | [x] => x
  | x :: rest => x ++ sep ++ join sep rest
  end.

Definition has_own (k : string) (fields : list (string * json)) : bool :=
  existsb (fun kv => String.eqb (fst kv) k) fields.

(** [ToString] of a parsed value, as a template literal applies it. An
    array is joined with commas, [null] elements giving the empty string.
    An object without an own [toString] property renders through
    [Object.prototype.toString]; with one, which cannot be callable in
    parsed JSON, neither [toString] nor [valueOf] yields a primitive and
    the conversion throws. *)
Fixpoint json_ToString (j : json) : completion string :=
  match j with
  | JNull => Normal "null"
  | JBool true => Normal "true"
  | JBool false => Normal "false"
  | JNumber n => Normal (number_text n)
  | JString s => Normal s
  | JArray items =>
      ss <- (fix elements (l : list json) : completion (list string) :=
               match l with
               | [] => Normal []
               | x :: rest =>
                   s <- match x with
                        | JNull => Normal ""
                        | _ => json_ToString x
                        end ;;
                   ss <- elements rest ;;
                   Normal (s :: ss)
               end) items ;;
      Normal (join "," ss)
  | JObject fields =>
      if has_own "toString" fields
      then Throw (TypeError CannotConvertToPrimitive)
      else Normal "[object Object]"
  end.

Definition ToString (v : value) : completion string :=
  match v with
  | Undefined => Normal "undefined"
  | Json j => json_ToString j
  | NativeFunction name => Normal ("function " ++ name ++ "() { [native code] }")
  end.

(** [`${index}`] for an array index. *)
Definition index_text (index : nat) : string :=
  NilEmpty.string_of_uint (Nat.to_uint index).

(** [xs.push(x)] *)
Definition push (xs : list string) (x : string) : list string := xs ++ [x].

(** [s.split(sep)] for a one-character separator. *)
Fixpoint split (sep : ascii) (s : string) : list string :=
  match s with
  | EmptyString => [""]
  | String c rest =>
      if Ascii.eqb c sep then "" :: split sep rest
      else match split sep rest with
           | [] => [String c ""]
           | segment :: segments => String c segment :: segments
           end
  end.

(** [xs.includes(x)] on an array of strings and a string. *)
Definition includes (xs : list string) (x : string) : bool :=
  existsb (String.eqb x) xs.

(** [xs.includes(v)] on an array of strings and any value: [SameValueZero]
    holds of a string only. *)
Definition Array_includes (xs : list string) (v : value) : bool :=
  match v with
  | Json (JString s) => includes xs s
  | _ => false
  end.

(** [s.startsWith(p)] *)
Definition startsWith (s p : string) : bool := String.prefix p s.

(** [s.includes(sub)] *)
Fixpoint String_includes (s sub : string) : bool :=
  String.prefix sub s
  || match s with
     | EmptyString => false
     | String _ rest => String_includes rest sub
     end.

Fixpoint endsWith (s suffix : string) : bool :=
  String.eqb s suffix
  || match s with
     | EmptyString => false
     | String _ rest => endsWith rest suffix
     end.

Definition in_range (lo hi c : ascii) : bool :=
  Nat.leb (nat_of_ascii lo) (nat_of_ascii c)
  && Nat.leb (nat_of_ascii c) (nat_of_ascii hi).

Definition all_chars (p : ascii -> bool) (s : string) : bool :=
  forallb p (list_ascii_of_string s).

(** The ASCII case folding of a regular expression with the [i] flag and
    without the [u] flag: a character outside ASCII never folds to an
    ASCII one. *)
Definition fold_case (c : ascii) : ascii :=
  if in_range "A" "Z" c then ascii_of_nat (nat_of_ascii c + 32) else c.

Fixpoint fold_case_string (s : string) : string :=
  match s with
  | EmptyString => EmptyString
  | String c rest => String (fold_case c) (fold_case_string rest)
  end.

(** [/^#[0-9A-Fa-f]{6}$/] *)
Definition hex_color_re (s : string) : bool :=
  match s with
  | String "#" digits =>
      Nat.eqb (String.length digits) 6
      && all_chars (fun c => in_range "0" "9" c || in_range "A" "F" c
                             || in_range "a" "f" c) digits
  | _ => false
  end.

(** [/^https?:\/\//] *)
Definition absolute_url_re (s : string) : bool :=
  String.prefix "http://" s || String.prefix "https://" s.

(** [/\.(ico|png|svg)$/i] *)
Definition favicon_re (s : string) : bool :=
  let folded := fold_case_string s in
  endsWith folded ".ico" || endsWith folded ".png" || endsWith folded ".svg".

Definition upper_alnum (s : string) : bool :=
  negb (String.eqb s "")
  && all_chars (fun c => in_range "A" "Z" c || in_range "0" "9" c) s.

(** [/^G-[A-Z0-9]+$/] *)
Definition ga4_re (s : string) : bool :=
  match s with
  | String "G" (String "-" rest) => upper_alnum rest
  | _ => false
  end.

(** [/^GTM-[A-Z0-9]+$/] *)
Definition gtm_re (s : string) : bool :=
  match s with
  | String "G" (String "T" (String "M" (String "-" rest))) => upper_alnum rest
  | _ => false
  end.

(** [v.m(...)] for a string method [m] whose result on a string is
    [on_string]: any other receiver has no callable [m]. *)
Definition string_method {A : Type} (m : string) (v : value)
  (on_string : string -> A) : completion A :=
  match v with
  | Json (JString s) => Normal (on_string s)
  | Undefined | Json JNull => Throw (TypeError (CannotReadProperty m))
  | _ => Throw (TypeError (NotAFunction m))
  end.

(** [!!v.match(re)]: [match] returns an array or [null]. *)
Definition String_match (v : value) (re : string -> bool) : completion bool :=
  string_method "match" v re.

Definition String_startsWith (v : value) (p : string) : completion bool :=
  string_method "startsWith" v (fun s => startsWith s p).

(** [xs.forEach((x, index) => cb)] over the elements from [index] on; the
    callback updates the arrays it closes over, carried here as [S]. *)
Definition forEachFrom {X S : Type} (cb : X -> nat -> S -> completion S)
  : list X -> nat -> S -> completion S :=
  fix loop (xs : list X) (index : nat) (s : S) : completion S :=
    match xs with
    | [] => Normal s
    | x :: rest => s' <- cb x index s ;; loop rest (Datatypes.S index) s'
    end.

(** [v.forEach(cb)] on a value: only an array has a callable [forEach]. *)
Definition Array_forEach {S : Type} (v : value)
  (cb : json -> nat -> S -> completion S) (s : S) : completion S :=
  match v with
  | Json (JArray items) => forEachFrom cb items 0 s
  | Undefined | Json JNull => Throw (TypeError (CannotReadProperty "forEach"))
  | _ => Throw (TypeError (NotAFunction "forEach"))
  end.

(** The whitespace and line terminators [String.prototype.trim] strips,
    as UTF-8: TAB, LF, VT, FF, CR, SP, U+00A0, U+1680, U+2000 to U+200A,
    U+2028, U+2029, U+202F, U+205F, U+3000 and U+FEFF. [blank s] is
    [!s.trim()]. *)
Fixpoint blank_bytes (bytes : list nat) : bool :=
  match bytes with
  | [] => true
  | 9 :: rest | 10 :: rest | 11 :: rest | 12 :: rest | 13 :: rest
  | 32 :: rest => blank_bytes rest
  | 194 :: 160 :: rest => blank_bytes rest
  | 225 :: 154 :: 128 :: rest => blank_bytes rest
  | 226 :: 128 :: b :: rest =>
      (Nat.leb 128 b && Nat.leb b 138 || Nat.eqb b 168 || Nat.eqb b 169
       || Nat.eqb b 175)
      && blank_bytes rest
  | 226 :: 129 :: 159 :: rest => blank_bytes rest
  | 227 :: 128 :: 128 :: rest => blank_bytes rest
  | 239 :: 187 :: 191 :: rest => blank_bytes rest
  | _ => false
  end.

Definition blank (s : string) : bool :=
  blank_bytes (map nat_of_ascii (list_ascii_of_string s)).

Notation "' ( a , b ) <- c ;; k" :=
  (bind c (fun ab => let '(a, b) := ab in k))
  (at level 61, c at next level, right associativity) : js_scope.

(** [xs.map((x, index) => f)] over the elements from [index] on. *)
Definition mapFrom {X Y : Type} (f : X -> nat -> Y)
  : list X -> nat -> list Y :=
  fix loop (xs : list X) (index : nat) : list Y :=
    match xs with
    | [] => []
    | x :: rest => f x index :: loop rest (S index)
    end.

(** [xs.map((x, index) => cb)] with a callback that can throw. *)
Definition mapFromM {X Y : Type} (cb : X -> nat -> completion Y)
  : list X -> nat -> completion (list Y) :=
  fix loop (xs : list X) (index : nat) : completion (list Y) :=
    match xs with
    | [] => Normal []
    | x :: rest =>
        y <- cb x index ;;
        ys <- loop rest (S index) ;;
        Normal (y :: ys)
    end.

(** [v.map(cb)] on a value: only an array has a callable [map]. *)
Definition Array_map {Y : Type} (v : value)
  (cb : json -> nat -> completion Y) : completion (list Y) :=
  match v with
  | Json (JArray items) => mapFromM cb items 0
  | Undefined | Json JNull => Throw (TypeError (CannotReadProperty "map"))
  | _ => Throw (TypeError (NotAFunction "map"))
  end.

(** The object every validator returns. *)
Record ValidationResult := {
  errors : list string;
  warnings : list string;
  isValid : bool
}.

(** [{ errors, warnings, isValid: errors.length === 0 }] *)
Definition result_of (errors warnings : list string) : ValidationResult :=
  {| errors := errors;
     warnings := warnings;
     isValid := Nat.eqb (List.length errors) 0 |}.

Definition validThemes : list string :=
  ["mint"; "maple"; "palm"; "willow"; "linden"; "almond"; "aspen"].

Definition theme_required : string :=
  "'theme' is required. Must be one of: mint, maple, palm, willow, linden, almond, aspen".

(** [`Invalid theme '${config.theme}'. Must be one of:
    ${validThemes.join(', ')}`] *)
Definition theme_invalid (theme : string) : string :=
  "Invalid theme '" ++ theme ++ "'. Must be one of: " ++ join ", " validThemes.

Definition name_required : string :=
  "'name' is required. This is the name of your project, organization, or product".

Definition primary_required : string :=
  "'colors.primary' is required. Must be a hex color code starting with #".

Definition color_malformed (key : string) : string :=
  "'colors." ++ key ++ "' must be a valid hex color code (e.g., #ff0000)".

Definition navigation_required : string :=
  "'navigation' is required. Define your documentation structure".

(** ** [snippets/settings-sandbox.jsx] *)

Module Sandbox.

Definition reserved_page_warning (context item : string) : string :=
  context ++ " page '" ++ item
  ++ "' uses reserved path. /mcp paths are reserved and may cause 404 errors".

Definition reserved_href_warning (context href : string) : string :=
  context ++ " href '" ++ href
  ++ "' uses reserved path. /mcp paths are reserved and may cause 404 errors".

(** [context || `Navigation item '${item.group || item.item || item.tab ||
    item.anchor || item.dropdown}'`] on an object item. *)
Definition pages_context (context : string) (fields : list (string * json))
  : completion string :=
  if negb (String.eqb context "") then Normal context
  else
    title <- ToString
      (or_else (own_property "group" fields)
        (or_else (own_property "item" fields)
          (or_else (own_property "tab" fields)
            (or_else (own_property "anchor" fields)
              (own_property "dropdown" fields))))) ;;
    Normal ("Navigation item '" ++ title ++ "'").

(** [context || `Tab '${item.tab}'`] on an object item. *)
Definition menu_context (context : string) (fields : list (string * json))
  : completion string :=
  if negb (String.eqb context "") then Normal context
  else
    tab <- ToString (own_property "tab" fields) ;;
    Normal ("Tab '" ++ tab ++ "'").

(** The [href] step of the scanner on an object item. *)
Definition check_href (fields : list (string * json))
  (warnings : list string) (context : string) : list string :=
  match own_property "href" fields with
  | Json (JString href) =>
      if negb (String.eqb href "") then
        if negb (startsWith href "http") then
          if includes (split "/" href) "mcp"
          then push warnings (reserved_href_warning context href)
          else warnings
        else warnings
      else warnings
  | _ => warnings
  end.

(** [checkNavigationPaths] on a parsed value. An item that is an array is
    an object without [pages], [groups], [menu] or [href]. *)
Fixpoint checkNavigationPaths_json (items : json) (warnings : list string)
  (context : string) {struct items} : completion (list string) :=
  match items with
  | JArray items =>
      forEachFrom
        (fun item (_ : nat) warnings =>
           match item with
           | JString item =>
               if includes (split "/" item) "mcp"
               then Normal (push warnings (reserved_page_warning context item))
               else Normal warnings
           | JObject fields =>
               warnings <-
                 with_property "pages"
                   (fun pages =>
                      if ToBoolean pages then
                        context' <- pages_context context fields ;;
                        checkNavigationPaths_json pages warnings context'
                      else Normal warnings)
                   (Normal warnings) fields ;;
               warnings <-
                 with_property "groups"
                   (fun groups =>
                      if ToBoolean groups
                      then checkNavigationPaths_json groups warnings context
                      else Normal warnings)
                   (Normal warnings) fields ;;
               warnings <-
                 with_property "menu"
                   (fun menu =>
                      if ToBoolean menu then
                        context' <- menu_context context fields ;;
                        checkNavigationPaths_json menu warnings context'
                      else Normal warnings)
                   (Normal warnings) fields ;;
               Normal (check_href fields warnings context)
           | _ => Normal warnings
           end)
        items 0 warnings
  | _ => Normal warnings
  end.

(** [checkNavigationPaths(items, warnings, context)]; a call without
    [context] passes the default [''] . *)
Definition checkNavigationPaths (items : value) (warnings : list string)
  (context : string) : completion (list string) :=
  match items with
  | Json items => checkNavigationPaths_json items warnings context
  | _ => Normal warnings
  end.

(** The three recursive steps of the scanner's callback on an object
    item, with the properties read as the source reads them:
    [if (item.pages) ...], [if (item.groups) ...], [if (item.menu) ...]. *)
Definition scan_children (fields : list (string * json))
  (warnings : list string) (context : string) : completion (list string) :=
  let pages := own_property "pages" fields in
  warnings <-
    (if ToBoolean pages then
       context' <- pages_context context fields ;;
       checkNavigationPaths pages warnings context'
     else Normal warnings) ;;
  let groups := own_property "groups" fields in
  warnings <-
    (if ToBoolean groups
     then checkNavigationPaths groups warnings context
     else Normal warnings) ;;
  let menu := own_property "menu" fields in
  if ToBoolean menu then
    context' <- menu_context context fields ;;
    checkNavigationPaths menu warnings context'
  else Normal warnings.

(** The callback of [items.forEach] in [checkNavigationPaths]. *)
Definition scan_item (context : string) (item : json) (index : nat)
  (warnings : list string) : completion (list string) :=
  match item with
  | JString item =>
      if includes (split "/" item) "mcp"
      then Normal (push warnings (reserved_page_warning context item))
      else Normal warnings
  | JObject fields =>
      warnings <- scan_children fields warnings context ;;
      Normal (check_href fields warnings context)
  | _ => Normal warnings
  end.

(** [validateRequiredFields(config, errors)] *)
Definition validateRequiredFields (config : value) (errors : list string)
  : completion (list string) :=
  theme <- Get config "theme" ;;
  errors <-
    (if negb (ToBoolean theme) then Normal (push errors theme_required)
     else if negb (Array_includes validThemes theme) then
       shown <- ToString theme ;;
       Normal (push errors (theme_invalid shown))
     else Normal errors) ;;
  name <- Get config "name" ;;
  if negb (ToBoolean name) then Normal (push errors name_required)
  else Normal errors.

(** [v && !v.match(/^#[0-9A-Fa-f]{6}$/)] *)
Definition malformed_color (v : value) : completion bool :=
  if ToBoolean v then
    matched <- String_match v hex_color_re ;;
    Normal (negb matched)
  else Normal false.

(** [validateColors(config, errors)] *)
Definition validateColors (config : value) (errors : list string)
  : completion (list string) :=
  colors <- Get config "colors" ;;
  missing <-
    (if negb (ToBoolean colors) then Normal true
     else primary <- Get colors "primary" ;;
          Normal (negb (ToBoolean primary))) ;;
  errors <-
    (if missing then Normal (push errors primary_required)
     else
       primary <- Get colors "primary" ;;
       malformed <- malformed_color primary ;;
       if malformed then Normal (push errors (color_malformed "primary"))
       else Normal errors) ;;
  if ToBoolean colors then
    forEachFrom
      (fun mode (_ : nat) errors =>
         color <- Get colors mode ;;
         malformed <- malformed_color color ;;
         if malformed then Normal (push errors (color_malformed mode))
         else Normal errors)
      ["light"; "dark"] 0 errors
  else Normal errors.

(** The callback of [config.navigation.groups.forEach]. *)
Definition group_entry (group : json) (index : nat) (errors : list string)
  : completion (list string) :=
  name <- Get group "group" ;;
  errors <-
    (if negb (ToBoolean name) then
       Normal (push errors ("Navigation group at index " ++ index_text index
                            ++ " is missing 'group' property"))
     else Normal errors) ;;
  pages <- Get group "pages" ;;
  if negb (ToBoolean pages) || negb (Array_isArray pages) then
    shown <- ToString name ;;
    Normal (push errors ("Navigation group '" ++ shown
                         ++ "' is missing 'pages' array"))
  else Normal errors.

(** [`Navigation tab at index ${index} is missing 'tab' property`] *)
Definition tab_missing (index : nat) : string :=
  "Navigation tab at index " ++ index_text index
  ++ " is missing 'tab' property".

(** [`Menu item at index ${menuIndex} in tab '${tab.tab}' is missing
    'item' property`] *)
Definition menu_item_missing (menuIndex : nat) (tab : string) : string :=
  "Menu item at index " ++ index_text menuIndex ++ " in tab '" ++ tab
  ++ "' is missing 'item' property".

(** The callback of [tab.menu.forEach], inside the callback for [tab]. *)
Definition menu_entry (tab : json) (menuItem : json) (menuIndex : nat)
  (errors : list string) : completion (list string) :=
  item <- Get menuItem "item" ;;
  if negb (ToBoolean item) then
    name <- Get tab "tab" ;;
    shown <- ToString name ;;
    Normal (push errors (menu_item_missing menuIndex shown))
  else Normal errors.

(** The callback of [config.navigation.tabs.forEach]. *)
Definition tab_entry (tab : json) (index : nat) (errors : list string)
  : completion (list string) :=
  name <- Get tab "tab" ;;
  errors <-
    (if negb (ToBoolean name) then
       Normal (push errors (tab_missing index))
     else Normal errors) ;;
  menu <- Get tab "menu" ;;
  if ToBoolean menu then Array_forEach menu (menu_entry tab) errors
  else Normal errors.

(** The callbacks of [anchors.forEach] and [dropdowns.forEach], and the
    first check of [versions.forEach]: [kind] is the property read and
    [label] the words of the message. *)
Definition named_entry (label kind : string) (entry : json) (index : nat)
  (errors : list string) : completion (list string) :=
  name <- Get entry kind ;;
  if negb (ToBoolean name) then
    Normal (push errors ("Navigation " ++ label ++ " at index "
                         ++ index_text index ++ " is missing '" ++ kind
                         ++ "' property"))
  else Normal errors.

(** [if (owner[key]) checkNavigationPaths(owner[key], warnings,
    `${label} '${owner[kind]}'`)] for a version or a language. *)
Definition scan_scope (label kind : string) (owner : json) (key : string)
  (warnings : list string) : completion (list string) :=
  children <- Get owner key ;;
  if ToBoolean children then
    name <- Get owner kind ;;
    shown <- ToString name ;;
    checkNavigationPaths children warnings (label ++ " '" ++ shown ++ "'")
  else Normal warnings.

Definition scan_scopes (label kind : string) (owner : json)
  (warnings : list string) : completion (list string) :=
  warnings <- scan_scope label kind owner "pages" warnings ;;
  warnings <- scan_scope label kind owner "groups" warnings ;;
  warnings <- scan_scope label kind owner "tabs" warnings ;;
  warnings <- scan_scope label kind owner "anchors" warnings ;;
  scan_scope label kind owner "dropdowns" warnings.

(** The callback of [config.navigation.versions.forEach]. *)
Definition version_entry (version : json) (index : nat)
  (arrays : list string * list string)
  : completion (list string * list string) :=
  let '(errors, warnings) := arrays in
  errors <- named_entry "version" "version" version index errors ;;
  warnings <- scan_scopes "Version" "version" version warnings ;;
  Normal (errors, warnings).

Definition validLanguages : list string :=
  ["ar"; "cn"; "zh-Hant"; "en"; "fr"; "de"; "id"; "it"; "jp"; "ko"; "pt-BR";
   "ru"; "es"; "tr"].

(** The callback of [config.navigation.languages.forEach]. *)
Definition language_entry (language : json) (index : nat)
  (arrays : list string * list string)
  : completion (list string * list string) :=
  let '(errors, warnings) := arrays in
  code <- Get language "language" ;;
  '(errors, warnings) <-
    (if negb (ToBoolean code) then
       Normal (push errors ("Navigation language at index "
                            ++ index_text index
                            ++ " is missing 'language' property"), warnings)
     else if negb (Array_includes validLanguages code) then
       shown <- ToString code ;;
       Normal (errors,
               push warnings ("Language code '" ++ shown
                              ++ "' may not be supported. Supported codes: "
                              ++ join ", " validLanguages))
     else Normal (errors, warnings)) ;;
  warnings <- scan_scopes "Language" "language" language warnings ;;
  Normal (errors, warnings).

(** The callback of [config.navigation.global.anchors.forEach]. *)
Definition global_anchor_entry (anchor : json) (index : nat)
  (errors : list string) : completion (list string) :=
  name <- Get anchor "anchor" ;;
  errors <-
    (if negb (ToBoolean name) then
       Normal (push errors ("Global anchor at index " ++ index_text index
                            ++ " is missing 'anchor' property"))
     else Normal errors) ;;
  href <- Get anchor "href" ;;
  if negb (ToBoolean href) then
    shown <- ToString name ;;
    Normal (push errors ("Global anchor '" ++ shown
                         ++ "' is missing 'href' property"))
  else
    external <- String_startsWith href "http" ;;
    if negb external then
      shown <- ToString name ;;
      Normal (push errors ("Global anchor '" ++ shown
        ++ "' href must be an external URL starting with http/https"))
    else Normal errors.

(** [if (entries) { entries.forEach(cb); checkNavigationPaths(entries,
    warnings, context) }] *)
Definition validate_entries (entries : value)
  (cb : json -> nat -> list string -> completion (list string))
  (context : string) (errors warnings : list string)
  : completion (list string * list string) :=
  if ToBoolean entries then
    errors <- Array_forEach entries cb errors ;;
    warnings <- checkNavigationPaths entries warnings context ;;
    Normal (errors, warnings)
  else Normal (errors, warnings).

(** [validateNavigation(config, errors, warnings)] *)
Definition validateNavigation (config : value)
  (errors warnings : list string) : completion (list string * list string) :=
  navigation <- Get config "navigation" ;;
  if negb (ToBoolean navigation) then
    Normal (push errors navigation_required, warnings)
  else
    pages <- Get navigation "pages" ;;
    warnings <-
      (if ToBoolean pages
       then checkNavigationPaths pages warnings "Root navigation"
       else Normal warnings) ;;
    groups <- Get navigation "groups" ;;
    '(errors, warnings) <-
      validate_entries groups group_entry "" errors warnings ;;
    tabs <- Get navigation "tabs" ;;
    '(errors, warnings) <-
      validate_entries tabs tab_entry "" errors warnings ;;
    anchors <- Get navigation "anchors" ;;
    '(errors, warnings) <-
      validate_entries anchors (named_entry "anchor" "anchor") ""
        errors warnings ;;
    dropdowns <- Get navigation "dropdowns" ;;
    '(errors, warnings) <-
      validate_entries dropdowns (named_entry "dropdown" "dropdown") ""
        errors warnings ;;
    versions <- Get navigation "versions" ;;
    '(errors, warnings) <-
      (if ToBoolean versions
       then Array_forEach versions version_entry (errors, warnings)
       else Normal (errors, warnings)) ;;
    languages <- Get navigation "languages" ;;
    '(errors, warnings) <-
      (if ToBoolean languages
       then Array_forEach languages language_entry (errors, warnings)
       else Normal (errors, warnings)) ;;
    global <- Get navigation "global" ;;
    global_anchors <- OptionalGet global "anchors" ;;
    validate_entries global_anchors global_anchor_entry "Global anchors"
      errors warnings.

(** [validateAssets(config, warnings)] *)
Definition validateAssets (config : value) (warnings : list string)
  : completion (list string) :=
  logo <- Get config "logo" ;;
  warnings <-
    (if ToBoolean logo then
       if js_type_eqb (typeof logo) TObject then
         href <- Get logo "href" ;;
         if ToBoolean href then
           matched <- String_match href absolute_url_re ;;
           if negb matched then
             Normal (push warnings
               "Logo 'href' should be a complete URL starting with http:// or https://")
           else Normal warnings
         else Normal warnings
       else Normal warnings
     else Normal warnings) ;;
  favicon <- Get config "favicon" ;;
  if ToBoolean favicon then
    matched <- String_match favicon favicon_re ;;
    if negb matched then
      Normal (push warnings
        "Favicon should typically be an .ico, .png, or .svg file")
    else Normal warnings
  else Normal warnings.

(** [if (service && service[key]) { if (!service[key].match(re))
    warnings.push(message) }] *)
Definition check_integration (service : value) (key : string)
  (re : string -> bool) (message : string) (warnings : list string)
  : completion (list string) :=
  if ToBoolean service then
    id <- Get service key ;;
    if ToBoolean id then
      matched <- String_match id re ;;
      if negb matched then Normal (push warnings message)
      else Normal warnings
    else Normal warnings
  else Normal warnings.

(** [validateIntegrations(config, warnings)] *)
Definition validateIntegrations (config : value) (warnings : list string)
  : completion (list string) :=
  integrations <- Get config "integrations" ;;
  if negb (ToBoolean integrations) then Normal warnings
  else
    ga4 <- Get integrations "ga4" ;;
    warnings <-
      check_integration ga4 "measurementId" ga4_re
        "Google Analytics 4 measurement ID should follow format 'G-XXXXXXXXX'"
        warnings ;;
    gtm <- Get integrations "gtm" ;;
    check_integration gtm "containerId" gtm_re
      "Google Tag Manager container ID should follow format 'GTM-XXXXXXX'"
      warnings.

(** [if (!config[key]) warnings.push(message)] *)
Definition suggest (config : value) (key message : string)
  (warnings : list string) : completion (list string) :=
  present <- Get config key ;;
  if negb (ToBoolean present) then Normal (push warnings message)
  else Normal warnings.

Definition schema_hint : string :=
  String.concat ""
    ["Consider adding "; String "034" "$schema"; String "034" ": ";
     String "034" "https://mintlify.com/docs.json"; String "034"
       " for better IDE support."].

Definition description_hint : string :=
  String.concat ""
    ["Consider adding a "; String "034" "description"; String "034"
       " for better SEO and AI indexing."].

Definition favicon_hint : string :=
  String.concat ""
    ["Consider adding a "; String "034" "favicon"; String "034"
       " for better branding."].

Definition logo_hint : string :=
  String.concat ""
    ["Consider adding a "; String "034" "logo"; String "034"
       " configuration for better branding."].

(** [validateBestPractices(config, warnings)] *)
Definition validateBestPractices (config : value) (warnings : list string)
  : completion (list string) :=
  warnings <- suggest config "$schema" schema_hint warnings ;;
  warnings <- suggest config "description" description_hint warnings ;;
  warnings <- suggest config "favicon" favicon_hint warnings ;;
  suggest config "logo" logo_hint warnings.

(** [validateDocsJson(config)] *)
Definition validateDocsJson (config : value) : completion ValidationResult :=
  let errors := [] in
  let warnings := [] in
  errors <- validateRequiredFields config errors ;;
  errors <- validateColors config errors ;;
  '(errors, warnings) <- validateNavigation config errors warnings ;;
  warnings <- validateAssets config warnings ;;
  warnings <- validateIntegrations config warnings ;;
  warnings <- validateBestPractices config warnings ;;
  Normal (result_of errors warnings).

Definition parse_error_result : ValidationResult :=
  {| errors := ["JSON Parse Error: Invalid JSON format"];
     warnings := [];
     isValid := false |}.

Section Component.

(** [JSON.parse] on a string: the parsed value, or a thrown
    [SyntaxError]. *)
Variable JSON_parse : string -> completion json.

(** The function memoised as [parsedConfig]; [null] is [JNull]. *)
Definition parsedConfig (jsonInput : string) : json :=
  if blank jsonInput then JNull
  else match JSON_parse jsonInput with
       | Normal parsed => parsed
       | Throw _ => JNull
       end.

(** The function memoised as [validationResult]; it returns [null]
    ([None]) or a [ValidationResult]. It reads [jsonInput] and
    [parsedConfig]. *)
Definition validationResult (jsonInput : string) (parsedConfig : json)
  : completion (option ValidationResult) :=
  if blank jsonInput then Normal None
  else if negb (ToBoolean parsedConfig) then Normal (Some parse_error_result)
  else
    result <- validateDocsJson parsedConfig ;;
    Normal (Some result).

(** One evaluation of both functions on an input text. *)
Definition validate_text (jsonInput : string)
  : completion (option ValidationResult) :=
  validationResult jsonInput (parsedConfig jsonInput).

(** *** The two [useMemo] cells

    [useMemo(f, deps)] calls [f] on the first render and whenever a
    dependency differs, by [Object.is], from its value at the previous
    render; otherwise it returns the value it holds. [parsedConfig]
    depends on [jsonInput]; [validationResult] depends on [parsedConfig]
    and on [validateDocsJson], a [useCallback] that never changes. *)

(** A held [parsedConfig]: an array or object is a new object at every
    parse, told apart by the render that made it. *)
Record parsed_cell := {
  parsed_for : string;
  parsed_value : json;
  parsed_at : nat
}.

Record component := {
  renders : nat;
  parsed_memo : parsed_cell;
  result_memo : option ValidationResult
}.

Definition number_eqb (m n : number) : bool :=
  Bool.eqb (number_is_zero m) (number_is_zero n)
  && String.eqb (number_text m) (number_text n).

(** [Object.is] on two held [parsedConfig] values. Numbers are compared
    by their observations; the sign of a zero, which [Object.is] also
    compares, is not recorded, and no result depends on it. *)
Definition Object_is (a b : parsed_cell) : bool :=
  match parsed_value a, parsed_value b with
  | JNull, JNull => true
  | JBool x, JBool y => Bool.eqb x y
  | JNumber x, JNumber y => number_eqb x y
  | JString x, JString y => String.eqb x y
  | JArray _, JArray _ | JObject _, JObject _
  | JArray _, JObject _ | JObject _, JArray _ =>
      Nat.eqb (parsed_at a) (parsed_at b)
  | _, _ => false
  end.

(** The first render, with [jsonInput] the initial state ['']. *)
Definition mount : completion component :=
  let parsed := {| parsed_for := ""; parsed_value := parsedConfig "";
                   parsed_at := 0 |} in
  result <- validationResult "" (parsed_value parsed) ;;
  Normal {| renders := 1; parsed_memo := parsed; result_memo := result |}.

(** A later render, with [jsonInput] the current state. *)
Definition render (previous : component) (jsonInput : string)
  : completion component :=
  let parsed :=
    if String.eqb (parsed_for (parsed_memo previous)) jsonInput
    then parsed_memo previous
    else {| parsed_for := jsonInput; parsed_value := parsedConfig jsonInput;
            parsed_at := renders previous |} in
  result <-
    (if Object_is (parsed_memo previous) parsed
     then Normal (result_memo previous)
     else validationResult jsonInput (parsed_value parsed)) ;;
  Normal {| renders := S (renders previous); parsed_memo := parsed;
            result_memo := result |}.

End Component.

End Sandbox.

(** ** The earlier variants

    Both keep one inline [validateDocsJson] and run it inside the [try]
    block that also parses, in an effect that depends on [jsonInput]. *)

(** [`JSON Parse Error: ${error.message}`] in a [ValidationResult]. *)
Definition caught_result (message : string) : ValidationResult :=
  {| errors := ["JSON Parse Error: " ++ message];
     warnings := [];
     isValid := false |}.

(** [`Navigation tab at index ${index} is missing 'name' property`] *)
Definition legacy_tab_missing_name (index : nat) : string :=
  "Navigation tab at index " ++ index_text index
  ++ " is missing 'name' property".

(** [`Navigation tab '${tab.name}' is missing 'url' property`] *)
Definition legacy_tab_missing_url (name : string) : string :=
  "Navigation tab '" ++ name ++ "' is missing 'url' property".

(** The legacy callback of [config.navigation.tabs.forEach]. *)
Definition legacy_tab_entry (tab : json) (index : nat)
  (errors : list string) : completion (list string) :=
  name <- Get tab "name" ;;
  errors <-
    (if negb (ToBoolean name) then
       Normal (push errors (legacy_tab_missing_name index))
     else Normal errors) ;;
  url <- Get tab "url" ;;
  if negb (ToBoolean url) then
    shown <- ToString name ;;
    Normal (push errors (legacy_tab_missing_url shown))
  else Normal errors.

(** Both variants open with the checks of [theme] and [name], which are,
    word for word, the body of [validateRequiredFields]. The check of
    [colors.primary] follows. *)
Definition legacy_primary (config : value) (errors : list string)
  : completion (list string) :=
  colors <- Get config "colors" ;;
  missing <-
    (if negb (ToBoolean colors) then Normal true
     else primary <- Get colors "primary" ;;
          Normal (negb (ToBoolean primary))) ;;
  if missing then Normal (push errors primary_required)
  else
    primary <- Get colors "primary" ;;
    malformed <- Sandbox.malformed_color primary ;;
    if malformed then Normal (push errors (color_malformed "primary"))
    else Normal errors.

(** [if (config.colors) ['light', 'dark'].forEach(...)] *)
Definition legacy_optional_colors (config : value) (errors : list string)
  : completion (list string) :=
  colors <- Get config "colors" ;;
  if ToBoolean colors then
    forEachFrom
      (fun mode (_ : nat) errors =>
         color <- Get colors mode ;;
         malformed <- Sandbox.malformed_color color ;;
         if malformed then Normal (push errors (color_malformed mode))
         else Normal errors)
      ["light"; "dark"] 0 errors
  else Normal errors.

(** The navigation block of both variants; [reserved page] is the
    warning, if any, for a string page of a group. *)
Definition legacy_navigation (reserved : string -> option string)
  (config : value) (errors warnings : list string)
  : completion (list string * list string) :=
  navigation <- Get config "navigation" ;;
  if negb (ToBoolean navigation) then
    Normal (push errors navigation_required, warnings)
  else
    groups <- Get navigation "groups" ;;
    '(errors, warnings) <-
      (if ToBoolean groups then
         Array_forEach groups
           (fun group index (arrays : list string * list string) =>
              let '(errors, warnings) := arrays in
              errors <- Sandbox.group_entry group index errors ;;
              pages <- Get group "pages" ;;
              warnings <-
                (if ToBoolean pages then
                   Array_forEach pages
                     (fun page (_ : nat) warnings =>
                        match page with
                        | JString page =>
                            match reserved page with
                            | Some warning => Normal (push warnings warning)
                            | None => Normal warnings
                            end
                        | _ => Normal warnings
                        end)
                     warnings
                 else Normal warnings) ;;
              Normal (errors, warnings))
           (errors, warnings)
       else Normal (errors, warnings)) ;;
    tabs <- Get navigation "tabs" ;;
    if ToBoolean tabs then
      errors <- Array_forEach tabs legacy_tab_entry errors ;;
      Normal (errors, warnings)
    else Normal (errors, warnings).

Section LegacyEffect.

Variable validateDocsJson : value -> completion ValidationResult.
Variable JSON_parse : string -> completion json.

(** [error.message] of a caught [TypeError], which the engine words. *)
Variable TypeError_message : type_error -> string.

Definition error_message (e : js_error) : string :=
  match e with
  | SyntaxError message => message
  | TypeError why => TypeError_message why
  end.

(** The effect on [jsonInput]: the value it gives [setValidationResult],
    [null] being [None]. *)
Definition legacy_effect (jsonInput : string) : option ValidationResult :=
  if blank jsonInput then None
  else
    match parsed <- JSON_parse jsonInput ;; validateDocsJson parsed with
    | Normal validation => Some validation
    | Throw error => Some (caught_result (error_message error))
    end.

End LegacyEffect.

Module Legacy.

(** [pathParts.includes('mcp')] after [page.split('/')] *)
Definition reserved (page : string) : option string :=
  if includes (split "/" page) "mcp" then
    Some ("Page '" ++ page
          ++ "' uses reserved path. /mcp paths are reserved and may cause 404 errors")
  else None.

(** [validateDocsJson(config)] *)
Definition validateDocsJson (config : value) : completion ValidationResult :=
  let errors := [] in
  let warnings := [] in
  errors <- Sandbox.validateRequiredFields config errors ;;
  errors <- legacy_primary config errors ;;
  '(errors, warnings) <- legacy_navigation reserved config errors warnings ;;
  errors <- legacy_optional_colors config errors ;;
  warnings <- Sandbox.suggest config "$schema" Sandbox.schema_hint warnings ;;
  warnings <-
    Sandbox.suggest config "description" Sandbox.description_hint warnings ;;
  Normal (result_of errors warnings).

Definition effect := legacy_effect validateDocsJson.

End Legacy.

Module LegacyApi.

(** [page.includes('/api') || page.includes('/mcp')] *)
Definition reserved (page : string) : option string :=
  if String_includes page "/api" || String_includes page "/mcp" then
    Some ("Page '" ++ page
          ++ "' uses reserved path. /api and /mcp paths are reserved and may cause 404 errors")
  else None.

(** [if (config[key] && typeof config[key] !== 'string') { ... }] for
    [favicon] and [logo]. *)
Definition check_variants (config : value) (key what : string)
  (warnings : list string) : completion (list string) :=
  asset <- Get config key ;;
  if ToBoolean asset && negb (js_type_eqb (typeof asset) TString) then
    forEachFrom
      (fun mode (_ : nat) warnings =>
         variant <- Get asset mode ;;
         if ToBoolean variant && negb (js_type_eqb (typeof variant) TString)
         then Normal (push warnings ("'" ++ key ++ "." ++ mode
                        ++ "' should be a string path to " ++ what ++ " file"))
         else Normal warnings)
      ["light"; "dark"] 0 warnings
  else Normal warnings.

(** [validateDocsJson(config)] *)
Definition validateDocsJson (config : value) : completion ValidationResult :=
  let errors := [] in
  let warnings := [] in
  errors <- Sandbox.validateRequiredFields config errors ;;
  errors <- legacy_primary config errors ;;
  '(errors, warnings) <- legacy_navigation reserved config errors warnings ;;
  errors <- legacy_optional_colors config errors ;;
  warnings <- check_variants config "favicon" "favicon" warnings ;;
  warnings <- check_variants config "logo" "logo" warnings ;;
  warnings <-
    Sandbox.suggest config "$schema"
      "Consider adding '$schema': 'https://mintlify.com/docs.json' for better IDE support"
      warnings ;;
  warnings <-
    Sandbox.suggest config "description"
      "Consider adding 'description' for better SEO and AI indexing"
      warnings ;;
  Normal (result_of errors warnings).

Definition effect := legacy_effect validateDocsJson.

End LegacyApi.

(** ** The previews

    What the components show of a parsed document. A JSX expression is
    embedded as the data it is built from: the values of its holes, in
    the order the source evaluates them, an exception thrown in a hole
    being the [Throw] completion of the whole. The tags, the fixed texts
    and the class names that do not depend on the document are left
    out. What React does with the elements afterwards is no part of the
    sources and is not embedded: it shows a string or a number in a hole,
    shows nothing for [null], [undefined] and a boolean, and rejects an
    object. *)

(** [v && jsx] in a hole of a JSX expression: the falsy [v], which React
    does not show unless it is a number, or the element. *)
Inductive hole (A : Type) : Type :=
| Skipped (v : value)
| Shown (a : A).

Arguments Skipped {A} v.
Arguments Shown {A} a.

Definition and_then {A : Type} (v : value) (a : A) : hole A :=
  if ToBoolean v then Shown a else Skipped v.

(** *** The navigation tree of [snippets/settings-sandbox.jsx] *)

Module Preview.

#[local] Unset Elimination Schemes.
(** What [renderNavigationItems] returns: [null], an array of nodes, the
    row of a page, or the block of a navigation item. Of an element the
    model keeps the key, the [marginLeft] in pixels, the class name that
    depends on the item and the holes; the [div] around a shown hole is
    not recorded. *)
Inductive node : Type :=
| Null
| Nodes (children : list node)
| PageRow (key marginLeft : nat) (page : string)
| ItemBlock (key marginLeft : nat) (className : string)
    (marks : list (hole string)) (title : value) (icon : hole value)
    (pages groups menu : hole node) (href : hole (nat * value)).
#[local] Set Elimination Schemes.

Definition block_class (isGroup isTab isAnchor isDropdown isMenuItem : value)
  : string :=
  "text-xs font-medium flex items-center gap-1 mb-1 "
  ++ (if ToBoolean isGroup then "text-zinc-950 dark:text-white"
      else if ToBoolean isTab then "text-blue-700 dark:text-blue-300"
      else if ToBoolean isAnchor then "text-indigo-700 dark:text-indigo-300"
      else if ToBoolean isDropdown then "text-orange-700 dark:text-orange-300"
      else if ToBoolean isMenuItem then "text-gray-700 dark:text-gray-300"
      else "text-zinc-950 dark:text-white").

(** [renderNavigationItems] on a parsed value. An item that is an array
    has type ['object'] and none of the properties read. *)
Fixpoint renderNavigationItems_json (items : json) (depth : nat)
  {struct items} : node :=
  match items with
  | JArray items =>
      Nodes
        (mapFrom
           (fun item index =>
              let marginLeft := depth * 12 in
              let block (fields : list (string * json)) :=
                let isGroup := own_property "group" fields in
                let isTab := own_property "tab" fields in
                let isAnchor := own_property "anchor" fields in
                let isDropdown := own_property "dropdown" fields in
                let isMenuItem := own_property "item" fields in
                let title :=
                  or_else isGroup
                    (or_else isTab
                       (or_else isAnchor
                          (or_else isDropdown
                             (or_else isMenuItem (JString "Unknown"))))) in
                let icon := own_property "icon" fields in
                let href := own_property "href" fields in
                let nested (key : string) :=
                  with_property key
                    (fun children =>
                       if ToBoolean children
                       then Shown (renderNavigationItems_json children
                                     (depth + 1))
                       else Skipped children)
                    (Skipped Undefined) fields in
                ItemBlock index marginLeft
                  (block_class isGroup isTab isAnchor isDropdown isMenuItem)
                  [and_then isGroup "📁"; and_then isTab "📋";
                   and_then isAnchor "⚓"; and_then isDropdown "▼";
                   and_then isMenuItem "📄"]
                  title (and_then icon icon)
                  (nested "pages") (nested "groups") (nested "menu")
                  (and_then href ((depth + 1) * 12, href)) in
              match item with
              | JString item => PageRow index marginLeft item
              | JObject fields => block fields
              | JArray _ => block []
              | _ => Null
              end)
           items 0)
  | _ => Null
  end.


(** [renderNavigationItems(items, depth)]; a call without [depth] passes
    the default [0]. *)
Definition renderNavigationItems (items : value) (depth : nat) : node :=
  match items with
  | Json items => renderNavigationItems_json items depth
  | _ => Null
  end.

(** [owner[key] && renderNavigationItems(owner[key], depth)] *)
Definition render_nested (fields : list (string * json)) (key : string)
  (depth : nat) : hole node :=
  let children := own_property key fields in
  and_then children (renderNavigationItems children depth).

(** The block of an object item, with the properties read as the source
    reads them. *)
Definition render_block (depth : nat) (fields : list (string * json))
  (index : nat) : node :=
  let isGroup := own_property "group" fields in
  let isTab := own_property "tab" fields in
  let isAnchor := own_property "anchor" fields in
  let isDropdown := own_property "dropdown" fields in
  let isMenuItem := own_property "item" fields in
  let title :=
    or_else isGroup
      (or_else isTab
         (or_else isAnchor
            (or_else isDropdown (or_else isMenuItem (JString "Unknown"))))) in
  let icon := own_property "icon" fields in
  let href := own_property "href" fields in
  ItemBlock index (depth * 12)
    (block_class isGroup isTab isAnchor isDropdown isMenuItem)
    [and_then isGroup "📁"; and_then isTab "📋"; and_then isAnchor "⚓";
     and_then isDropdown "▼"; and_then isMenuItem "📄"]
    title (and_then icon icon)
    (render_nested fields "pages" (depth + 1))
    (render_nested fields "groups" (depth + 1))
    (render_nested fields "menu" (depth + 1))
    (and_then href ((depth + 1) * 12, href)).

(** The callback of [items.map] in [renderNavigationItems]. *)
Definition render_item (depth : nat) (item : json) (index : nat) : node :=
  match item with
  | JString item => PageRow index (depth * 12) item
  | JObject fields => render_block depth fields index
  | JArray _ => render_block depth [] index
  | _ => Null
  end.

(** What a node shows of the paths of the navigation: the pages and the
    [href]s, in the order of the document. *)
Inductive shown_path : Type :=
| Page (page : string)
| Href (href : value).

Fixpoint paths (n : node) : list shown_path :=
  let nested (h : hole node) :=
    match h with
    | Shown children => paths children
    | Skipped _ => []
    end in
  match n with
  | Null => []
  | Nodes children => flat_map paths children
  | PageRow _ _ page => [Page page]
  | ItemBlock _ _ _ _ _ _ pages groups menu href =>
      (nested pages ++ nested groups ++ nested menu
       ++ match href with
          | Shown (_, href) => [Href href]
          | Skipped _ => []
          end)%list
  end.

(** The rows and blocks of a node are indented by twelve pixels for
    each level below [depth], and the [href] of a block as its
    children. *)
Fixpoint indented (depth : nat) (n : node) : bool :=
  let nested (h : hole node) :=
    match h with
    | Shown children => indented (S depth) children
    | Skipped _ => true
    end in
  match n with
  | Null => true
  | Nodes children => forallb (indented depth) children
  | PageRow _ marginLeft _ => Nat.eqb marginLeft (12 * depth)
  | ItemBlock _ marginLeft _ _ _ _ pages groups menu href =>
      Nat.eqb marginLeft (12 * depth)
      && nested pages && nested groups && nested menu
      && match href with
         | Shown (marginLeft, _) => Nat.eqb marginLeft (12 * S depth)
         | Skipped _ => true
         end
  end.

End Preview.

(** *** The configuration preview of [snippets/settings-sandbox.jsx] *)

(** [v && jsx] where evaluating [jsx] can throw. *)
Definition and_thenM {A : Type} (v : value) (jsx : completion A)
  : completion (hole A) :=
  if ToBoolean v then a <- jsx ;; Normal (Shown a) else Normal (Skipped v).

Module ConfigurationPreview.

Import Preview.

(** The navigation of a version or of a language in the preview: the
    key, the label and the five holes
    [{owner.pages && renderNavigationItems(owner.pages, 1)}] ... *)
Record scoped (L : Type) := {
  scoped_key : nat;
  scoped_label : L;
  scoped_items : list (hole node)
}.

Arguments scoped_key {L} s.
Arguments scoped_label {L} s.
Arguments scoped_items {L} s.

(** The holes of the navigation block, in the order of the source. *)
Record navigation_block := {
  version_badges : hole (list (nat * value));
  language_badges : hole (list (nat * value));
  global_anchors : hole (list (nat * value * value));
  tabs_tree : hole node;
  anchors_tree : hole node;
  dropdowns_tree : hole node;
  groups_tree : hole node;
  pages_tree : hole node;
  version_navigation : hole (list (scoped value));
  language_navigation : hole (list (scoped string))
}.

(** The holes of the configuration preview, in the order of the source. *)
Record configuration := {
  header_background : value;
  header_name : value;
  header_description : hole value;
  theme_name : value;
  primary_swatch : value;
  primary_text : value;
  navigation_preview : hole navigation_block
}.

(** The five holes of a version or a language. *)
Definition scoped_trees (owner : json) : completion (list (hole node)) :=
  pages <- Get owner "pages" ;;
  groups <- Get owner "groups" ;;
  tabs <- Get owner "tabs" ;;
  anchors <- Get owner "anchors" ;;
  dropdowns <- Get owner "dropdowns" ;;
  Normal [and_then pages (renderNavigationItems pages 1);
          and_then groups (renderNavigationItems groups 1);
          and_then tabs (renderNavigationItems tabs 1);
          and_then anchors (renderNavigationItems anchors 1);
          and_then dropdowns (renderNavigationItems dropdowns 1)].

(** [{owner[key] && <div>...{renderNavigationItems(owner[key])}</div>}] *)
Definition tree_hole (owner : value) (key : string) : completion (hole node) :=
  children <- Get owner key ;;
  Normal (and_then children (renderNavigationItems children 0)).

Section Body.

(** [String.prototype.toUpperCase], which follows the Unicode case
    mapping. *)
Variable toUpperCase : string -> string.

(** [{parsedConfig.navigation && (...)}], [navigation] being truthy. *)
Definition navigation_holes (navigation : value)
  : completion navigation_block :=
  versions <- Get navigation "versions" ;;
  version_badges <-
    and_thenM versions
      (Array_map versions
         (fun version index =>
            name <- Get version "version" ;; Normal (index, name))) ;;
  languages <- Get navigation "languages" ;;
  language_badges <-
    and_thenM languages
      (Array_map languages
         (fun language index =>
            code <- Get language "language" ;; Normal (index, code))) ;;
  global <- Get navigation "global" ;;
  global_anchors <- OptionalGet global "anchors" ;;
  global_anchors <-
    and_thenM global_anchors
      (Array_map global_anchors
         (fun anchor index =>
            name <- Get anchor "anchor" ;;
            href <- Get anchor "href" ;;
            Normal (index, name, href))) ;;
  tabs <- tree_hole navigation "tabs" ;;
  anchors <- tree_hole navigation "anchors" ;;
  dropdowns <- tree_hole navigation "dropdowns" ;;
  groups <- tree_hole navigation "groups" ;;
  pages <- tree_hole navigation "pages" ;;
  versions <- Get navigation "versions" ;;
  version_navigation <-
    and_thenM versions
      (Array_map versions
         (fun version index =>
            name <- Get version "version" ;;
            trees <- scoped_trees version ;;
            Normal {| scoped_key := index; scoped_label := name;
                      scoped_items := trees |})) ;;
  languages <- Get navigation "languages" ;;
  language_navigation <-
    and_thenM languages
      (Array_map languages
         (fun language index =>
            code <- Get language "language" ;;
            upper <- string_method "toUpperCase" code toUpperCase ;;
            trees <- scoped_trees language ;;
            Normal {| scoped_key := index; scoped_label := upper;
                      scoped_items := trees |})) ;;
  Normal {| version_badges := version_badges;
            language_badges := language_badges;
            global_anchors := global_anchors;
            tabs_tree := tabs;
            anchors_tree := anchors;
            dropdowns_tree := dropdowns;
            groups_tree := groups;
            pages_tree := pages;
            version_navigation := version_navigation;
            language_navigation := language_navigation |}.

(** The element after [parsedConfig && validationResult?.isValid &&],
    [parsedConfig] being truthy. *)
Definition configuration_holes (parsedConfig : value)
  : completion configuration :=
  colors <- Get parsedConfig "colors" ;;
  primary <- OptionalGet colors "primary" ;;
  let background := or_else primary (JString "#0066cc") in
  name <- Get parsedConfig "name" ;;
  description <- Get parsedConfig "description" ;;
  theme <- Get parsedConfig "theme" ;;
  colors <- Get parsedConfig "colors" ;;
  swatch <- OptionalGet colors "primary" ;;
  colors <- Get parsedConfig "colors" ;;
  primary <- OptionalGet colors "primary" ;;
  navigation <- Get parsedConfig "navigation" ;;
  navigation <- and_thenM navigation (navigation_holes navigation) ;;
  Normal {| header_background := background;
            header_name := name;
            header_description := and_then description description;
            theme_name := theme;
            primary_swatch := swatch;
            primary_text := primary;
            navigation_preview := navigation |}.

(** [{parsedConfig && validationResult?.isValid && (...)}] in the
    element the component returns. *)
Definition configuration_preview (parsedConfig : json)
  (validationResult : option ValidationResult)
  : completion (hole configuration) :=
  if ToBoolean parsedConfig then
    match validationResult with
    | None => Normal (Skipped Undefined)
    | Some result =>
        if isValid result then
          shown <- configuration_holes parsedConfig ;; Normal (Shown shown)
        else Normal (Skipped (JBool false))
    end
  else Normal (Skipped parsedConfig).

End Body.

End ConfigurationPreview.

(** *** The previews of the earlier variants *)

Module EarlierPreview.

(** [typeof page === 'string' ? page : page.toString()]. [null] has no
    [toString]; an object with an own [toString] property, which cannot
    be callable in parsed JSON, has one that is not a function; a number,
    a boolean, an array and any other object have that of their
    prototype. *)
Definition page_text (page : json) : completion string :=
  match page with
  | JString page => Normal page
  | JNull => Throw (TypeError (CannotReadProperty "toString"))
  | JObject fields =>
      if has_own "toString" fields
      then Throw (TypeError (NotAFunction "toString"))
      else Normal "[object Object]"
  | _ => json_ToString page
  end.

(** A group in the preview: the key, [{group.group}] and the pages. *)
Record group_holes := {
  group_key : nat;
  group_name : value;
  group_pages : hole (list (nat * string))
}.

(** The holes of the navigation block, the same in both variants. *)
Record navigation_block := {
  tabs_row : hole (list (nat * value));
  groups_list : hole (list group_holes)
}.

(** [{parsedConfig.navigation && (...)}], [navigation] being truthy. *)
Definition navigation_holes (navigation : value)
  : completion navigation_block :=
  tabs <- Get navigation "tabs" ;;
  tabs_row <-
    and_thenM tabs
      (Array_map tabs
         (fun tab index => name <- Get tab "name" ;; Normal (index, name))) ;;
  groups <- Get navigation "groups" ;;
  groups_list <-
    and_thenM groups
      (Array_map groups
         (fun group index =>
            name <- Get group "group" ;;
            pages <- Get group "pages" ;;
            shown <-
              and_thenM pages
                (Array_map pages
                   (fun page pageIndex =>
                      text <- page_text page ;; Normal (pageIndex, text))) ;;
            Normal {| group_key := index; group_name := name;
                      group_pages := shown |})) ;;
  Normal {| tabs_row := tabs_row; groups_list := groups_list |}.

(** The holes of the configuration preview of the second variant. *)
Record configuration := {
  header_background : value;
  header_name : value;
  header_description : hole value;
  theme_name : value;
  primary_swatch : value;
  primary_text : value;
  navigation_preview : hole navigation_block
}.

(** The element after [parsedConfig && validationResult?.isValid &&] in
    the second variant, [parsedConfig] being truthy. *)
Definition configuration_holes (parsedConfig : value)
  : completion configuration :=
  colors <- Get parsedConfig "colors" ;;
  primary <- OptionalGet colors "primary" ;;
  let background := or_else primary (JString "#0066cc") in
  name <- Get parsedConfig "name" ;;
  description <- Get parsedConfig "description" ;;
  theme <- Get parsedConfig "theme" ;;
  colors <- Get parsedConfig "colors" ;;
  swatch <- OptionalGet colors "primary" ;;
  colors <- Get parsedConfig "colors" ;;
  primary <- OptionalGet colors "primary" ;;
  navigation <- Get parsedConfig "navigation" ;;
  navigation <- and_thenM navigation (navigation_holes navigation) ;;
  Normal {| header_background := background;
            header_name := name;
            header_description := and_then description description;
            theme_name := theme;
            primary_swatch := swatch;
            primary_text := primary;
            navigation_preview := navigation |}.

(** [{parsedConfig && validationResult?.isValid && (...)}] in the
    element the second variant returns. *)
Definition configuration_preview (parsedConfig : json)
  (validationResult : option ValidationResult)
  : completion (hole configuration) :=
  if ToBoolean parsedConfig then
    match validationResult with
    | None => Normal (Skipped Undefined)
    | Some result =>
        if isValid result then
          shown <- configuration_holes parsedConfig ;; Normal (Shown shown)
        else Normal (Skipped (JBool false))
    end
  else Normal (Skipped parsedConfig).

(** [{parsedConfig.colors?.light && (...)}] of the first variant, for
    [light] and for [dark]: the swatch and the text. *)
Definition mode_hole (parsedConfig : value) (mode : string)
  : completion (hole (value * value)) :=
  colors <- Get parsedConfig "colors" ;;
  color <- OptionalGet colors mode ;;
  and_thenM color
    (colors <- Get parsedConfig "colors" ;;
     swatch <- Get colors mode ;;
     colors <- Get parsedConfig "colors" ;;
     text <- Get colors mode ;;
     Normal (swatch, text)).

(** [{parsedConfig[key] ? '✓ Configured' : '✗ Not set'}] *)
Definition configured (parsedConfig : value) (key : string)
  : completion string :=
  present <- Get parsedConfig key ;;
  Normal (if ToBoolean present then "✓ Configured" else "✗ Not set").

(** What [renderPreview] of the first variant returns when it shows the
    configuration. *)
Record rendered_preview := {
  shown_configuration : configuration;
  light_mode : hole (value * value);
  dark_mode : hole (value * value);
  schema_flag : string;
  favicon_flag : string;
  logo_flag : string;
  description_flag : string
}.

(** [renderPreview()] of the first variant; [None] is the placeholder
    that asks for valid JSON. *)
Definition renderPreview (parsedConfig : json)
  (validationResult : option ValidationResult)
  : completion (option rendered_preview) :=
  let valid :=
    match validationResult with
    | Some result => isValid result
    | None => false
    end in
  if negb (ToBoolean parsedConfig) || negb valid then Normal None
  else
    colors <- Get parsedConfig "colors" ;;
    primary <- OptionalGet colors "primary" ;;
    let background := or_else primary (JString "#0066cc") in
    name <- Get parsedConfig "name" ;;
    description <- Get parsedConfig "description" ;;
    theme <- Get parsedConfig "theme" ;;
    colors <- Get parsedConfig "colors" ;;
    swatch <- OptionalGet colors "primary" ;;
    colors <- Get parsedConfig "colors" ;;
    primary <- OptionalGet colors "primary" ;;
    light <- mode_hole parsedConfig "light" ;;
    dark <- mode_hole parsedConfig "dark" ;;
    navigation <- Get parsedConfig "navigation" ;;
    navigation <- and_thenM navigation (navigation_holes navigation) ;;
    schema <- configured parsedConfig "$schema" ;;
    favicon <- configured parsedConfig "favicon" ;;
    logo <- configured parsedConfig "logo" ;;
    described <- configured parsedConfig "description" ;;
    Normal
      (Some {| shown_configuration :=
                 {| header_background := background;
                    header_name := name;
                    header_description := and_then description description;
                    theme_name := theme;
                    primary_swatch := swatch;
                    primary_text := primary;
                    navigation_preview := navigation |};
               light_mode := light;
               dark_mode := dark;
               schema_flag := schema;
               favicon_flag := favicon;
               logo_flag := logo;
               description_flag := described |}).

End EarlierPreview.

(** ** Documents

    The passing document of the specification's first scenario, and the
    fields of the [complete] example of the earlier variant. *)

Definition passing_fields : list (string * json) :=
  [("theme", JString "mint");
   ("name", JString "X");
   ("colors", JObject [("primary", JString "#0066cc")]);
   ("navigation",
    JObject [("groups",
              JArray [JObject [("group", JString "G");
                               ("pages", JArray [JString "a"])]])])].

Definition passing_document : json := JObject passing_fields.

(** [{ "name": "Documentation", "url": "docs" }] *)
Definition legacy_tab : json :=
  JObject [("name", JString "Documentation"); ("url", JString "docs")].

(** [{ "tab": "Guides" }] *)
Definition current_tab : json := JObject [("tab", JString "Guides")].

(** The passing document with [navigation.tabs] set to [tabs]. *)
Definition with_tabs (tabs : list json) : json :=
  JObject
    [("theme", JString "mint");
     ("name", JString "X");
     ("colors", JObject [("primary", JString "#0066cc")]);
     ("navigation", JObject [("tabs", JArray tabs)])].

(** A tab whose second menu entry has no [item]. *)
Definition menu_tab : json :=
  JObject
    [("tab", JString "Guides");
     ("menu",
      JArray [JObject [("item", JString "Overview");
                       ("pages", JArray [JString "guides/overview"])];
              JObject [("pages", JArray [JString "guides/advanced"])]])].

(** [{ "light": "/favicon-light.png", "dark": "/favicon-dark.png" }] *)
Definition favicon_variants : json :=
  JObject [("light", JString "/favicon-light.png");
           ("dark", JString "/favicon-dark.png")].

(** The [complete] example that [loadExample] of [settings-sandbox.jsx]
    loads. *)
Definition complete_example : list (string * json) :=
  let group name pages :=
    JObject [("group", JString name); ("pages", JArray (map JString pages))]
  in
  [("$schema", JString "https://mintlify.com/docs.json");
   ("theme", JString "maple");
   ("name", JString "Complete Documentation");
   ("description",
    JString "Comprehensive documentation site with all navigation features");
   ("colors",
    JObject [("primary", JString "#F59E0B"); ("light", JString "#FCD34D");
             ("dark", JString "#D97706")]);
   ("logo",
    JObject [("light", JString "/logo-light.png");
             ("dark", JString "/logo-dark.png");
             ("href", JString "https://example.com")]);
   ("favicon", JString "/favicon.ico");
   ("navigation",
    JObject
      [("global",
        JObject
          [("anchors",
            JArray
              [JObject [("anchor", JString "Community");
                        ("icon", JString "users");
                        ("href", JString "https://discord.gg/example")];
               JObject [("anchor", JString "Blog");
                        ("icon", JString "newspaper");
                        ("href", JString "https://example.com/blog")]])]);
       ("versions",
        JArray
          [JObject
             [("version", JString "2.0");
              ("groups",
               JArray
                 [JObject [("group", JString "Getting Started");
                           ("icon", JString "play");
                           ("pages",
                            JArray [JString "v2/introduction";
                                    JString "v2/quickstart"])]])];
           JObject
             [("version", JString "1.0");
              ("groups",
               JArray [group "Getting Started"
                         ["v1/introduction"; "v1/quickstart"]])]]);
       ("tabs",
        JArray
          [JObject
             [("tab", JString "Documentation");
              ("groups",
               JArray
                 [JObject [("group", JString "Getting Started");
                           ("icon", JString "play");
                           ("pages",
                            JArray [JString "introduction";
                                    JString "quickstart";
                                    JString "installation"])];
                  JObject [("group", JString "Advanced");
                           ("icon", JString "cog");
                           ("pages",
                            JArray [JString "advanced/configuration";
                                    JString "advanced/customization"])]])];
           JObject
             [("tab", JString "API Reference");
              ("menu",
               JArray
                 [JObject [("item", JString "Authentication");
                           ("icon", JString "key");
                           ("pages",
                            JArray [JString "api/auth/overview";
                                    JString "api/auth/tokens"])];
                  JObject [("item", JString "Endpoints");
                           ("icon", JString "globe");
                           ("groups",
                            JArray [group "Users"
                                      ["GET /users"; "POST /users";
                                       "DELETE /users/{id}"]])]])]]);
       ("anchors",
        JArray
          [JObject [("anchor", JString "Help Center");
                    ("icon", JString "question-mark-circle");
                    ("pages",
                     JArray [JString "help/faq";
                             JString "help/troubleshooting"])]]);
       ("dropdowns",
        JArray
          [JObject [("dropdown", JString "Resources");
                    ("icon", JString "book-open");
                    ("pages",
                     JArray [JString "resources/examples";
                             JString "resources/templates"])]])]);
   ("integrations",
    JObject [("ga4", JObject [("measurementId", JString "G-XXXXXXX")])])].

(** *** The documents the component loads itself *)

(** [defaultConfig], which the component loads when it mounts. *)
Definition defaultConfig : list (string * json) :=
  [("$schema", JString "https://mintlify.com/docs.json");
   ("theme", JString "mint");
   ("name", JString "My Documentation");
   ("colors", JObject [("primary", JString "#0066cc")]);
   ("navigation",
    JObject
      [("groups",
        JArray
          [JObject [("group", JString "Getting Started");
                    ("pages",
                     JArray [JString "introduction"; JString "quickstart"])];
           JObject [("group", JString "API Reference");
                    ("pages",
                     JArray [JString "api/authentication";
                             JString "api/users"])]])])].

(** The [minimal] example of [loadExample]. *)
Definition minimal_example : list (string * json) :=
  [("$schema", JString "https://mintlify.com/docs.json");
   ("theme", JString "mint");
   ("name", JString "Minimal Docs");
   ("colors", JObject [("primary", JString "#10B981")]);
   ("navigation",
    JObject
      [("pages", JArray [JString "introduction"; JString "quickstart"])])].

(** The [api] example of [loadExample]. *)
Definition api_example : list (string * json) :=
  [("$schema", JString "https://mintlify.com/docs.json");
   ("theme", JString "willow");
   ("name", JString "API Documentation");
   ("description",
    JString "RESTful API documentation with OpenAPI integration");
   ("colors", JObject [("primary", JString "#8B5CF6")]);
   ("navigation",
    JObject
      [("anchors",
        JArray
          [JObject
             [("anchor", JString "API Reference");
              ("icon", JString "code");
              ("groups",
               JArray
                 [JObject [("group", JString "Authentication");
                           ("icon", JString "key");
                           ("pages",
                            JArray [JString "auth/overview";
                                    JString "auth/api-keys";
                                    JString "auth/oauth"])];
                  JObject [("group", JString "Core API");
                           ("icon", JString "server");
                           ("openapi", JString "/openapi.json");
                           ("pages",
                            JArray [JString "GET /users";
                                    JString "POST /users";
                                    JString "PUT /users/{id}";
                                    JString "DELETE /users/{id}";
                                    JString "GET /projects";
                                    JString "POST /projects"])]])];
           JObject
             [("anchor", JString "SDKs");
              ("icon", JString "code");
              ("groups",
               JArray
                 [JObject [("group", JString "Client Libraries");
                           ("pages",
                            JArray [JString "sdks/javascript";
                                    JString "sdks/python";
                                    JString "sdks/go"])]])]])])].

(** The [multilingual] example of [loadExample]. *)
Definition multilingual_example : list (string * json) :=
  let language code group first second :=
    JObject
      [("language", JString code);
       ("groups",
        JArray [JObject [("group", JString group);
                         ("pages", JArray [JString first; JString second])]])]
  in
  [("$schema", JString "https://mintlify.com/docs.json");
   ("theme", JString "palm");
   ("name", JString "Multilingual Documentation");
   ("description",
    JString "Documentation site with multiple language support");
   ("colors", JObject [("primary", JString "#059669")]);
   ("navigation",
    JObject
      [("languages",
        JArray
          [language "en" "Getting Started" "en/introduction" "en/quickstart";
           language "es" "Comenzando" "es/introduccion" "es/inicio-rapido";
           language "fr" "Commencer" "fr/introduction"
             "fr/demarrage-rapide"])])].

(** The table [examples] of [loadExample]. *)
Definition examples : list (string * json) :=
  [("minimal", JObject minimal_example);
   ("complete", JObject complete_example);
   ("api", JObject api_example);
   ("multilingual", JObject multilingual_example)].

Section LoadExample.

(** [JSON.stringify(value, null, 2)] *)
Variable JSON_stringify : value -> string.

(** The effect of the first render: the text that
    [setJsonInput(JSON.stringify(defaultConfig, null, 2))] sets. *)
Definition initial_text : string := JSON_stringify (JObject defaultConfig).

(** [loadExample(example)]: the text it gives [setJsonInput]. The
    buttons call it with the four keys of the table. *)
Definition loadExample (example : string) : string :=
  JSON_stringify (own_property example examples).

End LoadExample.

(** A document with one language, whose [language] is the number [5]. *)
Definition numbered_language : json :=
  JObject
    [("theme", JString "mint");
     ("name", JString "X");
     ("colors", JObject [("primary", JString "#0066cc")]);
     ("navigation",
      JObject
        [("languages",
          JArray
            [JObject
               [("language",
                 JNumber {| number_is_zero := false; number_text := "5" |})]])])].

(** The passing document with [null] for its page. *)
Definition null_page : json :=
  JObject
    [("theme", JString "mint");
     ("name", JString "X");
     ("colors", JObject [("primary", JString "#0066cc")]);
     ("navigation",
      JObject [("groups",
                JArray [JObject [("group", JString "G");
                                 ("pages", JArray [JNull])]])])].

(** A document whose logo links to a path and whose favicon is a GIF. *)
Definition relative_assets : list (string * json) :=
  [("logo", JObject [("href", JString "/home")]);
   ("favicon", JString "/favicon.gif")].

(** A [JSON.parse] that accepts no text, with the message of V8. *)
Definition rejecting_parser (text : string) : completion json :=
  Throw (SyntaxError "Unexpected token").

(** ** Vocabulary of the properties *)

#[local] Open Scope list_scope.

(** A check is handed the arrays and pushes to them. [appends empty add f]
    says that [f] reads nothing off the arrays it is handed: what it
    pushes is what it pushes to empty arrays, after what was there. *)
Definition appends {S : Type} (empty : S) (add : S -> S -> S)
  (f : S -> completion S) : Prop :=
  forall acc, f acc = bind (f empty) (fun out => Normal (add acc out)).

(** The two accumulators: one array, and the pair [errors], [warnings]. *)
Abbreviation appends1 := (appends (@nil string) (@app string)).

Definition add2 (a b : list string * list string)
  : list string * list string :=
  ((fst a ++ fst b)%list, (snd a ++ snd b)%list).

Abbreviation appends2 := (appends (@nil string, @nil string) add2).

(** The induction predicate for the scanner: it only appends, as a scan
    of [j] and as the callback on the item [j]. *)
Definition scanner_appends_at (j : json) : Prop :=
  (forall context,
     appends1 (fun w => Sandbox.checkNavigationPaths_json j w context))
  /\ (forall context index, appends1 (Sandbox.scan_item context j index)).

(** A loop over an array pushes for its entries in index order. *)
Definition in_index_order
  (cb : json -> nat -> list string -> completion (list string)) : Prop :=
  forall before after,
    Array_forEach (JArray (before ++ after)) cb [] =
    (first <- forEachFrom cb before 0 [] ;;
     rest <- forEachFrom cb after (List.length before) [] ;;
     Normal (first ++ rest)).

(** What the [theme] check pushes, [shown] being the theme as a template
    literal renders it. *)
Definition theme_errors (theme : value) (shown : string) : list string :=
  if ToBoolean theme then
    if Array_includes validThemes theme then [] else [theme_invalid shown]
  else [theme_required].

(** What the [name] check pushes. *)
Definition name_errors (name : value) : list string :=
  if ToBoolean name then [] else [name_required].

Definition is_object (j : json) : bool :=
  match j with
  | JObject _ => true
  | _ => false
  end.

Definition four_required : list string :=
  [theme_required; name_required; primary_required; navigation_required].

Definition four_hints : list string :=
  [Sandbox.schema_hint; Sandbox.description_hint; Sandbox.favicon_hint;
   Sandbox.logo_hint].

(** ** Documents of the shapes the validator assumes

    A string where the current validator calls a string method or renders
    a name, an array of nodes where it loops, an object where it reads an
    entry; every field may be absent. These are the shapes of the
    specification's [ConfigDocument] but for [favicon], which the data
    model also allows to be an object of variants and the current
    validator takes for a string. *)

Definition text_or_absent (v : value) : bool :=
  match v with
  | Undefined | Json (JString _) => true
  | _ => false
  end.

(** A navigation node: a page path, or an object whose names are strings
    and whose [pages], [groups] and [menu] are arrays of nodes. *)
Fixpoint node_ok (j : json) : bool :=
  match j with
  | JString _ => true
  | JObject fields =>
      let nodes (v : json) :=
        match v with
        | JArray items => forallb node_ok items
        | _ => false
        end in
      forallb (fun k => text_or_absent (own_property k fields))
        ["group"; "item"; "tab"; "anchor"; "dropdown"]%string
      && with_property "pages" nodes true fields
      && with_property "groups" nodes true fields
      && with_property "menu" nodes true fields
  | _ => false
  end.

(** An absent field, or an array whose entries satisfy [entry_ok]. *)
Definition entries_or_absent (entry_ok : json -> bool) (v : value) : bool :=
  match v with
  | Undefined => true
  | Json (JArray items) => forallb entry_ok items
  | _ => false
  end.

(** An absent field, or an object whose fields satisfy [fields_ok]. *)
Definition object_or_absent (fields_ok : list (string * json) -> bool)
  (v : value) : bool :=
  match v with
  | Undefined => true
  | Json (JObject fields) => fields_ok fields
  | _ => false
  end.

Definition texts (keys : list string) (fields : list (string * json))
  : bool :=
  forallb (fun k => text_or_absent (own_property k fields)) keys.

Definition node_arrays (keys : list string) (fields : list (string * json))
  : bool :=
  forallb (fun k => entries_or_absent node_ok (own_property k fields)) keys.

(** An entry of [navigation.versions] or [navigation.languages]. *)
Definition scope_ok (kind : string) (j : json) : bool :=
  object_or_absent
    (fun fields =>
       texts [kind] fields
       && node_arrays ["pages"; "groups"; "tabs"; "anchors"; "dropdowns"]%string
            fields)
    j.

(** An entry of [navigation.global.anchors]: an anchor node with a
    string [href]. *)
Definition global_anchor_ok (j : json) : bool :=
  node_ok j && object_or_absent (texts ["href"]%string) j.

Definition navigation_ok (fields : list (string * json)) : bool :=
  node_arrays ["pages"; "groups"; "tabs"; "anchors"; "dropdowns"]%string fields
  && entries_or_absent (scope_ok "version") (own_property "versions" fields)
  && entries_or_absent (scope_ok "language") (own_property "languages" fields)
  && object_or_absent
       (fun global =>
          entries_or_absent global_anchor_ok (own_property "anchors" global))
       (own_property "global" fields).

Definition logo_ok (v : value) : bool :=
  match v with
  | Json (JString _) => true
  | _ => object_or_absent (texts ["href"]%string) v
  end.

Definition integrations_ok (fields : list (string * json)) : bool :=
  object_or_absent (texts ["measurementId"]%string) (own_property "ga4" fields)
  && object_or_absent (texts ["containerId"]%string)
       (own_property "gtm" fields).

Definition document_ok (fields : list (string * json)) : bool :=
  texts ["theme"; "favicon"]%string fields
  && object_or_absent (texts ["primary"; "light"; "dark"]%string)
       (own_property "colors" fields)
  && object_or_absent navigation_ok (own_property "navigation" fields)
  && logo_ok (own_property "logo" fields)
  && object_or_absent integrations_ok (own_property "integrations" fields).

(** A piece of code returns: it does not throw. *)
Definition returns {A : Type} (c : completion A) : Prop :=
  exists a, c = Normal a.

(** The induction predicate for the scanner on nodes: the callback
    returns on a node, and a scan returns on an array of nodes. *)
Definition scanner_returns_at (j : json) : Prop :=
  (node_ok j = true ->
   forall context index warnings,
     returns (Sandbox.scan_item context j index warnings))
  /\ (forall items, j = JArray items -> forallb node_ok items = true ->
      forall context warnings,
        returns (Sandbox.checkNavigationPaths j warnings context)).

(** ** Vocabulary of the further properties *)

(** A warning of the scanner: it names a page or an [href] that has an
    [mcp] segment, under some context. *)
Definition reserved_warning (w : string) : Prop :=
  exists context path,
    includes (split "/" path) "mcp" = true
    /\ (w = Sandbox.reserved_page_warning context path
        \/ w = Sandbox.reserved_href_warning context path).

(** What a step of the scanner that returns [out] from [warnings] has
    done: it has added warnings about reserved paths. *)
Definition adds_reserved (warnings out : list string) : Prop :=
  exists added, out = warnings ++ added /\ Forall reserved_warning added.

(** The induction predicate for the warnings of the scanner. *)
Definition scans_soundly (j : json) : Prop :=
  (forall context warnings out,
     Sandbox.checkNavigationPaths_json j warnings context = Normal out ->
     adds_reserved warnings out)
  /\ (forall context index warnings out,
        Sandbox.scan_item context j index warnings = Normal out ->
        adds_reserved warnings out).

(** The warnings of the scanner for a path that the preview shows. *)
Definition path_warnings (context : string) (p : Preview.shown_path)
  : list string :=
  match p with
  | Preview.Page page =>
      if includes (split "/" page) "mcp"
      then [Sandbox.reserved_page_warning context page]
      else []
  | Preview.Href (Json (JString href)) =>
      if negb (startsWith href "http") && includes (split "/" href) "mcp"
      then [Sandbox.reserved_href_warning context href]
      else []
  | Preview.Href _ => []
  end.

Definition warnings_shown (context : string) (n : Preview.node)
  : list string :=
  flat_map (path_warnings context) (Preview.paths n).

(** The induction predicate: under [context], a scan of [j] and the
    callback on the item [j] add the warnings of the paths that the
    preview of [j] shows. *)
Definition scans_as_shown (context : string) (j : json) : Prop :=
  (forall warnings depth,
     Sandbox.checkNavigationPaths_json j warnings context
     = Normal (warnings
               ++ warnings_shown context
                    (Preview.renderNavigationItems_json j depth)))
  /\ (forall index warnings depth,
        Sandbox.scan_item context j index warnings
        = Normal (warnings
                  ++ warnings_shown context (Preview.render_item depth j index))).

(** The induction predicate for the indentation of the preview. *)
Definition renders_indented (j : json) : Prop :=
  (forall depth,
     Preview.indented depth (Preview.renderNavigationItems_json j depth)
     = true)
  /\ (forall depth index,
        Preview.indented depth (Preview.render_item depth j index) = true).

(** A piece of code throws. *)
Definition throws {A : Type} (c : completion A) : Prop :=
  exists e, c = Throw e.

(** Every [language] of [navigation.languages] that can be read is a
    string. *)
Definition language_is_string (language : json) : bool :=
  match Get language "language" with
  | Normal code => js_type_eqb (typeof code) TString
  | Throw _ => true
  end.

Definition languages_are_strings (config : value) : bool :=
  match navigation <- Get config "navigation" ;; Get navigation "languages" with
  | Normal (Json (JArray items)) => forallb language_is_string items
  | _ => true
  end.

(** An entry of [navigation.languages] with a truthy [language]. *)
Definition language_named (language : json) : Prop :=
  exists code, Get language "language" = Normal code /\ ToBoolean code = true.

(** A field that is falsy, or an array without [null]: what a loop that
    reads a property of every entry has returned on. *)
Definition entries_read (entries : value) : Prop :=
  ToBoolean entries = false
  \/ exists items, entries = Json (JArray items)
                   /\ Forall (fun entry => entry <> JNull) items.

(** What a run of [validateNavigation] without an error tells of the
    navigation: it is truthy, its properties can be read, the entries of
    [versions], [languages] and [global.anchors] are not [null], and
    every language is named. *)
Record navigation_valid (navigation : value) : Prop := {
  valid_truthy : ToBoolean navigation = true;
  valid_reads : forall key, returns (Get navigation key);
  valid_versions :
    forall versions,
      Get navigation "versions" = Normal versions -> entries_read versions;
  valid_languages :
    forall languages,
      Get navigation "languages" = Normal languages ->
      entries_read languages
      /\ forall items, languages = Json (JArray items) ->
                       Forall language_named items;
  valid_global :
    exists global anchors,
      Get navigation "global" = Normal global
      /\ OptionalGet global "anchors" = Normal anchors
      /\ entries_read anchors
}.

(** The pages of the groups on which [page.toString()] returns. *)
Definition page_prints (page : json) : bool :=
  match EarlierPreview.page_text page with
  | Normal _ => true
  | Throw _ => false
  end.

Definition group_prints (group : json) : bool :=
  match Get group "pages" with
  | Normal (Json (JArray pages)) => forallb page_prints pages
  | _ => true
  end.

Definition pages_print (config : value) : bool :=
  match navigation <- Get config "navigation" ;; Get navigation "groups" with
  | Normal (Json (JArray groups)) => forallb group_prints groups
  | _ => true
  end.

(** A group whose [pages] is an array. *)
Definition group_has_pages (group : json) : Prop :=
  exists pages, Get group "pages" = Normal (Json (JArray pages)).

(** What a run of the navigation block of an earlier validator without
    an error tells of the navigation. *)
Record legacy_navigation_valid (navigation : value) : Prop := {
  legacy_truthy : ToBoolean navigation = true;
  legacy_reads : forall key, returns (Get navigation key);
  legacy_tabs :
    forall tabs, Get navigation "tabs" = Normal tabs -> entries_read tabs;
  legacy_groups :
    forall groups,
      Get navigation "groups" = Normal groups ->
      entries_read groups
      /\ forall items, groups = Json (JArray items) ->
                       Forall group_has_pages items
}.

(** The callback of [config.navigation.groups.forEach] in the earlier
    validators, as [legacy_navigation] has it. *)
Definition legacy_group_entry (reserved : string -> option string)
  (group : json) (index : nat) (arrays : list string * list string)
  : completion (list string * list string) :=
  let '(errors, warnings) := arrays in
  errors <- Sandbox.group_entry group index errors ;;
  pages <- Get group "pages" ;;
  warnings <-
    (if ToBoolean pages then
       Array_forEach pages
         (fun page (_ : nat) warnings =>
            match page with
            | JString page =>
                match reserved page with
                | Some warning => Normal (push warnings warning)
                | None => Normal warnings
                end
            | _ => Normal warnings
            end)
         warnings
     else Normal warnings) ;;
  Normal (errors, warnings).

(** The states of the component: [rendered_with JSON_parse text c] when
    [c] is the state after the first render, [text] being [''], or after
    a later render with [jsonInput] equal to [text]. *)
Inductive rendered_with (JSON_parse : string -> completion json)
  : string -> Sandbox.component -> Prop :=
| first_render c :
    Sandbox.mount JSON_parse = Normal c -> rendered_with JSON_parse "" c
| later_render previous_text previous text c :
    rendered_with JSON_parse previous_text previous ->
    Sandbox.render JSON_parse previous text = Normal c ->
    rendered_with JSON_parse text c.

(** What the two cells hold after a render with [text]. *)
Definition memo_invariant (JSON_parse : string -> completion json)
  (text : string) (c : Sandbox.component) : Prop :=
  let cell := Sandbox.parsed_memo c in
  Sandbox.parsed_for cell = text
  /\ Sandbox.parsed_at cell < Sandbox.renders c
  /\ Sandbox.parsed_value cell = Sandbox.parsedConfig JSON_parse text
  /\ (Sandbox.parsed_value cell <> JNull ->
      Sandbox.validate_text JSON_parse text
      = Normal (Sandbox.result_memo c))
  /\ (Sandbox.parsed_value cell = JNull ->
      Sandbox.result_memo c = None
      \/ Sandbox.result_memo c = Some Sandbox.parse_error_result).

(** Two runs agree up to [R]: both return, with results that [R]
    relates, or both throw the same exception. *)
Definition agree {A B : Type} (R : A -> B -> Prop)
  (c : completion A) (d : completion B) : Prop :=
  match c, d with
  | Normal a, Normal b => R a b
  | Throw e, Throw e' => e = e'
  | _, _ => False
  end.

(** The arrays of two runs that hold the same errors. *)
Definition same_errors (a b : list string * list string) : Prop :=
  fst a = fst b.

(** [`Navigation group at index ${index} is missing 'group' property`] *)
Definition group_missing (index : nat) : string :=
  ("Navigation group at index " ++ index_text index
   ++ " is missing 'group' property")%string.

(** [`Navigation group '${group.group}' is missing 'pages' array`] *)
Definition pages_missing (name : string) : string :=
  ("Navigation group '" ++ name ++ "' is missing 'pages' array")%string.

(** [`Global anchor at index ${index} is missing 'anchor' property`] *)
Definition global_anchor_missing (index : nat) : string :=
  ("Global anchor at index " ++ index_text index
   ++ " is missing 'anchor' property")%string.

(** [`Global anchor '${anchor.anchor}' is missing 'href' property`] *)
Definition global_href_missing (name : string) : string :=
  ("Global anchor '" ++ name ++ "' is missing 'href' property")%string.

(** [`Global anchor '${anchor.anchor}' href must be an external URL
    starting with http/https`] *)
Definition global_href_relative (name : string) : string :=
  ("Global anchor '" ++ name
   ++ "' href must be an external URL starting with http/https")%string.

(** What the [href] check of a global anchor pushes, [shown] being the
    anchor's name as a template literal renders it. *)
Definition global_href_errors (shown : string) (href : value) : list string :=
  match href with
  | Json (JString href) =>
      if (href =? "")%string then [global_href_missing shown]
      else if startsWith href "http" then []
      else [global_href_relative shown]
  | _ => [global_href_missing shown]
  end.




(** The two hints of the first variant. *)
Definition first_hints : list string :=
  ["Consider adding '$schema': 'https://mintlify.com/docs.json' for better IDE support";
   "Consider adding 'description' for better SEO and AI indexing"]%string.

(** The arrays of entries that [validateNavigation] loops over: the six
    of [navigation], and [navigation.global?.anchors]. *)
Definition looped_entries (navigation entries : value) : Prop :=
  (exists key,
      In key ["groups"; "tabs"; "anchors"; "dropdowns"; "versions";
              "languages"]%string
      /\ Get navigation key = Normal entries)
  \/ (exists global,
        Get navigation "global" = Normal global
        /\ OptionalGet global "anchors" = Normal entries).

(** A navigation that holds groups and root pages and no other
    structure: the keys that only the current validator reads, and
    [tabs], which the variants read differently, are absent or falsy. *)
Definition groups_only (navigation : value) : Prop :=
  forall key,
    In key ["tabs"; "anchors"; "dropdowns"; "versions"; "languages";
            "global"]%string ->
    exists bound, Get navigation key = Normal bound /\ ToBoolean bound = false.

(** [{title}] of the block of an item. *)
Definition title_of (n : Preview.node) : value :=
  match n with
  | Preview.ItemBlock _ _ _ _ title _ _ _ _ _ => title
  | _ => Undefined
  end.

(** The scanner and the preview look for the name of an item in
    different orders. They find the same one when the item has a
    [group], or no [item] and one of [tab], [anchor] and [dropdown], or
    an [item] and none of these three. *)
Definition named_alike (fields : list (string * json)) : bool :=
  let truthy key := ToBoolean (own_property key fields) in
  truthy "group"
  || (if truthy "item"
      then negb (truthy "tab" || truthy "anchor" || truthy "dropdown")
      else truthy "tab" || truthy "anchor" || truthy "dropdown").

(** The warnings of [validateAssets]. *)
Definition logo_href_warning : string :=
  "Logo 'href' should be a complete URL starting with http:// or https://".

Definition favicon_warning : string :=
  "Favicon should typically be an .ico, .png, or .svg file".

(** What the check of [logo] pushes. *)
Definition logo_warnings (logo : value) : list string :=
  match logo with
  | Json (JObject fields) =>
      match own_property "href" fields with
      | Json (JString href) =>
          if negb (href =? "")%string && negb (absolute_url_re href)
          then [logo_href_warning]
          else []
      | _ => []
      end
  | _ => []
  end.

(** What the check of [favicon] pushes. *)
Definition favicon_warnings (favicon : value) : list string :=
  match favicon with
  | Json (JString name) =>
      if negb (name =? "")%string && negb (favicon_re name)
      then [favicon_warning]
      else []
  | _ => []
  end.

(** ** Induction on parsed values *)

Section JsonInduction.

Variable P : json -> Prop.
Hypothesis null_case : P JNull.
Hypothesis bool_case : forall b, P (JBool b).
Hypothesis number_case : forall n, P (JNumber n).
Hypothesis string_case : forall s, P (JString s).
Hypothesis array_case : forall items, Forall P items -> P (JArray items).
Hypothesis object_case :
  forall fields, Forall (fun kv => P (snd kv)) fields -> P (JObject fields).

Fixpoint json_ind (j : json) : P j :=
  match j with
  | JNull => null_case
  | JBool b => bool_case b
  | JNumber n => number_case n
  | JString s => string_case s
  | JArray items =>
      array_case items
        ((fix all (l : list json) : Forall P l :=
            match l with
            | [] => Forall_nil P
            | x :: rest => Forall_cons x (json_ind x) (all rest)
            end) items)
  | JObject fields =>
      object_case fields
        ((fix all (l : list (string * json))
            : Forall (fun kv => P (snd kv)) l :=
            match l with
            | [] => Forall_nil _
            | kv :: rest => Forall_cons kv (json_ind (snd kv)) (all rest)
            end) fields)
  end.

End JsonInduction.

(** * Properties *)


(** ** The completion monad *)

Lemma bind_Normal {A B : Type} (a : A) (k : A -> completion B) :
  bind (Normal a) k = k a.
Proof. reflexivity. Qed.

Lemma bind_ret {A : Type} (c : completion A) :
  bind c (fun a => Normal a) = c.
Proof. destruct c; reflexivity. Qed.

Lemma bind_assoc {A B C : Type} (c : completion A)
  (f : A -> completion B) (g : B -> completion C) :
  bind (bind c f) g = bind c (fun a => bind (f a) g).
Proof. destruct c; reflexivity. Qed.

Lemma bind_inv {A B : Type} (c : completion A) (k : A -> completion B) b :
  bind c k = Normal b -> exists a, c = Normal a /\ k a = Normal b.
Proof. destruct c as [a|e]; simpl; [eauto | discriminate]. Qed.

(** ** Property reads *)

Lemma with_property_own {A : Type} k (f : json -> A) d fields :
  with_property k f d fields =
  match own_property k fields with
  | Json v => f v
  | _ => d
  end.
Proof.
  induction fields as [|[k' v] rest IH]; simpl; [reflexivity|].
  destruct (String.eqb k' k); [reflexivity | exact IH].
Qed.

Lemma own_property_shape k fields :
  own_property k fields = Undefined \/ exists v, own_property k fields = Json v.
Proof.
  induction fields as [|[k' v] rest IH]; simpl; [now left|].
  destruct (String.eqb k' k); [right; eauto | exact IH].
Qed.

(** ** The loop *)

Lemma forEachFrom_app {X S : Type} (cb : X -> nat -> S -> completion S)
  before after index s :
  forEachFrom cb (before ++ after) index s =
  bind (forEachFrom cb before index s)
       (forEachFrom cb after (index + List.length before)).
Proof.
  revert index s.
  induction before as [|x before IH]; intros index s; simpl.
  - now rewrite Nat.add_0_r.
  - destruct (cb x index s) as [s'|e]; simpl; [|reflexivity].
    rewrite IH. now rewrite Nat.add_succ_comm.
Qed.

Lemma forEachFrom_ext {X S : Type} (cb cb' : X -> nat -> S -> completion S)
  items index s :
  Forall (fun x => forall i s, cb x i s = cb' x i s) items ->
  forEachFrom cb items index s = forEachFrom cb' items index s.
Proof.
  intros H. revert index s.
  induction H as [|x rest Hx _ IH]; intros index s; simpl; [reflexivity|].
  rewrite Hx. destruct (cb' x index s); simpl; [apply IH | reflexivity].
Qed.

Lemma bind_ext {A B : Type} (c : completion A) (k k' : A -> completion B) :
  (forall a, k a = k' a) -> bind c k = bind c k'.
Proof. intros H. destruct c; simpl; [apply H | reflexivity]. Qed.

Lemma bind_cong {A B : Type} (c c' : completion A)
  (k k' : A -> completion B) :
  c = c' -> (forall a, k a = k' a) -> bind c k = bind c' k'.
Proof. intros <-. apply bind_ext. Qed.

(** ** Checks that only append

    A check is handed the arrays and pushes to them. [appends f] says that
    [f] reads nothing off the arrays it is handed: what it pushes is what
    it pushes to empty arrays, after what was there. *)

Section Accumulator.

Context {S : Type} (empty : S) (add : S -> S -> S).
#[local] Abbreviation appends := (appends empty add).
Hypothesis add_assoc : forall a b c, add a (add b c) = add (add a b) c.
Hypothesis add_empty_r : forall a, add a empty = a.
Hypothesis add_empty_l : forall a, add empty a = a.

Lemma appends_ret : appends (fun acc => Normal acc).
Proof using add_empty_r. intros acc. simpl. now rewrite add_empty_r. Qed.

Lemma appends_add x : appends (fun acc => Normal (add acc x)).
Proof using add_empty_l. intros acc. simpl. now rewrite add_empty_l. Qed.

Lemma appends_throw e : appends (fun _ => Throw e).
Proof. intros acc. reflexivity. Qed.

Lemma appends_bind (f g : S -> completion S) :
  appends f -> appends g -> appends (fun acc => bind (f acc) g).
Proof using add_assoc.
  intros Hf Hg acc. rewrite (Hf acc), !bind_assoc.
  apply bind_ext. intros out. simpl.
  rewrite (Hg (add acc out)), (Hg out), bind_assoc.
  apply bind_ext. intros out'. simpl. now rewrite add_assoc.
Qed.

Lemma appends_read {A : Type} (c : completion A) (f : A -> S -> completion S) :
  (forall a, appends (f a)) -> appends (fun acc => bind c (fun a => f a acc)).
Proof.
  intros Hf acc. destruct c as [a|e]; simpl; [apply Hf | reflexivity].
Qed.

Lemma appends_if (b : bool) (f g : S -> completion S) :
  appends f -> appends g -> appends (fun acc => if b then f acc else g acc).
Proof. destruct b; auto. Qed.

Lemma appends_ext (f g : S -> completion S) :
  (forall acc, f acc = g acc) -> appends g -> appends f.
Proof. intros E Hg acc. now rewrite !E. Qed.

Lemma appends_forEachFrom {X : Type} (cb : X -> nat -> S -> completion S)
  items :
  Forall (fun x => forall i, appends (cb x i)) items ->
  forall index, appends (forEachFrom cb items index).
Proof using add_assoc add_empty_r.
  induction 1 as [|x rest Hx _ IH]; intros index.
  - apply appends_ret.
  - change (appends (fun acc => bind (cb x index acc)
                                  (forEachFrom cb rest (Datatypes.S index)))).
    apply appends_bind; [apply Hx | apply IH].
Qed.

(** What an appending check returns extends what it was handed. *)
Lemma appends_extends (f : S -> completion S) acc acc' :
  appends f -> f acc = Normal acc' ->
  exists out, f empty = Normal out /\ acc' = add acc out.
Proof.
  intros Hf E. rewrite (Hf acc) in E.
  destruct (f empty) as [out|e]; simpl in E; [|discriminate].
  exists out. split; [reflexivity | congruence].
Qed.

End Accumulator.


Lemma add2_assoc a b c : add2 a (add2 b c) = add2 (add2 a b) c.
Proof. unfold add2; simpl. now rewrite !app_assoc. Qed.

Lemma add2_empty_r a : add2 a ([], []) = a.
Proof. destruct a; unfold add2; simpl. now rewrite !app_nil_r. Qed.

Lemma add2_empty_l a : add2 ([], []) a = a.
Proof. now destruct a. Qed.

(** ** The path scanner *)

Import Sandbox.

Lemma own_property_Forall (P : json -> Prop) k fields v :
  Forall (fun kv => P (snd kv)) fields ->
  own_property k fields = Json v -> P v.
Proof.
  induction 1 as [|[k' v'] rest Hv _ IH]; simpl; [discriminate|].
  destruct (String.eqb k' k); [|exact IH].
  intros E. injection E as <-. exact Hv.
Qed.

(** The structural form of the scanner is the loop over [scan_item]. *)
Lemma checkNavigationPaths_forEach items warnings context :
  checkNavigationPaths (JArray items) warnings context =
  forEachFrom (scan_item context) items 0 warnings.
Proof.
  simpl. apply forEachFrom_ext.
  apply Forall_forall. intros item _ index w.
  destruct item as [| | | |l|fields]; try reflexivity.
  unfold scan_item, scan_children. rewrite bind_assoc.
  apply bind_cong; [|intros w1; rewrite bind_assoc; apply bind_cong;
                     [|intros w2; apply bind_cong; [|reflexivity]]];
    rewrite with_property_own;
    match goal with
    | |- context [own_property ?k fields] =>
        destruct (own_property_shape k fields) as [E|[v E]];
        rewrite E; reflexivity
    end.
Qed.

Create HintDb frame.

#[local] Hint Resolve app_assoc app_nil_r app_nil_l
  add2_assoc add2_empty_r add2_empty_l : frame.

Ltac frame_step :=
  first
    [ apply appends_ret; solve [auto with frame]
    | apply appends_throw
    | apply (appends_add (@nil string) (@app string)); solve [auto with frame]
    | apply appends_bind; [solve [auto with frame] | |]
    | apply appends_read; intros ?
    | apply appends_if ].

Lemma checkNavigationPaths_value_appends items context :
  (forall j, items = Json j ->
     appends1 (fun w => checkNavigationPaths_json j w context)) ->
  appends1 (fun w => checkNavigationPaths items w context).
Proof.
  intros H. destruct items as [|j|n]; simpl.
  - frame_step.
  - now apply H.
  - frame_step.
Qed.


Lemma scanner_appends j : scanner_appends_at j.
Proof.
  induction j as [| | | |items IH|fields IH] using json_ind;
    (split; [intros context | intros context index]);
    try (simpl; repeat frame_step; fail).
  - (* an array of items *)
    apply (appends_ext _ _ _ (forEachFrom (scan_item context) items 0)).
    + intros acc. apply (checkNavigationPaths_forEach items acc context).
    + apply appends_forEachFrom; auto with frame.
      apply Forall_impl with (2 := IH). intros item [_ H] i. apply H.
  - (* an object item *)
    assert (sub : forall k context',
      appends1 (fun w => checkNavigationPaths (own_property k fields) w context')).
    { intros k context'. apply checkNavigationPaths_value_appends.
      intros v E.
      exact (proj1 (own_property_Forall scanner_appends_at k fields v IH E)
               context'). }
    unfold scan_item, scan_children.
    apply appends_bind; [auto with frame| |].
    + apply appends_bind; [auto with frame| |].
      * apply appends_if; [|frame_step].
        apply appends_read. intros context'. apply sub.
      * apply appends_bind; [auto with frame| |].
        -- apply appends_if; [apply sub | frame_step].
        -- apply appends_if; [|frame_step].
           apply appends_read. intros context'. apply sub.
    + intros acc. unfold check_href, push.
      destruct (own_property "href" fields) as [|[| | |href| |]|]; simpl;
        try now rewrite app_nil_r.
      destruct (negb (href =? "")), (negb (startsWith href "http")),
        (includes (split "/" href) "mcp"); simpl;
        now rewrite ?app_nil_r.
Qed.

Lemma checkNavigationPaths_appends items context :
  appends1 (fun w => checkNavigationPaths items w context).
Proof.
  apply checkNavigationPaths_value_appends.
  intros j _. apply scanner_appends.
Qed.

(** ** Every check only appends *)

Lemma validateRequiredFields_appends config :
  appends1 (validateRequiredFields config).
Proof. unfold validateRequiredFields. repeat frame_step. Qed.

Lemma color_loop_appends colors :
  appends1
    (forEachFrom
       (fun mode (_ : nat) errors =>
          color <- Get colors mode ;;
          malformed <- malformed_color color ;;
          if malformed then Normal (push errors (color_malformed mode))
          else Normal errors)
       ["light"; "dark"] 0).
Proof.
  apply appends_forEachFrom; auto with frame.
  apply Forall_forall. intros mode _ i. repeat frame_step.
Qed.

Lemma validateColors_appends config : appends1 (validateColors config).
Proof.
  unfold validateColors. do 2 frame_step.
  frame_step; [repeat frame_step|].
  apply appends_if; [apply color_loop_appends | frame_step].
Qed.

Lemma group_entry_appends group index : appends1 (group_entry group index).
Proof. unfold group_entry. repeat frame_step. Qed.

Lemma Array_forEach_appends v cb :
  (forall item index, appends1 (cb item index)) ->
  appends1 (Array_forEach v cb).
Proof.
  intros H. destruct v as [|[| | | |items|]|]; simpl; try frame_step.
  apply appends_forEachFrom; auto with frame.
  apply Forall_forall. intros item _. apply H.
Qed.

Lemma menu_entry_appends tab item index :
  appends1 (menu_entry tab item index).
Proof. unfold menu_entry. repeat frame_step. Qed.

Lemma tab_entry_appends tab index : appends1 (tab_entry tab index).
Proof.
  unfold tab_entry. frame_step. frame_step; [repeat frame_step|].
  frame_step. apply appends_if; [|frame_step].
  apply Array_forEach_appends. intros. apply menu_entry_appends.
Qed.

Lemma named_entry_appends label kind entry index :
  appends1 (named_entry label kind entry index).
Proof. unfold named_entry. repeat frame_step. Qed.

Lemma global_anchor_entry_appends anchor index :
  appends1 (global_anchor_entry anchor index).
Proof. unfold global_anchor_entry. repeat frame_step. Qed.

Lemma legacy_tab_entry_appends tab index :
  appends1 (legacy_tab_entry tab index).
Proof. unfold legacy_tab_entry. repeat frame_step. Qed.

Lemma scan_scope_appends label kind owner key :
  appends1 (scan_scope label kind owner key).
Proof.
  unfold scan_scope. frame_step. apply appends_if; [|frame_step].
  do 2 frame_step. apply checkNavigationPaths_appends.
Qed.

Lemma scan_scopes_appends label kind owner :
  appends1 (scan_scopes label kind owner).
Proof.
  unfold scan_scopes.
  repeat (apply appends_bind;
          [auto with frame | apply scan_scope_appends |]).
  apply scan_scope_appends.
Qed.

Lemma validateAssets_appends config : appends1 (validateAssets config).
Proof. unfold validateAssets. repeat frame_step. Qed.

Lemma check_integration_appends service key re message :
  appends1 (check_integration service key re message).
Proof. unfold check_integration. repeat frame_step. Qed.

Lemma validateIntegrations_appends config :
  appends1 (validateIntegrations config).
Proof.
  unfold validateIntegrations. frame_step. apply appends_if; [frame_step|].
  frame_step. apply appends_bind;
    [auto with frame | apply check_integration_appends |].
  frame_step. apply check_integration_appends.
Qed.

Lemma suggest_appends config key message :
  appends1 (suggest config key message).
Proof. unfold suggest. repeat frame_step. Qed.

Lemma validateBestPractices_appends config :
  appends1 (validateBestPractices config).
Proof.
  unfold validateBestPractices.
  repeat (apply appends_bind; [auto with frame | apply suggest_appends |]).
  apply suggest_appends.
Qed.

(** *** Checks on both arrays *)

Lemma appends2_unpair
  (body : list string -> list string
          -> completion (list string * list string)) :
  appends2 (fun arrays => body (fst arrays) (snd arrays)) ->
  appends2 (fun arrays => let '(errors, warnings) := arrays in
                          body errors warnings).
Proof. apply appends_ext. now intros [e w]. Qed.

Lemma appends2_both (f g : list string -> completion (list string)) :
  appends1 f -> appends1 g ->
  appends2 (fun arrays =>
              errors <- f (fst arrays) ;;
              warnings <- g (snd arrays) ;;
              Normal (errors, warnings)).
Proof.
  intros Hf Hg [e w]. simpl. rewrite (Hf e), (Hg w).
  destruct (f []) as [e'|]; simpl; [|reflexivity].
  destruct (g []) as [w'|]; reflexivity.
Qed.

Lemma appends2_warnings_then (g : list string -> completion (list string))
  (rest : list string -> list string
          -> completion (list string * list string)) :
  appends1 g ->
  appends2 (fun arrays => rest (fst arrays) (snd arrays)) ->
  appends2 (fun arrays =>
              warnings <- g (snd arrays) ;; rest (fst arrays) warnings).
Proof.
  intros Hg Hrest [e w]. simpl. rewrite (Hg w).
  destruct (g []) as [w'|]; simpl; [|reflexivity].
  pose proof (Hrest (e, w ++ w')%list) as H1.
  pose proof (Hrest ([], w')) as H2. simpl in H1, H2.
  rewrite H1, H2, bind_assoc. apply bind_ext. intros [e'' w'']. simpl.
  unfold add2. simpl. now rewrite app_assoc.
Qed.

Lemma Array_forEach_appends2 v cb :
  (forall item index, appends2 (cb item index)) ->
  appends2 (Array_forEach v cb).
Proof.
  intros H. destruct v as [|[| | | |items|]|]; simpl;
    try apply appends_throw.
  apply appends_forEachFrom; auto with frame.
  apply Forall_forall. intros item _. apply H.
Qed.

Lemma version_entry_appends version index :
  appends2 (version_entry version index).
Proof.
  apply appends2_unpair.
  apply (appends2_both (named_entry "version" "version" version index)
           (scan_scopes "Version" "version" version)).
  - apply named_entry_appends.
  - apply scan_scopes_appends.
Qed.

Lemma language_entry_appends language index :
  appends2 (language_entry language index).
Proof.
  unfold language_entry. apply appends2_unpair. simpl.
  apply appends_read. intros code.
  apply appends_bind; [auto with frame| |].
  - intros [e w]. unfold push, add2.
    destruct (negb (ToBoolean code)); cbn [bind fst snd app];
      [now rewrite app_nil_r|].
    destruct (negb (Array_includes validLanguages code));
      cbn [bind fst snd app]; [|now rewrite !app_nil_r].
    destruct (ToString code); cbn [bind fst snd app];
      [now rewrite app_nil_r | reflexivity].
  - apply appends2_unpair.
    apply (appends_ext _ _ _
      (fun arrays => errors <- Normal (fst arrays) ;;
                     warnings <- scan_scopes "Language" "language" language
                                   (snd arrays) ;;
                     Normal (errors, warnings))).
    + reflexivity.
    + apply (appends2_both (fun e => Normal e)); [apply appends_ret|];
        auto with frame. apply scan_scopes_appends.
Qed.

Lemma validate_entries_appends entries cb context :
  (forall item index, appends1 (cb item index)) ->
  appends2 (fun arrays =>
              validate_entries entries cb context (fst arrays) (snd arrays)).
Proof.
  intros H. unfold validate_entries.
  apply appends_if.
  - apply (appends2_both (Array_forEach entries cb)
             (fun w => checkNavigationPaths entries w context)).
    + now apply Array_forEach_appends.
    + apply checkNavigationPaths_appends.
  - intros [e w]. unfold add2. simpl. now rewrite !app_nil_r.
Qed.

Lemma validateNavigation_appends config :
  appends2 (fun arrays => validateNavigation config (fst arrays) (snd arrays)).
Proof.
  unfold validateNavigation.
  apply appends_read. intros navigation.
  apply appends_if.
  { intros [e w]. unfold push, add2. cbn [bind fst snd app].
    now rewrite app_nil_r. }
  apply appends_read. intros pages.
  match goal with
  | |- appends _ _ (fun arrays => bind _ (fun w => @?rest arrays w)) =>
      apply (appends2_warnings_then
               (fun w => if ToBoolean pages
                         then checkNavigationPaths pages w "Root navigation"
                         else Normal w)
               (fun e w => rest (e, []) w))
  end.
  { apply appends_if; [apply checkNavigationPaths_appends | frame_step]. }
  do 4 (apply appends_read; intros ?;
        apply appends_bind;
        [ auto with frame
        | apply validate_entries_appends;
          auto using group_entry_appends, tab_entry_appends,
            named_entry_appends
        | apply appends2_unpair ]).
  do 2 (apply appends_read; intros ?;
        apply appends_bind;
        [ auto with frame
        | match goal with
          | |- appends _ _
                 (fun _ => if _ then Array_forEach ?entries ?cb _ else _) =>
              apply (appends_ext _ _ _
                       (fun arrays => if ToBoolean entries
                                      then Array_forEach entries cb arrays
                                      else Normal arrays))
          end;
          [ now intros [e w]
          | apply appends_if;
            [ apply Array_forEach_appends2;
              auto using version_entry_appends, language_entry_appends
            | apply appends_ret; auto with frame ] ]
        | apply appends2_unpair ]).
  do 2 (apply appends_read; intros ?).
  apply validate_entries_appends, global_anchor_entry_appends.
Qed.

(** ** The order of the checks *)

(** [validateDocsJson] is its six checks, each run on empty arrays, with
    what they push put together in the order the checks are written. *)
Lemma validateDocsJson_in_order config :
  validateDocsJson config =
  (required <- validateRequiredFields config [] ;;
   colors <- validateColors config [] ;;
   '(navigation_errors, navigation_warnings) <-
     validateNavigation config [] [] ;;
   assets <- validateAssets config [] ;;
   integrations <- validateIntegrations config [] ;;
   practices <- validateBestPractices config [] ;;
   Normal (result_of (required ++ colors ++ navigation_errors)
             (navigation_warnings ++ assets ++ integrations ++ practices))).
Proof.
  unfold validateDocsJson.
  destruct (validateRequiredFields config []) as [e1|]; [|reflexivity].
  cbn [bind]. rewrite (validateColors_appends config e1).
  destruct (validateColors config []) as [e2|]; [|reflexivity].
  cbn [bind].
  pose proof (validateNavigation_appends config (e1 ++ e2, [])%list) as H.
  cbn [fst snd] in H. rewrite H. clear H.
  destruct (validateNavigation config [] []) as [[e3 w3]|]; [|reflexivity].
  cbn [bind add2 fst snd app].
  rewrite (validateAssets_appends config w3).
  destruct (validateAssets config []) as [w4|]; [|reflexivity].
  cbn [bind]. rewrite (validateIntegrations_appends config (w3 ++ w4)).
  destruct (validateIntegrations config []) as [w5|]; [|reflexivity].
  cbn [bind].
  rewrite (validateBestPractices_appends config ((w3 ++ w4) ++ w5)).
  destruct (validateBestPractices config []) as [w6|]; [|reflexivity].
  cbn [bind]. now rewrite <- !app_assoc.
Qed.

(** A loop over an array pushes for its entries in index order. *)
Lemma forEach_in_index_order
  (cb : json -> nat -> list string -> completion (list string))
  before after :
  (forall item index, appends1 (cb item index)) ->
  Array_forEach (JArray (before ++ after)) cb [] =
  (first <- forEachFrom cb before 0 [] ;;
   rest <- forEachFrom cb after (List.length before) [] ;;
   Normal (first ++ rest)).
Proof.
  intros H. simpl. rewrite forEachFrom_app. apply bind_ext. intros first.
  simpl. apply appends_forEachFrom; auto with frame.
  apply Forall_forall. intros item _. apply H.
Qed.


(** The scanner's callback ignores the index. *)
Lemma scan_loop_index context items m n warnings :
  forEachFrom (scan_item context) items m warnings =
  forEachFrom (scan_item context) items n warnings.
Proof.
  revert m n warnings.
  induction items as [|item items IH]; intros m n warnings; [reflexivity|].
  simpl. apply bind_ext. intros scanned. apply IH.
Qed.

(** The scanner walks an array in index order, each item after the ones
    before it. *)
Lemma checkNavigationPaths_app before after warnings context :
  checkNavigationPaths (JArray (before ++ after)) warnings context =
  (scanned <- checkNavigationPaths (JArray before) warnings context ;;
   checkNavigationPaths (JArray after) scanned context).
Proof.
  rewrite !checkNavigationPaths_forEach, forEachFrom_app.
  apply bind_ext. intros scanned.
  rewrite checkNavigationPaths_forEach. apply scan_loop_index.
Qed.

(** ** The validator returns on documents of the assumed shapes *)

Lemma returns_Normal {A : Type} (a : A) : returns (Normal a).
Proof. now exists a. Qed.

Lemma returns_bind {A B : Type} (c : completion A) (k : A -> completion B) :
  returns c -> (forall a, returns (k a)) -> returns (bind c k).
Proof. intros [a ->] Hk. apply Hk. Qed.

Lemma returns_if {A : Type} (b : bool) (c d : completion A) :
  (b = true -> returns c) -> (b = false -> returns d) ->
  returns (if b then c else d).
Proof. destruct b; auto. Qed.

Lemma forEachFrom_returns {X S : Type}
  (cb : X -> nat -> S -> completion S) items :
  Forall (fun x => forall index s, returns (cb x index s)) items ->
  forall index s, returns (forEachFrom cb items index s).
Proof.
  induction 1 as [|x rest Hx _ IH]; intros index s; simpl.
  - apply returns_Normal.
  - apply returns_bind; [apply Hx | intros s'; apply IH].
Qed.

Lemma ToString_text v :
  text_or_absent v = true -> returns (ToString v).
Proof.
  destruct v as [|[| | |s| |]|]; try discriminate; intros _;
    apply returns_Normal.
Qed.

Lemma texts_own keys fields k :
  texts keys fields = true -> In k keys ->
  text_or_absent (own_property k fields) = true.
Proof.
  unfold texts. rewrite forallb_forall. intros H Hin. now apply H.
Qed.

Lemma or_else_text a b :
  text_or_absent a = true -> text_or_absent b = true ->
  text_or_absent (or_else a b) = true.
Proof. intros Ha Hb. unfold or_else. now destruct (ToBoolean a). Qed.

Lemma Get_object fields k :
  Get (JObject fields) k = Normal (own_property k fields).
Proof. reflexivity. Qed.

Ltac returns_step :=
  first
    [ apply returns_Normal
    | rewrite Get_object
    | apply returns_bind; [|intros ?]
    | apply returns_if; intros ? ].

Lemma scanner_returns j : scanner_returns_at j.
Proof.
  induction j as [| | | |items IH|fields IH] using json_ind;
    (split; [intros Hok context index warnings
            | intros items' E Hall context warnings]);
    try discriminate; try (simpl; repeat returns_step; fail).
  - (* an array of nodes *)
    injection E as <-. rewrite checkNavigationPaths_forEach.
    apply forEachFrom_returns.
    rewrite forallb_forall in Hall. rewrite Forall_forall in IH |- *.
    intros item Hin index w. apply (IH item Hin). now apply Hall.
  - (* an object node *)
    simpl in Hok. rewrite !with_property_own in Hok.
    repeat match goal with
    | H : _ && _ = true |- _ => apply andb_prop in H; destruct H
    end.
    assert (names : forall k,
      In k ["group"; "item"; "tab"; "anchor"; "dropdown"]%string ->
      text_or_absent (own_property k fields) = true).
    { intros k [<-|[<-|[<-|[<-|[<-|[]]]]]]; assumption. }
    assert (children : forall k context' w,
      match own_property k fields with
      | Json (JArray items) => forallb node_ok items
      | Json _ => false
      | _ => true
      end = true ->
      ToBoolean (own_property k fields) = true ->
      returns (checkNavigationPaths (own_property k fields) w context')).
    { intros k context' w Hshape _.
      destruct (own_property k fields) as [|v|] eqn:E;
        try apply returns_Normal.
      destruct v as [| | | |items|]; try discriminate Hshape.
      exact (proj2 (own_property_Forall scanner_returns_at k fields _ IH E)
               items eq_refl Hshape context' w). }
    unfold scan_item, scan_children.
    apply returns_bind; [|intros ?; apply returns_Normal].
    apply returns_bind; [|intros ?; apply returns_bind; [|intros ?]].
    + apply returns_if; intros Htruthy; [|apply returns_Normal].
      apply returns_bind.
      * unfold pages_context. destruct (negb _); [apply returns_Normal|].
        apply returns_bind; [|intros ?; apply returns_Normal].
        apply ToString_text.
        repeat apply or_else_text; apply names; simpl; auto 6.
      * intros context'. apply children; [|assumption].
        destruct (own_property "pages" fields) as [|[]|]; assumption.
    + apply returns_if; intros Htruthy; [|apply returns_Normal].
      apply children; [|assumption].
      destruct (own_property "groups" fields) as [|[]|]; assumption.
    + apply returns_if; intros Htruthy; [|apply returns_Normal].
      apply returns_bind.
      * unfold menu_context. destruct (negb _); [apply returns_Normal|].
        apply returns_bind; [|intros ?; apply returns_Normal].
        apply ToString_text, names. simpl; auto.
      * intros context'. apply children; [|assumption].
        destruct (own_property "menu" fields) as [|[]|]; assumption.
Qed.

Lemma checkNavigationPaths_returns v warnings context :
  entries_or_absent node_ok v = true ->
  returns (checkNavigationPaths v warnings context).
Proof.
  destruct v as [|[| | | |items|]|]; try discriminate; intros Hok.
  - apply returns_Normal.
  - exact (proj2 (scanner_returns (JArray items)) items eq_refl Hok
             context warnings).
Qed.

Lemma text_truthy v :
  text_or_absent v = true -> ToBoolean v = true ->
  exists s, v = Json (JString s).
Proof.
  destruct v as [|[| | |s| |]|]; try discriminate. eauto.
Qed.

Lemma string_method_text {A : Type} m v (f : string -> A) :
  text_or_absent v = true -> ToBoolean v = true ->
  returns (string_method m v f).
Proof.
  intros Htext Htruthy. destruct (text_truthy v Htext Htruthy) as [s ->].
  apply returns_Normal.
Qed.

Lemma malformed_color_returns v :
  text_or_absent v = true -> returns (malformed_color v).
Proof.
  intros Htext. unfold malformed_color.
  apply returns_if; intros Htruthy; [|apply returns_Normal].
  apply returns_bind; [|intros ?; apply returns_Normal].
  now apply string_method_text.
Qed.

(** A node is not [null]: its properties can be read, its names render
    and its children are arrays of nodes. *)
Lemma Get_node (j : json) k :
  node_ok j = true ->
  exists v, Get j k = Normal v
            /\ (In k ["group"; "item"; "tab"; "anchor"; "dropdown"]%string ->
                returns (ToString v))
            /\ (In k ["pages"; "groups"; "menu"]%string ->
                entries_or_absent node_ok v = true).
Proof.
  destruct j as [| | |s| |fields]; try discriminate; intros Hok.
  - (* a page path has none of these properties but [anchor] *)
    simpl. destruct (k =? "anchor")%string eqn:E.
    + apply String.eqb_eq in E. subst k. eexists. split; [reflexivity|].
      split; [intros _; apply returns_Normal|].
      intros [E|[E|[E|[]]]]; discriminate E.
    + eexists. split; [reflexivity|].
      split; intros _; [apply returns_Normal | reflexivity].
  - exists (own_property k fields). split; [reflexivity|].
    simpl in Hok. rewrite !with_property_own in Hok.
    repeat match goal with
    | H : _ && _ = true |- _ => apply andb_prop in H; destruct H
    end.
    split.
    + intros [<-|[<-|[<-|[<-|[<-|[]]]]]]; now apply ToString_text.
    + intros [<-|[<-|[<-|[]]]];
        match goal with
        | H : match own_property ?k fields with _ => _ end = true
          |- context [own_property ?k fields] =>
            destruct (own_property_shape k fields) as [E|[v E]];
            rewrite E in H |- *; [reflexivity|];
            destruct v; try discriminate H; exact H
        end.
Qed.

Lemma group_entry_returns group index acc :
  node_ok group = true -> returns (group_entry group index acc).
Proof.
  intros Hok. unfold group_entry.
  destruct (Get_node group "group" Hok) as (name & -> & Hname & _).
  destruct (Get_node group "pages" Hok) as (pages & -> & _).
  cbn [bind]. apply returns_bind.
  - apply returns_if; intros _; apply returns_Normal.
  - intros acc'. apply returns_if; intros _; [|apply returns_Normal].
    apply returns_bind; [|intros ?; apply returns_Normal].
    apply Hname. simpl; auto.
Qed.

Lemma Array_forEach_returns {S : Type} (entry_ok : json -> bool) v
  (cb : json -> nat -> S -> completion S) acc :
  entries_or_absent entry_ok v = true -> ToBoolean v = true ->
  (forall item index s, entry_ok item = true -> returns (cb item index s)) ->
  returns (Array_forEach v cb acc).
Proof.
  destruct v as [|[| | | |items|]|]; try discriminate.
  intros Hall _ Hcb. simpl in Hall |- *. apply forEachFrom_returns.
  rewrite forallb_forall in Hall. apply Forall_forall.
  intros item Hin index s. apply Hcb. now apply Hall.
Qed.

Lemma menu_entry_returns tab entry index acc :
  node_ok tab = true -> node_ok entry = true ->
  returns (menu_entry tab entry index acc).
Proof.
  intros Htab Hentry. unfold menu_entry.
  destruct (Get_node entry "item" Hentry) as (item & -> & _).
  destruct (Get_node tab "tab" Htab) as (name & -> & Hname & _).
  cbn [bind]. apply returns_if; intros _; [|apply returns_Normal].
  apply returns_bind; [|intros ?; apply returns_Normal].
  apply Hname. simpl; auto.
Qed.

Lemma tab_entry_returns tab index acc :
  node_ok tab = true -> returns (tab_entry tab index acc).
Proof.
  intros Hok. unfold tab_entry.
  destruct (Get_node tab "tab" Hok) as (name & -> & _).
  destruct (Get_node tab "menu" Hok) as (menu & -> & _ & Hmenu).
  cbn [bind]. apply returns_bind.
  - apply returns_if; intros _; apply returns_Normal.
  - intros acc'. apply returns_if; intros Htruthy; [|apply returns_Normal].
    apply (Array_forEach_returns node_ok); [apply Hmenu; simpl; auto | assumption|].
    intros. now apply menu_entry_returns.
Qed.

Lemma named_entry_returns label kind entry index acc :
  entry <> JNull -> returns (named_entry label kind entry index acc).
Proof.
  intros Hentry. unfold named_entry.
  assert (returns (Get entry kind)) as [name ->].
  { destruct entry as [| | |s| |fields];
      [exfalso; now apply Hentry|..]; simpl;
      try destruct (_ =? _)%string; eexists; reflexivity. }
  cbn [bind]. apply returns_if; intros _; apply returns_Normal.
Qed.

Lemma node_not_null j : node_ok j = true -> j <> JNull.
Proof. now destruct j. Qed.

Lemma entries_or_absent_weaken (p q : json -> bool) v :
  (forall j, p j = true -> q j = true) ->
  entries_or_absent p v = true -> entries_or_absent q v = true.
Proof.
  intros Hpq. destruct v as [|[| | | |items|]|]; try discriminate; auto.
  simpl. rewrite !forallb_forall. auto.
Qed.

Lemma validate_entries_returns (entry_ok : json -> bool) entries cb context
  e w :
  entries_or_absent entry_ok entries = true ->
  (forall item, entry_ok item = true -> node_ok item = true) ->
  (forall item index acc,
      entry_ok item = true -> returns (cb item index acc)) ->
  returns (validate_entries entries cb context e w).
Proof.
  intros Hok Hnode Hcb. unfold validate_entries.
  apply returns_if; intros Htruthy; [|apply returns_Normal].
  apply returns_bind; [now apply (Array_forEach_returns entry_ok)|].
  intros e'. apply returns_bind; [|intros ?; apply returns_Normal].
  apply checkNavigationPaths_returns.
  now apply entries_or_absent_weaken with entry_ok.
Qed.

Lemma node_arrays_own keys fields k :
  node_arrays keys fields = true -> In k keys ->
  entries_or_absent node_ok (own_property k fields) = true.
Proof.
  unfold node_arrays. rewrite forallb_forall. intros H Hin. now apply H.
Qed.

Lemma scan_scopes_returns label kind fields warnings :
  texts [kind] fields = true ->
  node_arrays ["pages"; "groups"; "tabs"; "anchors"; "dropdowns"]%string
    fields = true ->
  returns (scan_scopes label kind (JObject fields) warnings).
Proof.
  intros Hname Hchildren.
  assert (one : forall key w,
    In key ["pages"; "groups"; "tabs"; "anchors"; "dropdowns"]%string ->
    returns (scan_scope label kind (JObject fields) key w)).
  { intros key w Hin. unfold scan_scope. rewrite !Get_object. cbn [bind].
    apply returns_if; intros _; [|apply returns_Normal].
    apply returns_bind.
    - apply ToString_text, (texts_own [kind]); simpl; auto.
    - intros shown. apply checkNavigationPaths_returns.
      now apply node_arrays_own with (2 := Hin). }
  unfold scan_scopes.
  repeat (apply returns_bind; [apply one; simpl; auto 6 | intros ?]).
  apply one. simpl; auto 6.
Qed.

Lemma scope_is_object kind j :
  scope_ok kind j = true ->
  exists fields,
    j = JObject fields /\ texts [kind] fields = true
    /\ node_arrays ["pages"; "groups"; "tabs"; "anchors"; "dropdowns"]%string
         fields = true.
Proof.
  destruct j as [| | | | |fields]; try discriminate. simpl.
  intros H. apply andb_prop in H. destruct H. eauto.
Qed.

Lemma version_entry_returns version index arrays :
  scope_ok "version" version = true ->
  returns (version_entry version index arrays).
Proof.
  intros Hok. destruct (scope_is_object _ _ Hok) as (fields & -> & ? & ?).
  destruct arrays as [e w]. unfold version_entry.
  apply returns_bind; [now apply named_entry_returns|]. intros e'.
  apply returns_bind; [now apply scan_scopes_returns|].
  intros ?. apply returns_Normal.
Qed.

Lemma language_entry_returns language index arrays :
  scope_ok "language" language = true ->
  returns (language_entry language index arrays).
Proof.
  intros Hok. destruct (scope_is_object _ _ Hok) as (fields & -> & Hcode & ?).
  destruct arrays as [e w]. unfold language_entry. rewrite Get_object.
  cbn [bind]. apply returns_bind.
  - apply returns_if; intros _; [apply returns_Normal|].
    apply returns_if; intros _; [|apply returns_Normal].
    apply returns_bind; [|intros ?; apply returns_Normal].
    apply ToString_text, (texts_own ["language"%string]); simpl; auto.
  - intros [e' w']. apply returns_bind; [now apply scan_scopes_returns|].
    intros ?. apply returns_Normal.
Qed.

Lemma global_anchor_entry_returns anchor index acc :
  global_anchor_ok anchor = true ->
  returns (global_anchor_entry anchor index acc).
Proof.
  intros Hok. apply andb_prop in Hok. destruct Hok as [Hnode Hhref].
  destruct anchor as [| | | | |fields]; try discriminate Hhref.
  destruct (Get_node (JObject fields) "anchor" Hnode)
    as (name & Ename & Hname & _).
  unfold global_anchor_entry. rewrite Ename, Get_object. cbn [bind].
  assert (returns (ToString name)) as Hshown by (apply Hname; simpl; auto).
  apply returns_bind.
  - apply returns_if; intros _; apply returns_Normal.
  - intros acc'. apply returns_if; intros Hfalsy.
    + apply returns_bind; [assumption | intros ?; apply returns_Normal].
    + apply returns_bind.
      * apply string_method_text.
        -- apply (texts_own ["href"%string]); [assumption | simpl; auto].
        -- now apply negb_false_iff.
      * intros external. apply returns_if; intros _;
          [|apply returns_Normal].
        apply returns_bind; [assumption | intros ?; apply returns_Normal].
Qed.

Lemma validateRequiredFields_returns fields acc :
  texts ["theme"; "favicon"]%string fields = true ->
  returns (validateRequiredFields (JObject fields) acc).
Proof.
  intros Htexts. unfold validateRequiredFields. rewrite !Get_object.
  cbn [bind]. apply returns_bind.
  - apply returns_if; intros _; [apply returns_Normal|].
    apply returns_if; intros _; [|apply returns_Normal].
    apply returns_bind; [|intros ?; apply returns_Normal].
    apply ToString_text, (texts_own _ _ _ Htexts). simpl; auto.
  - intros acc'. apply returns_if; intros _; apply returns_Normal.
Qed.

Lemma validateColors_returns fields acc :
  object_or_absent (texts ["primary"; "light"; "dark"]%string)
    (own_property "colors" fields) = true ->
  returns (validateColors (JObject fields) acc).
Proof.
  intros Hcolors. unfold validateColors. rewrite Get_object. cbn [bind].
  destruct (own_property "colors" fields) as [|[| | | | |colors]|];
    try discriminate Hcolors; cbn [ToBoolean negb bind];
    [apply returns_Normal|].
  cbn [object_or_absent] in Hcolors.
  assert (color : forall k, In k ["primary"; "light"; "dark"]%string ->
                            returns (malformed_color (own_property k colors))).
  { intros k Hin. apply malformed_color_returns.
    now apply (texts_own _ _ _ Hcolors). }
  rewrite !Get_object. cbn [bind]. apply returns_bind.
  - apply returns_if; intros _; [apply returns_Normal|].
    apply returns_bind; [apply color; simpl; auto|].
    intros malformed. destruct malformed; apply returns_Normal.
  - intros acc'. apply forEachFrom_returns.
    repeat constructor; intros index s; rewrite Get_object; cbn [bind];
      (apply returns_bind; [apply color; simpl; auto|]);
      intros malformed; destruct malformed; apply returns_Normal.
Qed.

Lemma validateNavigation_returns fields e w :
  object_or_absent navigation_ok (own_property "navigation" fields) = true ->
  returns (validateNavigation (JObject fields) e w).
Proof.
  intros Hnav. unfold validateNavigation. rewrite Get_object. cbn [bind].
  destruct (own_property "navigation" fields) as [|[| | | | |nav]|];
    try discriminate Hnav; cbn [ToBoolean negb]; [apply returns_Normal|].
  cbn [object_or_absent] in Hnav. unfold navigation_ok in Hnav.
  repeat match goal with
  | H : _ && _ = true |- _ => apply andb_prop in H; destruct H
  end.
  assert (nodes : forall k,
    In k ["pages"; "groups"; "tabs"; "anchors"; "dropdowns"]%string ->
    entries_or_absent node_ok (own_property k nav) = true).
  { intros k. now apply node_arrays_own. }
  rewrite !Get_object. cbn [bind].
  apply returns_bind.
  { apply returns_if; intros _; [|apply returns_Normal].
    apply checkNavigationPaths_returns, nodes. simpl; auto. }
  intros w1.
  do 4 (apply returns_bind;
        [ apply (validate_entries_returns node_ok);
          [ apply nodes; simpl; auto 6 | auto
          | intros; first [ now apply group_entry_returns
                          | now apply tab_entry_returns
                          | apply named_entry_returns;
                            now apply node_not_null ] ]
        | intros [? ?] ]).
  apply returns_bind.
  { apply returns_if; intros Htruthy; [|apply returns_Normal].
    apply (Array_forEach_returns (scope_ok "version")); auto.
    intros. now apply version_entry_returns. }
  intros [? ?]. apply returns_bind.
  { apply returns_if; intros Htruthy; [|apply returns_Normal].
    apply (Array_forEach_returns (scope_ok "language")); auto.
    intros. now apply language_entry_returns. }
  intros [? ?].
  match goal with
  | H : object_or_absent _ (own_property "global" nav) = true |- _ =>
      destruct (own_property "global" nav) as [|[| | | | |global]|];
      try discriminate H; cbn [OptionalGet bind];
      [ apply returns_Normal | rewrite Get_object; cbn [bind] ];
      cbn [object_or_absent] in H
  end.
  apply (validate_entries_returns global_anchor_ok); auto.
  - intros item Hitem. apply andb_prop in Hitem. tauto.
  - intros. now apply global_anchor_entry_returns.
Qed.

Lemma validateAssets_returns fields acc :
  texts ["theme"; "favicon"]%string fields = true ->
  logo_ok (own_property "logo" fields) = true ->
  returns (validateAssets (JObject fields) acc).
Proof.
  intros Htexts Hlogo. unfold validateAssets. rewrite !Get_object.
  cbn [bind]. apply returns_bind.
  - destruct (own_property "logo" fields) as [|[| | |s| |logo]|];
      try discriminate Hlogo; cbn [ToBoolean typeof js_type_eqb];
      try apply returns_Normal.
    + destruct (negb _); apply returns_Normal.
    + cbn [logo_ok object_or_absent] in Hlogo. rewrite Get_object. cbn [bind].
      apply returns_if; intros Htruthy; [|apply returns_Normal].
      apply returns_bind.
      * apply string_method_text; [|assumption].
        apply (texts_own _ _ _ Hlogo). simpl; auto.
      * intros matched. destruct matched; apply returns_Normal.
  - intros acc'. apply returns_if; intros Htruthy; [|apply returns_Normal].
    apply returns_bind.
    + apply string_method_text; [|assumption].
      apply (texts_own _ _ _ Htexts). simpl; auto.
    + intros matched. destruct matched; apply returns_Normal.
Qed.

Lemma check_integration_returns service key re message acc :
  object_or_absent (texts [key]) service = true ->
  returns (check_integration service key re message acc).
Proof.
  intros Hok. unfold check_integration.
  destruct service as [|[| | | | |fields]|]; try discriminate Hok;
    cbn [ToBoolean]; [apply returns_Normal|].
  cbn [object_or_absent] in Hok. rewrite Get_object. cbn [bind].
  apply returns_if; intros Htruthy; [|apply returns_Normal].
  apply returns_bind.
  - apply string_method_text; [|assumption].
    apply (texts_own _ _ _ Hok). simpl; auto.
  - intros matched. destruct matched; apply returns_Normal.
Qed.

Lemma validateIntegrations_returns fields acc :
  object_or_absent integrations_ok (own_property "integrations" fields)
  = true ->
  returns (validateIntegrations (JObject fields) acc).
Proof.
  intros Hok. unfold validateIntegrations. rewrite Get_object. cbn [bind].
  destruct (own_property "integrations" fields) as [|[| | | | |services]|];
    try discriminate Hok; cbn [ToBoolean negb]; [apply returns_Normal|].
  cbn [object_or_absent] in Hok. unfold integrations_ok in Hok.
  apply andb_prop in Hok. destruct Hok as [Hga4 Hgtm].
  rewrite !Get_object. cbn [bind].
  apply returns_bind; [now apply check_integration_returns|].
  intros acc'. now apply check_integration_returns.
Qed.

Lemma validateBestPractices_returns fields acc :
  returns (validateBestPractices (JObject fields) acc).
Proof.
  unfold validateBestPractices, suggest. rewrite !Get_object. cbn [bind].
  repeat (apply returns_bind; [|intros ?]);
    apply returns_if; intros _; apply returns_Normal.
Qed.

(** On a document of the assumed shapes the validator returns a
    [ValidationResult]. *)
Lemma validateDocsJson_returns (fields : list (string * json)) :
  document_ok fields = true ->
  returns (Sandbox.validateDocsJson (JObject fields)).
Proof.
  intros Hok. unfold document_ok in Hok.
  repeat match goal with
  | H : _ && _ = true |- _ => apply andb_prop in H; destruct H
  end.
  unfold Sandbox.validateDocsJson.
  apply returns_bind; [now apply validateRequiredFields_returns|].
  intros e1. apply returns_bind; [now apply validateColors_returns|].
  intros e2. apply returns_bind; [now apply validateNavigation_returns|].
  intros [e3 w3]. apply returns_bind; [now apply validateAssets_returns|].
  intros w4. apply returns_bind; [now apply validateIntegrations_returns|].
  intros w5. apply returns_bind; [apply validateBestPractices_returns|].
  intros w6. apply returns_Normal.
Qed.

(** The [complete] example is of the assumed shapes, and passes without
    a warning. *)
Example complete_example_passes :
  document_ok complete_example = true
  /\ Sandbox.validateDocsJson (JObject complete_example)
     = Normal (result_of [] []).
Proof. split; reflexivity. Qed.

(** ** The claims *)

(** C1. The validator on the empty object returns exactly the four
    required-field errors, for [theme], [name], [colors.primary] and
    [navigation] in that order, and [isValid = false]; the two earlier
    variants return the same four. *)
Theorem empty_object_required_errors :
  let four :=
    [theme_required; name_required; primary_required; navigation_required]
  in
  (exists result,
      Sandbox.validateDocsJson (JObject []) = Normal result
      /\ errors result = four /\ isValid result = false)
  /\ (exists result,
        Legacy.validateDocsJson (JObject []) = Normal result
        /\ errors result = four /\ isValid result = false)
  /\ (exists result,
        LegacyApi.validateDocsJson (JObject []) = Normal result
        /\ errors result = four /\ isValid result = false).
Proof.
  intros four. repeat split; eexists; (split; [reflexivity|]);
    split; reflexivity.
Qed.

(** C7. Two runs of the validator on one parsed document agree, and the
    result is fixed by the document alone: what the six checks push to
    empty arrays, in the order the checks are written, each loop pushing
    in index order. *)
Theorem validateDocsJson_deterministic (config : value)
  (first second : completion ValidationResult) :
  first = Sandbox.validateDocsJson config ->
  second = Sandbox.validateDocsJson config ->
  first = second
  /\ first =
     (required <- validateRequiredFields config [] ;;
      colors <- validateColors config [] ;;
      '(navigation_errors, navigation_warnings) <-
        validateNavigation config [] [] ;;
      assets <- validateAssets config [] ;;
      integrations <- validateIntegrations config [] ;;
      practices <- validateBestPractices config [] ;;
      Normal (result_of (required ++ colors ++ navigation_errors)
                (navigation_warnings ++ assets ++ integrations ++ practices)))
  /\ in_index_order group_entry
  /\ in_index_order tab_entry
  /\ (forall tab, in_index_order (menu_entry tab))
  /\ (forall label kind, in_index_order (named_entry label kind))
  /\ in_index_order global_anchor_entry
  /\ (forall context before after,
        checkNavigationPaths (JArray (before ++ after)) [] context =
        (first <- checkNavigationPaths (JArray before) [] context ;;
         rest <- checkNavigationPaths (JArray after) [] context ;;
         Normal (first ++ rest))).
Proof.
  intros -> ->. split; [reflexivity|].
  split; [apply validateDocsJson_in_order|].
  assert (loops : forall cb, (forall item index, appends1 (cb item index)) ->
                             in_index_order cb).
  { intros cb H before after. now apply forEach_in_index_order. }
  repeat apply conj.
  - apply loops, group_entry_appends.
  - apply loops, tab_entry_appends.
  - intros tab. apply loops, menu_entry_appends.
  - intros label kind. apply loops, named_entry_appends.
  - apply loops, global_anchor_entry_appends.
  - intros context before after.
    rewrite checkNavigationPaths_app. apply bind_ext. intros scanned.
    apply (checkNavigationPaths_appends (JArray after) context scanned).
Qed.

(** C7 on the passing document of the first scenario. *)
Lemma validateDocsJson_deterministic_witness :
  Sandbox.validateDocsJson passing_document
  = Normal (result_of []
              [schema_hint; description_hint; favicon_hint; logo_hint])
  /\ Sandbox.validateDocsJson passing_document
     = Sandbox.validateDocsJson passing_document.
Proof.
  split; [reflexivity|].
  exact (proj1 (validateDocsJson_deterministic passing_document _ _
                  eq_refl eq_refl)).
Defined.



(** The specification's external link: its [href] has the segment [mcp]
    and starts with [http]. *)
Example external_href_is_exempt :
  includes (split "/" "http://host/mcp/setup") "mcp" = true
  /\ checkNavigationPaths
       (JArray [JObject [("anchor", JString "Host");
                         ("href", JString "http://host/mcp/setup")]])
       [] "Root navigation"
     = Normal [].
Proof. split; reflexivity. Qed.

(** ** What a check pushed stays *)

Lemma appends1_keeps (f : list string -> completion (list string))
  acc acc' m :
  appends1 f -> f acc = Normal acc' -> In m acc -> In m acc'.
Proof.
  intros Hf E Hin.
  destruct (appends_extends [] (@app string) f acc acc' Hf E)
    as (out & _ & ->).
  apply in_or_app. now left.
Qed.

Lemma appends2_keeps
  (f : list string * list string -> completion (list string * list string))
  e w e' w' m :
  appends2 f -> f (e, w) = Normal (e', w') -> In m e -> In m e'.
Proof.
  intros Hf E Hin.
  destruct (appends_extends ([], []) add2 f (e, w) (e', w') Hf E)
    as (out & _ & E').
  injection E' as -> _. apply in_or_app. now left.
Qed.

(** A loop whose callback pushes [m] for the entry at index [i] has
    pushed [m] when it returns. *)
Lemma forEachFrom_pushes
  (cb : json -> nat -> list string -> completion (list string))
  items i x start acc acc' m :
  (forall item index, appends1 (cb item index)) ->
  nth_error items i = Some x ->
  forEachFrom cb items start acc = Normal acc' ->
  (forall a a', cb x (start + i) a = Normal a' -> In m a') ->
  In m acc'.
Proof.
  intros Hcb Hnth Hloop Hx.
  destruct (nth_error_split items i Hnth) as (before & after & -> & <-).
  rewrite forEachFrom_app in Hloop.
  apply bind_inv in Hloop. destruct Hloop as (a & _ & Hloop).
  simpl in Hloop.
  apply bind_inv in Hloop. destruct Hloop as (a' & Hstep & Hloop).
  apply (appends1_keeps (forEachFrom cb after
                           (S (start + List.length before))) a' acc' m);
    [|exact Hloop | exact (Hx a a' Hstep)].
  apply appends_forEachFrom; auto with frame.
  apply Forall_forall. intros item _. apply Hcb.
Qed.

Ltac invert_binds :=
  repeat match goal with
  | H : bind _ _ = Normal _ |- _ =>
      apply bind_inv in H; destruct H as (? & ? & H)
  | H : (let '(_, _) := ?p in _) = Normal _ |- _ => destruct p
  end.

Lemma validate_entries_keeps entries cb context e w e' w' m :
  (forall item index, appends1 (cb item index)) ->
  validate_entries entries cb context e w = Normal (e', w') ->
  In m e -> In m e'.
Proof.
  intros Hcb E.
  exact (appends2_keeps _ e w e' w' m
           (validate_entries_appends entries cb context Hcb) E).
Qed.

Lemma menu_entry_pushes (tab entry : json) index acc item name shown :
  Get entry "item" = Normal item -> ToBoolean item = false ->
  Get tab "tab" = Normal name -> ToString name = Normal shown ->
  menu_entry tab entry index acc
  = Normal (acc ++ [menu_item_missing index shown]).
Proof.
  intros Hitem Hfalsy Hname Hshown. unfold menu_entry.
  rewrite Hitem. cbn [bind]. rewrite Hfalsy. cbn [negb].
  rewrite Hname. cbn [bind]. now rewrite Hshown.
Qed.

(** C9. A menu entry without a truthy [item] makes its callback push
    exactly one error, with the entry's index and the tab's [tab] name;
    the validator's errors hold it when the validator returns, as it
    does on every document of the assumed shapes. *)
Theorem menu_entry_without_item (config navigation name item : value)
  (tabs menu : list json) (tab entry : json) (i j : nat) (shown : string)
  (pushed : list string) (result : ValidationResult) :
  Get config "navigation" = Normal navigation ->
  Get navigation "tabs" = Normal (Json (JArray tabs)) ->
  nth_error tabs i = Some tab ->
  Get tab "menu" = Normal (Json (JArray menu)) ->
  nth_error menu j = Some entry ->
  Get entry "item" = Normal item ->
  ToBoolean item = false ->
  Get tab "tab" = Normal name ->
  ToString name = Normal shown ->
  menu_entry tab entry j pushed
  = Normal (pushed ++ [menu_item_missing j shown])
  /\ (Sandbox.validateDocsJson config = Normal result ->
      In (menu_item_missing j shown) (errors result))
  /\ (forall fields,
        config = Json (JObject fields) -> document_ok fields = true ->
        exists returned,
          Sandbox.validateDocsJson config = Normal returned
          /\ In (menu_item_missing j shown) (errors returned)).
Proof.
  intros Hnav Htabs Htab Hmenu Hentry Hitem Hfalsy Hname Hshown.
  split; [now apply menu_entry_pushes with item name|].
  assert (held : forall result,
    Sandbox.validateDocsJson config = Normal result ->
    In (menu_item_missing j shown) (errors result));
    [clear result; intros result
    |split; [apply held|];
     intros fields -> Hshape;
     destruct (validateDocsJson_returns fields Hshape) as [returned E];
     exists returned; split; [exact E | now apply held]].
  intros Hrun. rewrite validateDocsJson_in_order in Hrun.
  invert_binds. injection Hrun as <-. cbn [errors result_of].
  apply in_or_app. right. apply in_or_app. right.
  match goal with
  | H : validateNavigation _ _ _ = _ |- _ =>
      unfold validateNavigation in H; rewrite Hnav in H; cbn [bind] in H;
      rename H into Hrun
  end.
  assert (ToBoolean navigation = true) as Htruthy.
  { destruct navigation as [|[]|]; try discriminate Htabs; reflexivity. }
  rewrite Htruthy in Hrun. cbn [negb] in Hrun. invert_binds.
  match goal with
  | H : Get navigation "tabs" = Normal _ |- _ =>
      rewrite Htabs in H; injection H as <-
  end.
  (* the tabs loop pushes the error *)
  match goal with
  | H : validate_entries (Json (JArray tabs)) tab_entry _ _ _
        = Normal (?e', _) |- _ =>
      assert (In (menu_item_missing j shown) e') as Hin;
      [ unfold validate_entries in H; cbn [ToBoolean Array_forEach] in H;
        apply bind_inv in H; destruct H as (pushed' & Hloop & H);
        apply bind_inv in H; destruct H as (scanned & _ & H);
        injection H as <- _
      | clear H ]
  end.
  { apply (forEachFrom_pushes tab_entry tabs i tab 0 _ _ _
             tab_entry_appends Htab Hloop).
    intros a a' Hcb. unfold tab_entry in Hcb.
    rewrite Hname, Hmenu in Hcb. cbn [bind] in Hcb.
    apply bind_inv in Hcb. destruct Hcb as (a1 & _ & Hcb).
    cbn [ToBoolean Array_forEach] in Hcb.
    apply (forEachFrom_pushes (menu_entry tab) menu j entry 0 _ _ _
             (menu_entry_appends tab) Hentry Hcb).
    intros b b'. rewrite (menu_entry_pushes tab entry _ b item name shown)
      by assumption.
    intros E. injection E as <-. apply in_or_app. right. now left. }
  (* the later checks keep it *)
  repeat match goal with
  | Hin : In ?m ?e,
    H : validate_entries _ _ _ ?e _ = Normal (?e', _) |- _ =>
      assert (In m e')
        by (apply (validate_entries_keeps _ _ _ _ _ _ _ m) in H;
            auto using named_entry_appends, global_anchor_entry_appends);
      clear H Hin
  | Hin : In ?m ?e,
    H : (if ToBoolean ?v then Array_forEach ?v ?cb (?e, ?w) else _)
        = Normal (?e', ?w') |- _ =>
      assert (In m e')
        by (destruct (ToBoolean v);
            [ apply (appends2_keeps (Array_forEach v cb) e w e' w' m);
              [ apply Array_forEach_appends2;
                auto using version_entry_appends, language_entry_appends
              | exact H | exact Hin ]
            | injection H as <- <-; exact Hin ]);
      clear H Hin
  end.
  assumption.
Qed.

(** C9 on a tab whose second menu entry has no [item]. *)
Lemma menu_entry_without_item_witness :
  menu_entry menu_tab (JObject [("pages", JArray [JString "guides/advanced"])])
    1 []
  = Normal [menu_item_missing 1 "Guides"]
  /\ (Sandbox.validateDocsJson (with_tabs [menu_tab])
      = Normal (result_of [menu_item_missing 1 "Guides"]
                  [schema_hint; description_hint; favicon_hint; logo_hint])
      /\ In (menu_item_missing 1 "Guides")
            (errors (result_of [menu_item_missing 1 "Guides"]
                       [schema_hint; description_hint; favicon_hint;
                        logo_hint]))).
Proof.
  destruct (menu_entry_without_item (with_tabs [menu_tab])
              (JObject [("tabs", JArray [menu_tab])])
              (JString "Guides") Undefined [menu_tab]
              [JObject [("item", JString "Overview");
                        ("pages", JArray [JString "guides/overview"])];
               JObject [("pages", JArray [JString "guides/advanced"])]]
              menu_tab
              (JObject [("pages", JArray [JString "guides/advanced"])])
              0 1 "Guides" []
              (result_of [menu_item_missing 1 "Guides"]
                 [schema_hint; description_hint; favicon_hint; logo_hint])
              eq_refl eq_refl eq_refl eq_refl eq_refl eq_refl eq_refl
              eq_refl eq_refl) as (pushed & held & _).
  split; [exact pushed|]. split; [reflexivity | exact (held eq_refl)].
Defined.

(** C6, as stated, fails: no variant takes both keys. The current
    validator rejects the legacy entry [{name, url}], and the earlier
    validators reject the entry [{tab}]. *)
Lemma tab_name_has_no_fallback :
  (exists result,
      Sandbox.validateDocsJson (with_tabs [legacy_tab]) = Normal result
      /\ errors result = [tab_missing 0] /\ isValid result = false)
  /\ (exists result,
        Legacy.validateDocsJson (with_tabs [current_tab]) = Normal result
        /\ errors result
           = [legacy_tab_missing_name 0; legacy_tab_missing_url "undefined"])
  /\ (exists result,
        LegacyApi.validateDocsJson (with_tabs [current_tab]) = Normal result
        /\ errors result
           = [legacy_tab_missing_name 0; legacy_tab_missing_url "undefined"]).
Proof.
  repeat split; eexists; (split; [reflexivity|]); repeat split; reflexivity.
Qed.

(** C6, amended. In [settings-sandbox.jsx] the callback for an entry of
    [navigation.tabs] reads [tab] and [menu] only: without a truthy [tab]
    it pushes one error indexed by position, whatever [name] and [url]
    are. In the earlier variants the callback reads [name] and [url] only:
    without a truthy [name] it pushes an error indexed by position, and
    without a truthy [url] an error naming the tab, whatever [tab] is. *)
Theorem tab_entry_keys (tab : json) (index : nat) (pushed : list string)
  (name menu legacy_name url : value) (shown : string) :
  Get tab "tab" = Normal name ->
  Get tab "menu" = Normal menu ->
  Get tab "name" = Normal legacy_name ->
  Get tab "url" = Normal url ->
  ToString legacy_name = Normal shown ->
  Sandbox.tab_entry tab index pushed
  = (let pushed :=
       pushed ++ (if ToBoolean name then [] else [tab_missing index]) in
     if ToBoolean menu then Array_forEach menu (menu_entry tab) pushed
     else Normal pushed)
  /\ legacy_tab_entry tab index pushed
     = Normal (pushed
               ++ (if ToBoolean legacy_name then []
                   else [legacy_tab_missing_name index])
               ++ (if ToBoolean url then []
                   else [legacy_tab_missing_url shown])).
Proof.
  intros Hname Hmenu Hlegacy Hurl Hshown. split.
  - unfold tab_entry. rewrite Hname, Hmenu. cbn [bind]. unfold push.
    destruct (ToBoolean name); cbn [negb bind];
      [now rewrite app_nil_r | reflexivity].
  - unfold legacy_tab_entry. rewrite Hlegacy, Hurl. cbn [bind]. unfold push.
    destruct (ToBoolean legacy_name), (ToBoolean url); cbn [negb bind];
      rewrite ?Hshown; cbn [bind]; rewrite ?app_nil_r; try reflexivity.
    now rewrite <- app_assoc.
Qed.

(** C6, amended, on the legacy entry. *)
Lemma tab_entry_keys_witness :
  Sandbox.tab_entry legacy_tab 0 [] = Normal [tab_missing 0]
  /\ legacy_tab_entry legacy_tab 0 [] = Normal [].
Proof.
  exact (tab_entry_keys legacy_tab 0 [] Undefined Undefined
           (JString "Documentation") (JString "docs") "Documentation"
           eq_refl eq_refl eq_refl eq_refl eq_refl).
Defined.

(** ** Required fields *)


Lemma validateRequiredFields_pushes config theme name shown pushed :
  Get config "theme" = Normal theme ->
  Get config "name" = Normal name ->
  (ToBoolean theme = true -> Array_includes validThemes theme = false ->
   ToString theme = Normal shown) ->
  validateRequiredFields config pushed
  = Normal (pushed ++ theme_errors theme shown ++ name_errors name).
Proof.
  intros Htheme Hname Hshown. unfold validateRequiredFields, theme_errors,
    name_errors, push.
  rewrite Htheme, Hname. cbn [bind].
  destruct (ToBoolean theme); cbn [negb bind].
  - destruct (Array_includes validThemes theme); cbn [negb bind].
    + destruct (ToBoolean name); cbn [negb app];
        [now rewrite app_nil_r | reflexivity].
    + rewrite Hshown by reflexivity. cbn [bind].
      destruct (ToBoolean name); cbn [negb app];
        [reflexivity | now rewrite <- app_assoc].
  - destruct (ToBoolean name); cbn [negb app];
      [reflexivity | now rewrite <- app_assoc].
Qed.






(** ** The earlier variants only append *)

Lemma legacy_primary_appends config : appends1 (legacy_primary config).
Proof. unfold legacy_primary. repeat frame_step. Qed.

Lemma legacy_optional_colors_appends config :
  appends1 (legacy_optional_colors config).
Proof.
  unfold legacy_optional_colors. frame_step.
  apply appends_if; [apply color_loop_appends | frame_step].
Qed.

Lemma legacy_pages_appends reserved pages :
  appends1
    (Array_forEach pages
       (fun page (_ : nat) warnings =>
          match page with
          | JString page =>
              match reserved page with
              | Some warning => Normal (push warnings warning)
              | None => Normal warnings
              end
          | _ => Normal warnings
          end)).
Proof.
  apply Array_forEach_appends. intros item index.
  destruct item as [| | |page| |]; try frame_step.
  destruct (reserved page); frame_step.
Qed.

Lemma legacy_navigation_appends reserved config :
  appends2 (fun arrays =>
              legacy_navigation reserved config (fst arrays) (snd arrays)).
Proof.
  unfold legacy_navigation.
  apply appends_read. intros navigation.
  apply appends_if.
  { intros [e w]. unfold push, add2. cbn [bind fst snd app].
    now rewrite app_nil_r. }
  apply appends_read. intros groups.
  apply appends_bind; [auto with frame| |].
  - match goal with
    | |- appends _ _
           (fun _ => if _ then Array_forEach ?entries ?cb _ else _) =>
        apply (appends_ext _ _ _
                 (fun arrays => if ToBoolean entries
                                then Array_forEach entries cb arrays
                                else Normal arrays))
    end; [now intros [e w]|].
    apply appends_if; [|apply appends_ret; auto with frame].
    apply Array_forEach_appends2. intros group index [e w].
    cbn [bind fst snd]. rewrite (group_entry_appends group index e).
    destruct (group_entry group index []) as [e'|]; [|reflexivity].
    cbn [bind]. destruct (Get group "pages") as [pages|]; [|reflexivity].
    cbn [bind]. destruct (ToBoolean pages); cbn [bind];
      [|unfold add2; cbn [fst snd]; now rewrite app_nil_r].
    rewrite (legacy_pages_appends reserved pages w).
    match goal with
    | |- context [Array_forEach pages ?cb []] =>
        destruct (Array_forEach pages cb []); reflexivity
    end.
  - apply appends2_unpair. apply appends_read. intros tabs.
    apply appends_if; [|intros [e w]; unfold add2; cbn [bind fst snd];
                        now rewrite !app_nil_r].
    intros [e w]. cbn [bind fst snd].
    rewrite (Array_forEach_appends tabs legacy_tab_entry
               legacy_tab_entry_appends e).
    destruct (Array_forEach tabs legacy_tab_entry []); cbn [bind];
      [|reflexivity].
    unfold add2. cbn [fst snd]. now rewrite app_nil_r.
Qed.

(** The errors of an earlier validator open with those of the [theme] and
    [name] checks. *)
Lemma legacy_errors_open_with_required config result :
  Legacy.validateDocsJson config = Normal result
  \/ LegacyApi.validateDocsJson config = Normal result ->
  exists required rest,
    validateRequiredFields config [] = Normal required
    /\ errors result = required ++ rest.
Proof.
  assert (after : forall reserved required e w,
    (primary <- legacy_primary config required ;;
     '(e', w') <- legacy_navigation reserved config primary [] ;;
     e'' <- legacy_optional_colors config e' ;; Normal (e'', w'))
    = Normal (e, w) ->
    exists rest, e = required ++ rest).
  { intros reserved required e w H. invert_binds. injection H as <- <-.
    repeat match goal with
    | H : legacy_primary _ _ = Normal _ |- _ =>
        apply (appends_extends [] (@app string) _ _ _
                 (legacy_primary_appends config)) in H;
        destruct H as (? & _ & ->)
    | H : legacy_optional_colors _ _ = Normal _ |- _ =>
        apply (appends_extends [] (@app string) _ _ _
                 (legacy_optional_colors_appends config)) in H;
        destruct H as (? & _ & ->)
    | H : legacy_navigation ?r _ ?e ?w = Normal _ |- _ =>
        apply (appends_extends ([], []) add2 _ (e, w) _
                 (legacy_navigation_appends r config)) in H;
        destruct H as (? & _ & H); injection H as -> ->
    end.
    rewrite <- !app_assoc. eauto. }
  intros [H|H];
    [unfold Legacy.validateDocsJson in H
    |unfold LegacyApi.validateDocsJson in H];
    apply bind_inv in H; destruct H as (required & Hrequired & H);
    exists required;
    apply bind_inv in H; destruct H as (primary & Hprimary & H);
    apply bind_inv in H; destruct H as ([e w] & Hnav & H);
    apply bind_inv in H; destruct H as (e' & Hcolors & H);
    invert_binds; injection H as <-; cbn [errors result_of];
    match type of Hnav with
    | legacy_navigation ?r _ _ _ = _ =>
        destruct (after r required e' w) as (rest & ->); eauto
    end;
    rewrite Hprimary; cbn [bind]; rewrite Hnav; cbn [bind];
    now rewrite Hcolors.
Qed.

(** C10. A [theme] or a [name] that is present and falsy gets the error of
    a missing field, and a falsy [theme] never gets the error of an
    invalid value, in the current validator and in the earlier ones. The
    empty string, [false], a zero and [null] are falsy. *)
Theorem falsy_required_fields (themed named : list (string * json))
  (bound : json) (shown : string) (pushed : list string) :
  ToBoolean bound = false ->
  own_property "theme" themed = Json bound ->
  own_property "name" named = Json bound ->
  ToString (own_property "theme" named) = Normal shown ->
  let after_theme := [theme_required]
                     ++ name_errors (own_property "name" themed) in
  validateRequiredFields (JObject themed) pushed
  = Normal (pushed ++ after_theme)
  /\ (forall value, ~ In (theme_invalid value) after_theme)
  /\ validateRequiredFields (JObject named) pushed
     = Normal (pushed ++ theme_errors (own_property "theme" named) shown
               ++ [name_required])
  /\ (forall result,
        Legacy.validateDocsJson (JObject themed) = Normal result
        \/ LegacyApi.validateDocsJson (JObject themed) = Normal result ->
        exists rest, errors result = after_theme ++ rest)
  /\ (forall result,
        Legacy.validateDocsJson (JObject named) = Normal result
        \/ LegacyApi.validateDocsJson (JObject named) = Normal result ->
        In name_required (errors result))
  /\ ToBoolean (JString "") = false
  /\ ToBoolean (JBool false) = false
  /\ (forall text,
        ToBoolean (JNumber {| number_is_zero := true; number_text := text |})
        = false)
  /\ ToBoolean JNull = false.
Proof.
  intros Hfalsy Htheme Hname Hshown after_theme.
  assert (Hthemed : forall acc,
    validateRequiredFields (JObject themed) acc = Normal (acc ++ after_theme)).
  { intros acc.
    rewrite (validateRequiredFields_pushes (JObject themed) bound
               (own_property "name" themed) "" acc);
      [ | exact (f_equal Normal Htheme) | reflexivity
        | intros Htruthy; congruence ].
    unfold theme_errors. now rewrite Hfalsy. }
  assert (Hnamed : forall acc,
    validateRequiredFields (JObject named) acc
    = Normal (acc ++ theme_errors (own_property "theme" named) shown
              ++ [name_required])).
  { intros acc.
    rewrite (validateRequiredFields_pushes (JObject named)
               (own_property "theme" named) bound shown acc);
      [ | reflexivity | exact (f_equal Normal Hname) | now intros _ _ ].
    unfold name_errors. now rewrite Hfalsy. }
  repeat apply conj; try reflexivity; auto.
  - intros value. unfold after_theme, name_errors.
    destruct (ToBoolean (own_property "name" themed)); simpl;
      intros [E|[E|[]]] || intros [E|[]]; discriminate E.
  - intros result Hrun.
    destruct (legacy_errors_open_with_required _ _ Hrun)
      as (required & rest & Hrequired & ->).
    rewrite (Hthemed []) in Hrequired. injection Hrequired as <-. eauto.
  - intros result Hrun.
    destruct (legacy_errors_open_with_required _ _ Hrun)
      as (required & rest & Hrequired & ->).
    rewrite (Hnamed []) in Hrequired. injection Hrequired as <-.
    apply in_or_app. left. apply in_or_app. right. now left.
Qed.

(** C10 on the empty string. *)
Lemma falsy_required_fields_witness :
  validateRequiredFields (JObject [("theme", JString "")]) []
  = Normal [theme_required; name_required]
  /\ validateRequiredFields
       (JObject [("theme", JString "mint"); ("name", JString "")]) []
     = Normal [name_required].
Proof.
  destruct (falsy_required_fields [("theme", JString "")]
              [("theme", JString "mint"); ("name", JString "")]
              (JString "") "mint" [] eq_refl eq_refl eq_refl eq_refl)
    as (themed & _ & named & _).
  split; [exact themed | exact named].
Defined.

(** ** The pipeline *)


(** A parsed array, or a truthy number, string or [true], has none of the
    properties the validator reads. *)
Lemma validateDocsJson_without_fields (doc : json) :
  ToBoolean doc = true -> is_object doc = false ->
  Sandbox.validateDocsJson doc
  = Normal (result_of four_required four_hints).
Proof. destruct doc; try discriminate; reflexivity. Qed.

Lemma validate_text_blank JSON_parse text :
  blank text = true -> Sandbox.validate_text JSON_parse text = Normal None.
Proof.
  intros Hblank. unfold validate_text, validationResult. now rewrite Hblank.
Qed.

Lemma validate_text_parsed JSON_parse text (doc : json) :
  blank text = false -> JSON_parse text = Normal doc ->
  Sandbox.validate_text JSON_parse text
  = (if ToBoolean doc
     then result <- Sandbox.validateDocsJson doc ;; Normal (Some result)
     else Normal (Some parse_error_result)).
Proof.
  intros Hblank Hparse. unfold validate_text, validationResult, parsedConfig.
  rewrite Hblank, Hparse. now destruct (ToBoolean doc).
Qed.

Lemma validate_text_unparseable JSON_parse text error :
  blank text = false -> JSON_parse text = Throw error ->
  Sandbox.validate_text JSON_parse text = Normal (Some parse_error_result).
Proof.
  intros Hblank Hparse. unfold validate_text, validationResult, parsedConfig.
  now rewrite Hblank, Hparse.
Qed.

(** C2, as stated, fails: for the empty text, and for a text of blanks,
    the pipeline returns [null] and no [ValidationResult], whatever
    [JSON.parse] does; so does the first render. *)
Lemma blank_text_yields_null :
  (forall JSON_parse, Sandbox.validate_text JSON_parse "" = Normal None)
  /\ (forall JSON_parse,
        Sandbox.validate_text JSON_parse (String " " (String "009" " "))
        = Normal None)
  /\ (forall JSON_parse,
        exists mounted,
          Sandbox.mount JSON_parse = Normal mounted
          /\ result_memo mounted = None).
Proof.
  repeat split; try reflexivity.
  intros JSON_parse. eexists. split; reflexivity.
Qed.

(** C2, amended. For a blank text the pipeline returns [null]. For a text
    that is not blank it returns a [ValidationResult] when the text does
    not parse, when it parses to a falsy value, when it parses to an array
    or a truthy scalar, and when it parses to an object of the shapes the
    validator assumes; for any object the result is that of the
    validator. The earlier variants, which validate inside the [try]
    block, return a [ValidationResult] for every text that is not
    blank. *)
Theorem pipeline_results (JSON_parse : string -> completion json)
  (TypeError_message : type_error -> string) (text : string) :
  (blank text = true ->
   Sandbox.validate_text JSON_parse text = Normal None
   /\ Legacy.effect JSON_parse TypeError_message text = None
   /\ LegacyApi.effect JSON_parse TypeError_message text = None)
  /\ (blank text = false ->
      (forall error,
          JSON_parse text = Throw error ->
          Sandbox.validate_text JSON_parse text
          = Normal (Some parse_error_result))
      /\ (forall doc : json,
            JSON_parse text = Normal doc -> ToBoolean doc = false ->
            Sandbox.validate_text JSON_parse text
            = Normal (Some parse_error_result))
      /\ (forall doc : json,
            JSON_parse text = Normal doc ->
            ToBoolean doc = true -> is_object doc = false ->
            Sandbox.validate_text JSON_parse text
            = Normal (Some (result_of four_required four_hints)))
      /\ (forall doc : json,
            JSON_parse text = Normal doc -> is_object doc = true ->
            Sandbox.validate_text JSON_parse text
            = (result <- Sandbox.validateDocsJson doc ;;
               Normal (Some result)))
      /\ (forall fields,
            JSON_parse text = Normal (JObject fields) ->
            document_ok fields = true ->
            exists result,
              Sandbox.validate_text JSON_parse text = Normal (Some result))
      /\ (exists result,
            Legacy.effect JSON_parse TypeError_message text = Some result)
      /\ (exists result,
            LegacyApi.effect JSON_parse TypeError_message text
            = Some result)).
Proof.
  split; intros Hblank.
  - split; [now apply validate_text_blank|].
    unfold Legacy.effect, LegacyApi.effect, legacy_effect.
    now rewrite Hblank.
  - repeat apply conj.
    + intros error. now apply validate_text_unparseable.
    + intros doc Hparse Hfalsy.
      now rewrite (validate_text_parsed _ _ doc Hblank Hparse), Hfalsy.
    + intros doc Hparse Htruthy Hshape.
      rewrite (validate_text_parsed _ _ doc Hblank Hparse), Htruthy.
      now rewrite validateDocsJson_without_fields.
    + intros doc Hparse Hshape.
      rewrite (validate_text_parsed _ _ doc Hblank Hparse).
      now destruct doc.
    + intros fields Hparse Hshape.
      rewrite (validate_text_parsed _ _ _ Hblank Hparse). cbn [ToBoolean].
      destruct (validateDocsJson_returns fields Hshape) as [result ->].
      now exists result.
    + unfold Legacy.effect, legacy_effect. rewrite Hblank.
      destruct (bind _ _); eauto.
    + unfold LegacyApi.effect, legacy_effect. rewrite Hblank.
      destruct (bind _ _); eauto.
Qed.

(** C2, amended, on a text that does not parse and on an array. *)
Lemma pipeline_results_witness :
  Sandbox.validate_text rejecting_parser "{not json"
  = Normal (Some parse_error_result)
  /\ Sandbox.validate_text (fun _ => Normal (JArray [])) "[]"
     = Normal (Some (result_of four_required four_hints))
  /\ exists result,
       Sandbox.validate_text (fun _ => Normal (JObject complete_example))
         "{}"
       = Normal (Some result).
Proof.
  repeat apply conj.
  - exact (proj1 (proj2 (pipeline_results rejecting_parser
                           (fun _ => ""%string) "{not json") eq_refl)
             (SyntaxError "Unexpected token") eq_refl).
  - exact (proj1 (proj2 (proj2
             (proj2 (pipeline_results (fun _ => Normal (JArray []))
                       (fun _ => ""%string) "[]") eq_refl)))
             (JArray []) eq_refl eq_refl eq_refl).
  - exact (proj1 (proj2 (proj2 (proj2 (proj2
             (proj2 (pipeline_results
                       (fun _ => Normal (JObject complete_example))
                       (fun _ => ""%string) "{}") eq_refl)))))
             complete_example eq_refl eq_refl).
Defined.

(** C4, as stated, fails: the empty text does not parse, and the result
    for it is [null], in every variant and whatever [JSON.parse] does. *)
Lemma empty_text_is_no_parse_error :
  blank "" = true
  /\ rejecting_parser "" = Throw (SyntaxError "Unexpected token")
  /\ Sandbox.validate_text rejecting_parser "" = Normal None
  /\ (forall JSON_parse, Sandbox.validate_text JSON_parse "" = Normal None)
  /\ (forall validate JSON_parse TypeError_message,
        legacy_effect validate JSON_parse TypeError_message "" = None).
Proof. repeat split. Qed.

(** C4, amended. For a text that is not blank and does not parse, the
    result is a [ValidationResult] with the one parse error, no warning
    and [isValid = false]. The validator is not run: the current variant
    returns a fixed result, and the earlier ones return the same result
    whatever the validator is. *)
Theorem unparseable_text_result (JSON_parse : string -> completion json)
  (TypeError_message : type_error -> string)
  (validate : value -> completion ValidationResult)
  (text : string) (error : js_error) :
  blank text = false ->
  JSON_parse text = Throw error ->
  Sandbox.validate_text JSON_parse text = Normal (Some parse_error_result)
  /\ errors parse_error_result = ["JSON Parse Error: Invalid JSON format"%string]
  /\ warnings parse_error_result = []
  /\ isValid parse_error_result = false
  /\ (let message := error_message TypeError_message error in
      legacy_effect validate JSON_parse TypeError_message text
      = Some (caught_result message)
      /\ errors (caught_result message)
         = [("JSON Parse Error: " ++ message)%string]
      /\ warnings (caught_result message) = []
      /\ isValid (caught_result message) = false).
Proof.
  intros Hblank Hparse. split; [now apply validate_text_unparseable with error|].
  repeat split. unfold legacy_effect. now rewrite Hblank, Hparse.
Qed.

(** C4, amended, on the text of the sixth scenario. *)
Lemma unparseable_text_result_witness :
  Sandbox.validate_text rejecting_parser "{not json"
  = Normal (Some parse_error_result)
  /\ Legacy.effect rejecting_parser (fun _ => ""%string) "{not json"
     = Some (caught_result "Unexpected token").
Proof.
  destruct (unparseable_text_result rejecting_parser (fun _ => ""%string)
              Legacy.validateDocsJson "{not json"
              (SyntaxError "Unexpected token") eq_refl eq_refl)
    as (current & _ & _ & _ & legacy & _).
  split; [exact current | exact legacy].
Defined.

(** ** Added fields *)

Lemma Get_added_field k v fields key :
  (k =? key)%string = false ->
  Get (JObject ((k, v) :: fields)) key = Get (JObject fields) key.
Proof. intros E. simpl. now rewrite E. Qed.

(** X2. The errors come from [theme], [name], [colors] and [navigation]
    alone: when the validator returns with and without another field, it
    returns the same errors. *)
Lemma added_field_keeps_errors fields k v result result' :
  existsb (String.eqb k) ["theme"; "name"; "colors"; "navigation"]%string
  = false ->
  Sandbox.validateDocsJson (JObject fields) = Normal result ->
  Sandbox.validateDocsJson (JObject ((k, v) :: fields)) = Normal result' ->
  errors result' = errors result.
Proof.
  intros Hkey Hrun Hrun'. cbn [existsb] in Hkey.
  repeat (apply orb_false_elim in Hkey; destruct Hkey as [? Hkey]).
  rewrite validateDocsJson_in_order in Hrun, Hrun'.
  assert (validateRequiredFields (JObject ((k, v) :: fields)) []
          = validateRequiredFields (JObject fields) []) as E1.
  { unfold validateRequiredFields. now rewrite !Get_added_field. }
  assert (validateColors (JObject ((k, v) :: fields)) []
          = validateColors (JObject fields) []) as E2.
  { unfold validateColors. now rewrite !Get_added_field. }
  assert (validateNavigation (JObject ((k, v) :: fields)) [] []
          = validateNavigation (JObject fields) [] []) as E3.
  { unfold validateNavigation. now rewrite !Get_added_field. }
  rewrite E1, E2, E3 in Hrun'.
  destruct (validateRequiredFields (JObject fields) []); [|discriminate].
  destruct (validateColors (JObject fields) []); [|discriminate].
  destruct (validateNavigation (JObject fields) [] []) as [[e w]|];
    [|discriminate].
  cbn [bind] in Hrun, Hrun'. invert_binds.
  injection Hrun as <-. injection Hrun' as <-. reflexivity.
Qed.

(** C8, on the code. The passing document of the first scenario has no
    error. With the field [favicon] added, bound to the object of variants
    that the first variant accepts, the current validator throws at
    [config.favicon.match] and returns no result; the first variant
    returns a result without errors. Were the validator to return, its
    errors would be unchanged ([added_field_keeps_errors]). *)
Theorem favicon_variants_throw :
  let added := JObject (("favicon", favicon_variants) :: passing_fields) in
  Sandbox.validateDocsJson passing_document
  = Normal (result_of [] four_hints)
  /\ Sandbox.validateDocsJson added = Throw (TypeError (NotAFunction "match"))
  /\ Sandbox.validate_text (fun _ => Normal added) "{}"
     = Throw (TypeError (NotAFunction "match"))
  /\ (exists result,
        LegacyApi.validateDocsJson added = Normal result
        /\ errors result = [] /\ isValid result = true).
Proof.
  repeat split. eexists. repeat split; reflexivity.
Qed.

(** ** The memoised result *)

(** X1. [validationResult] is computed again only when [parsedConfig]
    changes. While [parsedConfig] stays [null], the result held is kept:
    after the editor is cleared, a text that does not parse shows no
    error. *)
Lemma stale_result_after_null JSON_parse previous text error :
  parsed_value (parsed_memo previous) = JNull ->
  JSON_parse text = Throw error ->
  exists next,
    Sandbox.render JSON_parse previous text = Normal next
    /\ result_memo next = result_memo previous.
Proof.
  intros Hnull Hparse. unfold render.
  assert (Object_is (parsed_memo previous)
            (if (parsed_for (parsed_memo previous) =? text)%string
             then parsed_memo previous
             else {| parsed_for := text;
                     parsed_value := parsedConfig JSON_parse text;
                     parsed_at := renders previous |}) = true) as ->.
  { unfold Object_is. rewrite Hnull.
    destruct (_ =? _)%string; [now rewrite Hnull|].
    cbn [parsed_value]. unfold parsedConfig. rewrite Hparse.
    now destruct (blank text). }
  cbn [bind]. eexists. split; reflexivity.
Qed.

(** Mounting, loading a document, clearing the editor and typing a text
    that does not parse: the result stays [null]. *)
Example no_error_after_clearing :
  let JSON_parse text :=
    if (text =? "{}")%string then Normal (JObject [])
    else rejecting_parser text in
  (mounted <- Sandbox.mount JSON_parse ;;
   loaded <- Sandbox.render JSON_parse mounted "{}" ;;
   cleared <- Sandbox.render JSON_parse loaded "" ;;
   typed <- Sandbox.render JSON_parse cleared "{not json" ;;
   Normal (result_memo loaded, result_memo cleared, result_memo typed))
  = Normal (Some (result_of four_required four_hints), None, None).
Proof. reflexivity. Qed.

(** X1 on the first render followed by a text that does not parse. *)
Lemma stale_result_after_null_witness :
  let mounted :=
    {| renders := 1;
       parsed_memo := {| parsed_for := ""; parsed_value := JNull;
                         parsed_at := 0 |};
       result_memo := None |} in
  Sandbox.mount rejecting_parser = Normal mounted
  /\ exists next,
       Sandbox.render rejecting_parser mounted "{not json" = Normal next
       /\ result_memo next = None.
Proof.
  split; [reflexivity|].
  exact (stale_result_after_null rejecting_parser
           {| renders := 1;
              parsed_memo := {| parsed_for := ""; parsed_value := JNull;
                                parsed_at := 0 |};
              result_memo := None |}
           "{not json" (SyntaxError "Unexpected token") eq_refl eq_refl).
Defined.

(** X2 on the passing document with a [description] added. *)
Lemma added_field_keeps_errors_witness :
  errors (result_of [] [schema_hint; favicon_hint; logo_hint])
  = errors (result_of [] four_hints).
Proof.
  exact (added_field_keeps_errors passing_fields "description"
           (JString "Docs") (result_of [] four_hints)
           (result_of [] [schema_hint; favicon_hint; logo_hint])
           eq_refl eq_refl eq_refl).
Defined.

(** * Further properties

    Properties of the code beside the claims: the scanner and the
    navigation tree of the preview, the preview behind the validation,
    the two memo cells over any sequence of renders, the checks on values
    of other shapes, the documents the component loads itself, and the
    earlier variants compared with each other and with the current
    one. *)

Import Preview.

(** ** The scanner warns of reserved paths only *)

Lemma adds_reserved_refl warnings : adds_reserved warnings warnings.
Proof. exists []. now rewrite app_nil_r. Qed.

Lemma adds_reserved_trans a b c :
  adds_reserved a b -> adds_reserved b c -> adds_reserved a c.
Proof.
  intros (x & -> & Hx) (y & -> & Hy). exists (x ++ y).
  split; [now rewrite app_assoc | now apply Forall_app].
Qed.

Lemma adds_reserved_Normal a b :
  Normal a = Normal b -> adds_reserved a b.
Proof. intros [= <-]. apply adds_reserved_refl. Qed.

Lemma scan_loop_sound context items :
  Forall scans_soundly items ->
  forall index warnings out,
    forEachFrom (scan_item context) items index warnings = Normal out ->
    adds_reserved warnings out.
Proof.
  induction 1 as [|item items [_ Hitem] _ IH]; intros index warnings out Hrun.
  - now apply adds_reserved_Normal.
  - cbn [forEachFrom] in Hrun. apply bind_inv in Hrun as (mid & Hfirst & Hrest).
    eapply adds_reserved_trans; [exact (Hitem _ _ _ _ Hfirst)|].
    exact (IH _ _ _ Hrest).
Qed.

Lemma scan_nested_sound fields key (named : completion string) warnings out :
  Forall (fun kv => scans_soundly (snd kv)) fields ->
  (if ToBoolean (own_property key fields) then
     context <- named ;;
     checkNavigationPaths (own_property key fields) warnings context
   else Normal warnings) = Normal out ->
  adds_reserved warnings out.
Proof.
  intros IH Hrun.
  destruct (own_property_shape key fields) as [E | [v E]]; rewrite E in Hrun.
  - now apply adds_reserved_Normal.
  - destruct (ToBoolean v); [|now apply adds_reserved_Normal].
    apply bind_inv in Hrun as (context & _ & Hrun).
    exact (proj1 (own_property_Forall scans_soundly _ _ _ IH E) _ _ _ Hrun).
Qed.

Lemma check_href_sound context fields warnings :
  adds_reserved warnings (check_href fields warnings context).
Proof.
  unfold check_href.
  destruct (own_property "href" fields) as [|[| | |href| |]|];
    try apply adds_reserved_refl.
  destruct (negb (href =? "")); [|apply adds_reserved_refl].
  destruct (negb (startsWith href "http")); [|apply adds_reserved_refl].
  destruct (includes (split "/" href) "mcp") eqn:E; [|apply adds_reserved_refl].
  eexists. split; [reflexivity|]. constructor; [|constructor].
  exists context, href. auto.
Qed.

Lemma scanner_sound j : scans_soundly j.
Proof.
  induction j as [| | |page|items IH|fields IH] using json_ind;
    try (split; intros * Hrun; now apply adds_reserved_Normal).
  - split; [intros * Hrun; now apply adds_reserved_Normal|].
    intros context index warnings out Hrun. cbn [scan_item] in Hrun.
    destruct (includes (split "/" page) "mcp") eqn:E;
      [|now apply adds_reserved_Normal].
    injection Hrun as <-. eexists. split; [reflexivity|].
    constructor; [|constructor]. exists context, page. auto.
  - split; [|intros * Hrun; now apply adds_reserved_Normal].
    intros context warnings out Hrun.
    change (checkNavigationPaths_json (JArray items) warnings context)
      with (checkNavigationPaths (JArray items) warnings context) in Hrun.
    rewrite checkNavigationPaths_forEach in Hrun.
    exact (scan_loop_sound _ _ IH _ _ _ Hrun).
  - split; [intros * Hrun; now apply adds_reserved_Normal|].
    intros context index warnings out Hrun. cbn [scan_item] in Hrun.
    apply bind_inv in Hrun as (scanned & Hchildren & Hhref).
    injection Hhref as <-. unfold scan_children in Hchildren.
    apply bind_inv in Hchildren as (pages & Hpages & Hchildren).
    apply bind_inv in Hchildren as (groups & Hgroups & Hmenu).
    apply (scan_nested_sound fields "pages" _ _ _ IH) in Hpages.
    apply (scan_nested_sound fields "groups" (Normal context) _ _ IH)
      in Hgroups.
    apply (scan_nested_sound fields "menu" _ _ _ IH) in Hmenu.
    eauto using adds_reserved_trans, check_href_sound.
Qed.

(** X3. The scanner has no false positive and drops nothing: whenever it
    returns, whatever the items and the context, it returns the warnings
    it was handed followed by warnings that each name a page or an
    [href] with an [mcp] segment. *)
Theorem scanner_warns_reserved_only (items : value) (context : string)
  (warnings out : list string) :
  checkNavigationPaths items warnings context = Normal out ->
  exists added,
    out = warnings ++ added
    /\ Forall
         (fun w =>
            exists context' path,
              includes (split "/" path) "mcp" = true
              /\ (w = reserved_page_warning context' path
                  \/ w = reserved_href_warning context' path))
         added.
Proof.
  intros Hrun. destruct items as [|j|]; try now apply adds_reserved_Normal.
  exact (proj1 (scanner_sound j) _ _ _ Hrun).
Qed.

(** X3 on a page and on a page that only holds the letters. *)
Lemma scanner_warns_reserved_only_witness :
  (exists added,
      [reserved_page_warning "Root navigation" "guides/mcp/setup"]
      = [] ++ added
      /\ Forall
           (fun w =>
              exists context' path,
                includes (split "/" path) "mcp" = true
                /\ (w = reserved_page_warning context' path
                    \/ w = reserved_href_warning context' path))
           added)
  /\ checkNavigationPaths (JArray [JString "guides/mcp-server"]) []
       "Root navigation"
     = Normal [].
Proof.
  split; [|reflexivity].
  exact (scanner_warns_reserved_only
           (JArray [JString "guides/mcp/setup"]) "Root navigation" []
           [reserved_page_warning "Root navigation" "guides/mcp/setup"]
           eq_refl).
Defined.

(** ** The scanner and the navigation tree *)

Lemma mapFrom_ext {X Y : Type} (f g : X -> nat -> Y) items :
  Forall (fun x => forall i, f x i = g x i) items ->
  forall index, mapFrom f items index = mapFrom g items index.
Proof.
  induction 1 as [|x rest Hx _ IH]; intros index; [reflexivity|].
  cbn [mapFrom]. rewrite Hx. f_equal. apply IH.
Qed.

Lemma render_nested_own fields key depth :
  with_property key
    (fun children =>
       if ToBoolean children
       then Shown (renderNavigationItems_json children depth)
       else Skipped children)
    (Skipped Undefined) fields
  = render_nested fields key depth.
Proof.
  rewrite with_property_own. unfold render_nested, and_then.
  destruct (own_property_shape key fields) as [-> | [v ->]]; reflexivity.
Qed.

Lemma renderNavigationItems_map items depth :
  renderNavigationItems (JArray items) depth
  = Nodes (mapFrom (render_item depth) items 0).
Proof.
  cbn [renderNavigationItems renderNavigationItems_json]. f_equal.
  apply mapFrom_ext, Forall_forall. intros item _ index.
  destruct item; try reflexivity; cbn [render_item]; unfold render_block;
    now rewrite ?render_nested_own.
Qed.


Lemma pages_context_given context fields :
  context <> "" -> pages_context context fields = Normal context.
Proof.
  intros H. unfold pages_context.
  destruct (String.eqb_spec context ""); [contradiction|reflexivity].
Qed.

Lemma menu_context_given context fields :
  context <> "" -> menu_context context fields = Normal context.
Proof.
  intros H. unfold menu_context.
  destruct (String.eqb_spec context ""); [contradiction|reflexivity].
Qed.

Lemma scan_loop_as_shown context depth items :
  Forall (scans_as_shown context) items ->
  forall index warnings,
    forEachFrom (scan_item context) items index warnings
    = Normal (warnings
              ++ warnings_shown context
                   (Nodes (mapFrom (render_item depth) items index))).
Proof.
  unfold warnings_shown. cbn [paths].
  induction 1 as [|item items [_ Hitem] _ IH]; intros index warnings.
  - cbn. now rewrite app_nil_r.
  - cbn [forEachFrom mapFrom flat_map].
    rewrite (Hitem index warnings depth). cbn [bind].
    fold (forEachFrom (scan_item context)).
    rewrite (IH (S index)). unfold warnings_shown.
    now rewrite flat_map_app, app_assoc.
Qed.

Lemma scan_nested_as_shown context fields key depth warnings :
  Forall (fun kv => scans_as_shown context (snd kv)) fields ->
  (if ToBoolean (own_property key fields)
   then checkNavigationPaths (own_property key fields) warnings context
   else Normal warnings)
  = Normal (warnings
            ++ flat_map (path_warnings context)
                 match render_nested fields key depth with
                 | Shown children => paths children
                 | Skipped _ => []
                 end).
Proof.
  intros IH. unfold render_nested, and_then.
  destruct (own_property_shape key fields) as [E | [v E]]; rewrite E.
  - cbn. now rewrite app_nil_r.
  - destruct (ToBoolean v); [|cbn; now rewrite app_nil_r].
    apply (own_property_Forall (scans_as_shown context) _ _ _ IH E).
Qed.

Lemma check_href_as_shown context fields (depth : nat) warnings :
  check_href fields warnings context
  = warnings
    ++ flat_map (path_warnings context)
         match and_then (own_property "href" fields)
                 (depth, own_property "href" fields) with
         | Shown (_, href) => [Href href]
         | Skipped _ => []
         end.
Proof.
  unfold check_href, and_then.
  destruct (own_property "href" fields) as [|[|b|n|href|items|entries]|name];
    cbn [ToBoolean]; try (cbn; now rewrite app_nil_r).
  - destruct b; cbn; now rewrite app_nil_r.
  - destruct (negb (number_is_zero n)); cbn; now rewrite app_nil_r.
  - destruct (negb (href =? "")); [|cbn; now rewrite app_nil_r].
    cbn [flat_map path_warnings].
    destruct (negb (startsWith href "http")); cbn [andb];
      [|cbn; now rewrite app_nil_r].
    destruct (includes (split "/" href) "mcp"); cbn; [reflexivity|].
    now rewrite app_nil_r.
Qed.

Lemma scanner_as_shown context j : context <> "" -> scans_as_shown context j.
Proof.
  intros Hcontext.
  induction j as [| | |page|items IH|fields IH] using json_ind;
    try (split; intros; cbn; now rewrite app_nil_r).
  - split; [intros; cbn; now rewrite app_nil_r|].
    intros index warnings depth. cbn [scan_item render_item].
    unfold warnings_shown. cbn [paths flat_map path_warnings].
    destruct (includes (split "/" page) "mcp"); [reflexivity|].
    cbn. now rewrite app_nil_r.
  - split; [|intros; cbn; now rewrite app_nil_r].
    intros warnings depth.
    change (checkNavigationPaths_json (JArray items) warnings context)
      with (checkNavigationPaths (JArray items) warnings context).
    change (renderNavigationItems_json (JArray items) depth)
      with (renderNavigationItems (JArray items) depth).
    rewrite checkNavigationPaths_forEach, renderNavigationItems_map.
    now apply scan_loop_as_shown.
  - split; [intros; cbn; now rewrite app_nil_r|].
    intros index warnings depth. cbn [scan_item render_item].
    unfold scan_children, render_block, warnings_shown. cbn [paths].
    rewrite pages_context_given, menu_context_given by assumption.
    cbn [bind].
    rewrite (scan_nested_as_shown context fields "pages" (depth + 1) _ IH).
    cbn [bind].
    rewrite (scan_nested_as_shown context fields "groups" (depth + 1) _ IH).
    cbn [bind].
    rewrite (scan_nested_as_shown context fields "menu" (depth + 1) _ IH).
    cbn [bind].
    rewrite (check_href_as_shown context fields ((depth + 1) * 12)).
    now rewrite !flat_map_app, !app_assoc.
Qed.

(** X4. Under a context the scanner warns about what the preview shows: its
    warnings are those of the pages and [href]s in the tree that
    [renderNavigationItems] builds of the same items, in the order of the
    tree, whatever the depth. *)
Theorem scanner_warns_what_is_shown (items : value) (context : string)
  (warnings : list string) (depth : nat) :
  context <> "" ->
  checkNavigationPaths items warnings context
  = Normal (warnings
            ++ flat_map (path_warnings context)
                 (paths (renderNavigationItems items depth))).
Proof.
  intros Hcontext.
  destruct items as [|j|]; try (cbn; now rewrite app_nil_r).
  apply (scanner_as_shown context j Hcontext).
Qed.

(** X4 on a tab with a menu, a reserved page and a reserved [href]. *)
Lemma scanner_warns_what_is_shown_witness :
  let items :=
    JArray
      [JObject
         [("tab", JString "Guides");
          ("menu",
           JArray [JObject [("item", JString "Setup");
                            ("pages", JArray [JString "guides/mcp/setup"]);
                            ("href", JString "mcp/reference")]])]] in
  checkNavigationPaths items [] "Root navigation"
  = Normal [reserved_page_warning "Root navigation" "guides/mcp/setup";
            reserved_href_warning "Root navigation" "mcp/reference"]
  /\ paths (renderNavigationItems items 0)
     = [Page "guides/mcp/setup"; Href (JString "mcp/reference")].
Proof.
  split; [|reflexivity].
  exact (scanner_warns_what_is_shown
           (JArray
              [JObject
                 [("tab", JString "Guides");
                  ("menu",
                   JArray [JObject [("item", JString "Setup");
                                    ("pages",
                                     JArray [JString "guides/mcp/setup"]);
                                    ("href", JString "mcp/reference")]])]])
           "Root navigation" [] 0 ltac:(discriminate)).
Defined.

Lemma indented_nested fields key depth :
  (forall v, own_property key fields = Json v ->
             indented (S depth) (renderNavigationItems v (depth + 1)) = true) ->
  match render_nested fields key (depth + 1) with
  | Shown children => indented (S depth) children
  | Skipped _ => true
  end = true.
Proof.
  intros IH. unfold render_nested, and_then.
  destruct (own_property_shape key fields) as [E | [v E]]; rewrite E;
    [reflexivity|].
  destruct (ToBoolean v); [|reflexivity]. now apply IH.
Qed.

Lemma block_indented depth fields index :
  Forall (fun kv => renders_indented (snd kv)) fields ->
  indented depth (render_block depth fields index) = true.
Proof.
  intros IH. unfold render_block. cbn [indented].
  assert (forall key,
            match render_nested fields key (depth + 1) with
            | Shown children => indented (S depth) children
            | Skipped _ => true
            end = true) as Hnested.
  { intros key. apply indented_nested. intros v E.
    replace (depth + 1) with (S depth) by lia.
    apply (own_property_Forall renders_indented _ _ _ IH E). }
  rewrite !Hnested. unfold and_then.
  replace (depth * 12) with (12 * depth) by lia. rewrite Nat.eqb_refl.
  destruct (ToBoolean (own_property "href" fields)); [|reflexivity].
  replace ((depth + 1) * 12) with (12 * S depth) by lia.
  now rewrite Nat.eqb_refl.
Qed.

Lemma render_indented j : renders_indented j.
Proof.
  induction j as [| | |page|items IH|fields IH] using json_ind;
    try (split; intros; reflexivity).
  - split; [reflexivity|]. intros depth index. cbn.
    replace (depth * 12) with (12 * depth) by lia. apply Nat.eqb_refl.
  - split.
    + intros depth.
      change (renderNavigationItems_json (JArray items) depth)
        with (renderNavigationItems (JArray items) depth).
      rewrite renderNavigationItems_map. cbn [indented]. generalize 0.
      induction IH as [|item items [_ Hitem] _ IHitems]; intros index;
        [reflexivity|].
      cbn [mapFrom forallb]. now rewrite Hitem, IHitems.
    + intros depth index. cbn [render_item]. now apply block_indented.
  - split; [reflexivity|]. intros depth index. cbn [render_item].
    now apply block_indented.
Qed.

(** X5. [renderNavigationItems] indents by nesting: in the tree it builds
    at [depth], a row or a block [n] levels down has a left margin of
    [12 * (depth + n)] pixels, and the [href] of a block the margin of
    the block's children. *)
Theorem renderNavigationItems_indents (items : value) (depth : nat) :
  indented depth (renderNavigationItems items depth) = true.
Proof.
  destruct items as [|j|]; try reflexivity. apply render_indented.
Qed.

(** X6. The item that a warning names is the title that the preview
    shows, when the scanner and the preview, which look for the name of
    an item in different orders, find the same one. Without a context the
    scanner names the pages of an item by the first truthy of [group],
    [item], [tab], [anchor], [dropdown]; the preview titles the item by
    the first truthy of [group], [tab], [anchor], [dropdown], [item]. *)
Theorem scanner_names_the_title (fields : list (string * json))
  (depth index : nat) :
  named_alike fields = true ->
  pages_context "" fields
  = (shown <- ToString (title_of (render_block depth fields index)) ;;
     Normal ("Navigation item '" ++ shown ++ "'")%string).
Proof.
  unfold named_alike, pages_context, render_block. cbn [title_of negb].
  cbn [String.eqb]. unfold or_else.
  destruct (ToBoolean (own_property "group" fields)); [reflexivity|].
  cbn [orb].
  destruct (ToBoolean (own_property "item" fields)).
  - destruct (ToBoolean (own_property "tab" fields)); [discriminate|].
    destruct (ToBoolean (own_property "anchor" fields)); [discriminate|].
    destruct (ToBoolean (own_property "dropdown" fields)); [discriminate|].
    reflexivity.
  - destruct (ToBoolean (own_property "tab" fields)); [reflexivity|].
    destruct (ToBoolean (own_property "anchor" fields)); [reflexivity|].
    destruct (ToBoolean (own_property "dropdown" fields)); [reflexivity|].
    discriminate.
Qed.

(** X6 on an anchor; an item with a [tab] and an [item], and an item
    without a name, are named differently. *)
Lemma scanner_names_the_title_witness :
  pages_context "" [("anchor", JString "Help")]
  = Normal "Navigation item 'Help'"
  /\ pages_context "" [("tab", JString "Guides"); ("item", JString "Setup")]
     = Normal "Navigation item 'Setup'"
  /\ title_of (render_block 0 [("tab", JString "Guides");
                               ("item", JString "Setup")] 0)
     = JString "Guides"
  /\ pages_context "" [] = Normal "Navigation item 'undefined'"
  /\ title_of (render_block 0 [] 0) = JString "Unknown".
Proof.
  split; [|repeat split].
  exact (scanner_names_the_title [("anchor", JString "Help")] 0 0 eq_refl).
Defined.

(** ** The preview behind the validation *)

Import ConfigurationPreview.

Lemma Get_not_null (j : json) k v : Get j k = Normal v -> j <> JNull.
Proof. now intros H ->. Qed.

Lemma Get_returns (j : json) k : j <> JNull -> returns (Get j k).
Proof.
  intros H. destruct j; try contradiction; cbn; try apply returns_Normal.
  destruct (_ =? _); apply returns_Normal.
Qed.

Lemma forEachFrom_read {S : Type} (cb : json -> nat -> S -> completion S)
  items :
  (forall entry index s s', cb entry index s = Normal s' -> entry <> JNull) ->
  forall index s s',
    forEachFrom cb items index s = Normal s' ->
    Forall (fun entry => entry <> JNull) items.
Proof.
  intros Hcb. induction items as [|entry items IH]; intros index s s' Hrun;
    [constructor|].
  cbn [forEachFrom] in Hrun. apply bind_inv in Hrun as (mid & Hentry & Hrest).
  constructor; [exact (Hcb _ _ _ _ Hentry) | exact (IH _ _ _ Hrest)].
Qed.

Lemma Array_forEach_read {S : Type} entries
  (cb : json -> nat -> S -> completion S) s s' :
  (forall entry index s s', cb entry index s = Normal s' -> entry <> JNull) ->
  Array_forEach entries cb s = Normal s' ->
  exists items, entries = Json (JArray items)
                /\ Forall (fun entry => entry <> JNull) items.
Proof.
  intros Hcb Hrun. destruct entries as [|[| | | |items|]|]; try discriminate.
  exists items. split; [reflexivity|].
  exact (forEachFrom_read cb items Hcb _ _ _ Hrun).
Qed.

Lemma guarded_forEach_read {S : Type} entries
  (cb : json -> nat -> S -> completion S) s s' :
  (forall entry index s s', cb entry index s = Normal s' -> entry <> JNull) ->
  (if ToBoolean entries then Array_forEach entries cb s else Normal s)
  = Normal s' ->
  entries_read entries.
Proof.
  intros Hcb Hrun. destruct (ToBoolean entries) eqn:E; [right|now left].
  exact (Array_forEach_read _ _ _ _ Hcb Hrun).
Qed.

Lemma validate_entries_read entries cb context e w e' w' :
  (forall entry index s s', cb entry index s = Normal s' -> entry <> JNull) ->
  validate_entries entries cb context e w = Normal (e', w') ->
  entries_read entries.
Proof.
  intros Hcb Hrun. unfold validate_entries in Hrun.
  destruct (ToBoolean entries) eqn:E; [right|now left].
  apply bind_inv in Hrun as (e1 & Hloop & _).
  exact (Array_forEach_read _ _ _ _ Hcb Hloop).
Qed.

Lemma version_entry_read entry index s s' :
  version_entry entry index s = Normal s' -> entry <> JNull.
Proof.
  destruct s as [e w]. unfold version_entry, named_entry. intros Hrun.
  apply bind_inv in Hrun as (e1 & Hrun & _).
  apply bind_inv in Hrun as (name & Hname & _).
  exact (Get_not_null _ _ _ Hname).
Qed.

Lemma language_entry_read entry index s s' :
  language_entry entry index s = Normal s' -> entry <> JNull.
Proof.
  destruct s as [e w]. unfold language_entry. intros Hrun.
  apply bind_inv in Hrun as (code & Hcode & _).
  exact (Get_not_null _ _ _ Hcode).
Qed.

Lemma global_anchor_entry_read entry index s s' :
  global_anchor_entry entry index s = Normal s' -> entry <> JNull.
Proof.
  unfold global_anchor_entry. intros Hrun.
  apply bind_inv in Hrun as (name & Hname & _).
  exact (Get_not_null _ _ _ Hname).
Qed.

Lemma errors_stay_empty
  (f : list string * list string -> completion (list string * list string))
  e w w' :
  appends2 f -> f (e, w) = Normal ([], w') -> e = [].
Proof.
  intros Hf Hrun. destruct e as [|m e]; [reflexivity|].
  destruct (appends2_keeps f (m :: e) w [] w' m Hf Hrun (or_introl eq_refl)).
Qed.

(** A loop over the languages that ends without an error found a truthy
    [language] in every entry. *)
Lemma languages_without_error items :
  forall index e w w',
    forEachFrom language_entry items index (e, w) = Normal ([], w') ->
    Forall language_named items.
Proof.
  induction items as [|language items IH]; intros index e w w' Hrun;
    [constructor|].
  cbn [forEachFrom] in Hrun. apply bind_inv in Hrun as ([e1 w1] & Hentry & Hrest).
  fold (forEachFrom language_entry) in Hrest.
  constructor; [|exact (IH _ _ _ _ Hrest)].
  assert (e1 = []) as ->.
  { apply (errors_stay_empty
             (forEachFrom language_entry items (S index)) e1 w1 w');
      [|exact Hrest].
    apply appends_forEachFrom; auto with frame.
    apply Forall_forall. intros ? _ ?. apply language_entry_appends. }
  unfold language_entry in Hentry.
  apply bind_inv in Hentry as (code & Hcode & Hentry).
  exists code. split; [exact Hcode|].
  destruct (ToBoolean code); [reflexivity|]. exfalso.
  cbn [negb bind] in Hentry.
  apply bind_inv in Hentry as (w2 & _ & Hentry).
  injection Hentry as Hentry _. unfold push in Hentry.
  now destruct e.
Qed.

Lemma value_Get_returns (v : value) k v' :
  Get v k = Normal v' -> forall key, returns (Get v key).
Proof.
  intros H key. destruct v as [|j|name]; [discriminate| |].
  - apply Get_returns. exact (Get_not_null _ _ _ H).
  - cbn. destruct (_ =? _); apply returns_Normal.
Qed.

Lemma navigation_without_error (config : value) warnings :
  validateNavigation config [] [] = Normal ([], warnings) ->
  exists navigation,
    Get config "navigation" = Normal navigation
    /\ navigation_valid navigation.
Proof.
  unfold validateNavigation. intros Hrun.
  apply bind_inv in Hrun as (navigation & Hnavigation & Hrun).
  exists navigation. split; [exact Hnavigation|].
  destruct (ToBoolean navigation) eqn:Htruthy; [|discriminate].
  cbn [negb] in Hrun.
  apply bind_inv in Hrun as (pages & Hpages & Hrun).
  apply bind_inv in Hrun as (w1 & _ & Hrun).
  apply bind_inv in Hrun as (groups & _ & Hrun).
  apply bind_inv in Hrun as ([e2 w2] & _ & Hrun).
  apply bind_inv in Hrun as (tabs & _ & Hrun).
  apply bind_inv in Hrun as ([e3 w3] & _ & Hrun).
  apply bind_inv in Hrun as (anchors & _ & Hrun).
  apply bind_inv in Hrun as ([e4 w4] & _ & Hrun).
  apply bind_inv in Hrun as (dropdowns & _ & Hrun).
  apply bind_inv in Hrun as ([e5 w5] & _ & Hrun).
  apply bind_inv in Hrun as (versions & Hversions & Hrun).
  apply bind_inv in Hrun as ([e6 w6] & Hversions_loop & Hrun).
  apply bind_inv in Hrun as (languages & Hlanguages & Hrun).
  apply bind_inv in Hrun as ([e7 w7] & Hlanguages_loop & Hrun).
  apply bind_inv in Hrun as (global & Hglobal & Hrun).
  apply bind_inv in Hrun as (global_anchors & Hanchors & Hrun).
  assert (e7 = []) as ->.
  { destruct e7 as [|m e7]; [reflexivity|].
    destruct (validate_entries_keeps _ _ _ _ _ _ _ m
                global_anchor_entry_appends Hrun (or_introl eq_refl)). }
  split.
  - exact Htruthy.
  - exact (value_Get_returns _ _ _ Hpages).
  - intros versions' E. rewrite Hversions in E. injection E as <-.
    exact (guarded_forEach_read _ _ _ _ version_entry_read Hversions_loop).
  - intros languages' E. rewrite Hlanguages in E. injection E as <-.
    split.
    + exact (guarded_forEach_read _ _ _ _ language_entry_read
               Hlanguages_loop).
    + intros items ->. cbn [ToBoolean Array_forEach] in Hlanguages_loop.
      exact (languages_without_error _ _ _ _ _ Hlanguages_loop).
  - exists global, global_anchors. repeat split; try assumption.
    exact (validate_entries_read _ _ _ _ _ _ _ global_anchor_entry_read Hrun).
Qed.

Lemma mapFromM_cases {X Y : Type} (ok : X -> bool)
  (cb : X -> nat -> completion Y) (error : js_error) items :
  Forall (fun x => forall index,
            if ok x then returns (cb x index) else cb x index = Throw error)
    items ->
  forall index,
    if forallb ok items then returns (mapFromM cb items index)
    else mapFromM cb items index = Throw error.
Proof.
  induction 1 as [|x rest Hx _ IH]; intros index; cbn [mapFromM forallb].
  - apply returns_Normal.
  - specialize (Hx index). specialize (IH (S index)).
    destruct (ok x); cbn [andb]; [|now rewrite Hx].
    destruct Hx as [y ->]. cbn [bind].
    destruct (forallb ok rest); [|now rewrite IH].
    destruct IH as [ys ->]. apply returns_Normal.
Qed.

(** [entries && entries.map(cb)] on a field a loop has read. *)
Lemma map_hole_cases {Y : Type} (ok : json -> bool) entries
  (cb : json -> nat -> completion Y) (error : js_error) :
  entries_read entries ->
  (forall items entry,
      entries = Json (JArray items) -> In entry items -> entry <> JNull ->
      forall index,
        if ok entry then returns (cb entry index)
        else cb entry index = Throw error) ->
  if match entries with
     | Json (JArray items) => forallb ok items
     | _ => true
     end
  then returns (and_thenM entries (Array_map entries cb))
  else and_thenM entries (Array_map entries cb) = Throw error.
Proof.
  intros [Hfalsy | (items & -> & Hitems)] Hcb; unfold and_thenM.
  - rewrite Hfalsy. destruct entries as [|[]|]; try discriminate;
      apply returns_Normal.
  - cbn [ToBoolean Array_map].
    pose proof (mapFromM_cases ok cb error items) as Hloop.
    assert (Forall (fun x => forall index,
                      if ok x then returns (cb x index)
                      else cb x index = Throw error) items) as Hall.
    { apply Forall_forall. intros entry Hin.
      apply (Hcb items entry eq_refl Hin).
      now apply (proj1 (Forall_forall _ _) Hitems). }
    specialize (Hloop Hall 0). destruct (forallb ok items).
    + destruct Hloop as [ys ->]. apply returns_Normal.
    + now rewrite Hloop.
Qed.

Lemma map_hole_returns {Y : Type} entries
  (cb : json -> nat -> completion Y) :
  entries_read entries ->
  (forall entry index, entry <> JNull -> returns (cb entry index)) ->
  returns (and_thenM entries (Array_map entries cb)).
Proof.
  intros Hentries Hcb.
  pose proof (map_hole_cases (fun _ => true) entries cb
                (SyntaxError "") Hentries) as H.
  assert (match entries with
          | Json (JArray items) => forallb (fun _ : json => true) items
          | _ => true
          end = true) as E.
  { destruct entries as [|[| | | |items|]|]; try reflexivity.
    now apply forallb_forall. }
  rewrite E in H. apply H. intros items entry _ _ Hentry index.
  now apply Hcb.
Qed.

Lemma scoped_trees_returns (owner : json) :
  owner <> JNull -> returns (scoped_trees owner).
Proof.
  intros H. unfold scoped_trees.
  repeat (apply returns_bind; [now apply Get_returns|intros ?]).
  apply returns_Normal.
Qed.

Lemma tree_hole_returns navigation key :
  returns (Get navigation key) -> returns (tree_hole navigation key).
Proof.
  intros H. unfold tree_hole. apply returns_bind; [exact H|intros ?].
  apply returns_Normal.
Qed.

(** The callback of the language navigation on a named language: it
    returns on a string and throws on any other truthy value. *)
Lemma language_navigation_cases (toUpperCase : string -> string)
  (language : json) index :
  language <> JNull -> language_named language ->
  let cb :=
    (code <- Get language "language" ;;
     upper <- string_method "toUpperCase" code toUpperCase ;;
     trees <- scoped_trees language ;;
     Normal {| scoped_key := index; scoped_label := upper;
               scoped_items := trees |}) in
  if language_is_string language then returns cb
  else cb = Throw (TypeError (NotAFunction "toUpperCase")).
Proof.
  intros Hread (code & Hcode & Htruthy). unfold language_is_string.
  rewrite Hcode. cbn [bind].
  destruct code as [|[| | |s| |]|]; try discriminate; cbn [typeof js_type_eqb];
    try reflexivity.
  cbn [string_method bind].
  apply returns_bind; [now apply scoped_trees_returns|intros ?].
  apply returns_Normal.
Qed.

Lemma navigation_holes_cases (toUpperCase : string -> string) navigation :
  navigation_valid navigation ->
  if match Get navigation "languages" with
     | Normal (Json (JArray items)) => forallb language_is_string items
     | _ => true
     end
  then returns (navigation_holes toUpperCase navigation)
  else navigation_holes toUpperCase navigation
       = Throw (TypeError (NotAFunction "toUpperCase")).
Proof.
  intros [Htruthy Hreads Hversions Hlanguages
          (global & anchors & Hglobal & Hanchors & Hanchors_read)].
  destruct (Hreads "versions") as [versions Eversions].
  destruct (Hreads "languages") as [languages Elanguages].
  specialize (Hversions _ Eversions).
  destruct (Hlanguages _ Elanguages) as [Hlanguages_read Hnamed].
  assert (returns (and_thenM versions
            (Array_map versions
               (fun version index =>
                  name <- Get version "version" ;; Normal (index, name)))))
    as [version_badges Eversion_badges].
  { apply map_hole_returns; [assumption|]. intros entry index Hentry.
    apply returns_bind; [now apply Get_returns|intros ?].
    apply returns_Normal. }
  assert (returns (and_thenM languages
            (Array_map languages
               (fun language index =>
                  code <- Get language "language" ;; Normal (index, code)))))
    as [language_badges Elanguage_badges].
  { apply map_hole_returns; [assumption|]. intros entry index Hentry.
    apply returns_bind; [now apply Get_returns|intros ?].
    apply returns_Normal. }
  assert (returns (and_thenM anchors
            (Array_map anchors
               (fun anchor index =>
                  name <- Get anchor "anchor" ;;
                  href <- Get anchor "href" ;;
                  Normal (index, name, href)))))
    as [global_anchors Eglobal_anchors].
  { apply map_hole_returns; [assumption|]. intros entry index Hentry.
    repeat (apply returns_bind; [now apply Get_returns|intros ?]).
    apply returns_Normal. }
  assert (returns (and_thenM versions
            (Array_map versions
               (fun version index =>
                  name <- Get version "version" ;;
                  trees <- scoped_trees version ;;
                  Normal {| scoped_key := index; scoped_label := name;
                            scoped_items := trees |}))))
    as [version_navigation Eversion_navigation].
  { apply map_hole_returns; [assumption|]. intros entry index Hentry.
    apply returns_bind; [now apply Get_returns|intros ?].
    apply returns_bind; [now apply scoped_trees_returns|intros ?].
    apply returns_Normal. }
  destruct (tree_hole_returns navigation "tabs" (Hreads _)) as [tabs Etabs].
  destruct (tree_hole_returns navigation "anchors" (Hreads _))
    as [anchors_tree Eanchors].
  destruct (tree_hole_returns navigation "dropdowns" (Hreads _))
    as [dropdowns Edropdowns].
  destruct (tree_hole_returns navigation "groups" (Hreads _))
    as [groups Egroups].
  destruct (tree_hole_returns navigation "pages" (Hreads _))
    as [pages Epages].
  unfold navigation_holes.
  rewrite Eversions, Elanguages, Hglobal. cbn [bind].
  rewrite Eversion_badges. cbn [bind]. rewrite Elanguage_badges. cbn [bind].
  rewrite Hanchors. cbn [bind]. rewrite Eglobal_anchors. cbn [bind].
  rewrite Etabs. cbn [bind]. rewrite Eanchors. cbn [bind].
  rewrite Edropdowns. cbn [bind]. rewrite Egroups. cbn [bind].
  rewrite Epages. cbn [bind]. rewrite Eversion_navigation. cbn [bind].
  pose proof (map_hole_cases language_is_string languages
                (fun language index =>
                   code <- Get language "language" ;;
                   upper <- string_method "toUpperCase" code toUpperCase ;;
                   trees <- scoped_trees language ;;
                   Normal {| scoped_key := index; scoped_label := upper;
                             scoped_items := trees |})
                (TypeError (NotAFunction "toUpperCase")) Hlanguages_read)
    as Hcases.
  match type of Hcases with
  | ?premise -> _ => assert premise as Hpremise
  end.
  { intros items language -> Hin Hread index.
    apply language_navigation_cases; [exact Hread|].
    exact (proj1 (Forall_forall _ _) (Hnamed items eq_refl) _ Hin). }
  specialize (Hcases Hpremise).
  destruct (match languages with
            | Json (JArray items) => forallb language_is_string items
            | _ => true
            end).
  - destruct Hcases as [language_navigation ->]. apply returns_Normal.
  - now rewrite Hcases.
Qed.

(** X7. The preview is behind the validation, which does not look at the
    type of a language. On a document that the validator finds valid the
    configuration preview is shown, and building it does not throw,
    when every [language] of [navigation.languages] is a string; when one
    is not, building it throws, at [language.language.toUpperCase()]. *)
Theorem valid_document_preview (toUpperCase : string -> string)
  (config : json) (result : ValidationResult) :
  Sandbox.validateDocsJson config = Normal result ->
  isValid result = true ->
  if languages_are_strings config then
    exists shown,
      ConfigurationPreview.configuration_preview toUpperCase config
        (Some result)
      = Normal (Shown shown)
  else
    ConfigurationPreview.configuration_preview toUpperCase config
      (Some result)
    = Throw (TypeError (NotAFunction "toUpperCase")).
Proof.
  intros Hrun Hvalid.
  destruct config as [|b|n|s|items|fields];
    try (cbn in Hrun; injection Hrun as <-; discriminate Hvalid);
    [discriminate Hrun|].
  unfold configuration_preview. cbn [ToBoolean]. rewrite Hvalid.
  rewrite validateDocsJson_in_order in Hrun.
  apply bind_inv in Hrun as (required & _ & Hrun).
  apply bind_inv in Hrun as (colors & _ & Hrun).
  apply bind_inv in Hrun as ([navigation_errors navigation_warnings]
                             & Hnavigation & Hrun).
  apply bind_inv in Hrun as (assets & _ & Hrun).
  apply bind_inv in Hrun as (integrations & _ & Hrun).
  apply bind_inv in Hrun as (practices & _ & Hrun).
  injection Hrun as <-. cbn [isValid result_of] in Hvalid.
  apply Nat.eqb_eq, length_zero_iff_nil in Hvalid.
  apply app_eq_nil in Hvalid as [_ Hvalid].
  apply app_eq_nil in Hvalid as [_ ->].
  apply navigation_without_error in Hnavigation
    as (navigation & Hget & Hnavigation).
  pose proof (navigation_holes_cases toUpperCase navigation Hnavigation)
    as Hcases.
  unfold languages_are_strings. rewrite Hget. cbn [bind].
  unfold configuration_holes. rewrite Hget. rewrite !Get_object. cbn [bind].
  assert (forall colors, returns (OptionalGet colors "primary")) as Hprimary.
  { intros [|[]|]; apply returns_Normal. }
  destruct (Hprimary (own_property "colors" fields)) as [primary ->].
  cbn [bind]. unfold and_thenM.
  rewrite (valid_truthy _ Hnavigation).
  destruct (match Get navigation "languages" with
            | Normal (Json (JArray items)) =>
                forallb language_is_string items
            | _ => true
            end).
  - destruct Hcases as [holes ->]. cbn [bind]. eauto.
  - now rewrite Hcases.
Qed.

(** X7 on the [multilingual] example, and on a document whose language
    is a number: the validator warns of the code and finds the document
    valid, and the preview throws. *)
Lemma valid_document_preview_witness :
  (exists shown,
      ConfigurationPreview.configuration_preview (fun s => s)
        (JObject multilingual_example)
        (Some (result_of [] [favicon_hint; logo_hint]))
      = Normal (Shown shown))
  /\ exists result,
       Sandbox.validateDocsJson numbered_language = Normal result
       /\ isValid result = true
       /\ ConfigurationPreview.configuration_preview (fun s => s)
            numbered_language (Some result)
          = Throw (TypeError (NotAFunction "toUpperCase")).
Proof.
  split.
  - exact (valid_document_preview (fun s => s) (JObject multilingual_example)
             (result_of [] [favicon_hint; logo_hint]) eq_refl eq_refl).
  - eexists. split; [reflexivity|]. split; [reflexivity|].
    exact (valid_document_preview (fun s => s) numbered_language _
             eq_refl eq_refl).
Defined.

(** ** The loops of [validateNavigation] *)

Lemma group_entry_read entry index s s' :
  group_entry entry index s = Normal s' -> entry <> JNull.
Proof.
  unfold group_entry. intros Hrun.
  apply bind_inv in Hrun as (name & Hname & _).
  exact (Get_not_null _ _ _ Hname).
Qed.

Lemma tab_entry_read entry index s s' :
  tab_entry entry index s = Normal s' -> entry <> JNull.
Proof.
  unfold tab_entry. intros Hrun.
  apply bind_inv in Hrun as (name & Hname & _).
  exact (Get_not_null _ _ _ Hname).
Qed.

Lemma named_entry_read label kind entry index s s' :
  named_entry label kind entry index s = Normal s' -> entry <> JNull.
Proof.
  unfold named_entry. intros Hrun.
  apply bind_inv in Hrun as (name & Hname & _).
  exact (Get_not_null _ _ _ Hname).
Qed.

(** A run of [validateNavigation] on a truthy navigation that returns
    has looped over arrays without [null]. *)
Lemma validateNavigation_read config navigation e w e' w' entries :
  Get config "navigation" = Normal navigation ->
  ToBoolean navigation = true ->
  validateNavigation config e w = Normal (e', w') ->
  looped_entries navigation entries ->
  entries_read entries.
Proof.
  intros Hnavigation Htruthy Hrun Hentries.
  unfold validateNavigation in Hrun. rewrite Hnavigation in Hrun.
  cbn [bind] in Hrun. rewrite Htruthy in Hrun. cbn [negb] in Hrun.
  apply bind_inv in Hrun as (pages & _ & Hrun).
  apply bind_inv in Hrun as (w1 & _ & Hrun).
  apply bind_inv in Hrun as (groups & Hgroups & Hrun).
  apply bind_inv in Hrun as ([e2 w2] & Hgroups_loop & Hrun).
  apply bind_inv in Hrun as (tabs & Htabs & Hrun).
  apply bind_inv in Hrun as ([e3 w3] & Htabs_loop & Hrun).
  apply bind_inv in Hrun as (anchors & Hanchors & Hrun).
  apply bind_inv in Hrun as ([e4 w4] & Hanchors_loop & Hrun).
  apply bind_inv in Hrun as (dropdowns & Hdropdowns & Hrun).
  apply bind_inv in Hrun as ([e5 w5] & Hdropdowns_loop & Hrun).
  apply bind_inv in Hrun as (versions & Hversions & Hrun).
  apply bind_inv in Hrun as ([e6 w6] & Hversions_loop & Hrun).
  apply bind_inv in Hrun as (languages & Hlanguages & Hrun).
  apply bind_inv in Hrun as ([e7 w7] & Hlanguages_loop & Hrun).
  apply bind_inv in Hrun as (global & Hglobal & Hrun).
  apply bind_inv in Hrun as (global_anchors & Hglobal_anchors & Hrun).
  destruct Hentries as [(key & Hkey & Hget) | (global' & Hget & Hoptional)].
  - cbn [In] in Hkey.
    repeat destruct Hkey as [<- | Hkey]; try contradiction.
    + rewrite Hgroups in Hget. injection Hget as <-.
      exact (validate_entries_read _ _ _ _ _ _ _ group_entry_read
               Hgroups_loop).
    + rewrite Htabs in Hget. injection Hget as <-.
      exact (validate_entries_read _ _ _ _ _ _ _ tab_entry_read Htabs_loop).
    + rewrite Hanchors in Hget. injection Hget as <-.
      exact (validate_entries_read _ _ _ _ _ _ _
               (named_entry_read "anchor" "anchor") Hanchors_loop).
    + rewrite Hdropdowns in Hget. injection Hget as <-.
      exact (validate_entries_read _ _ _ _ _ _ _
               (named_entry_read "dropdown" "dropdown") Hdropdowns_loop).
    + rewrite Hversions in Hget. injection Hget as <-.
      exact (guarded_forEach_read _ _ _ _ version_entry_read Hversions_loop).
    + rewrite Hlanguages in Hget. injection Hget as <-.
      exact (guarded_forEach_read _ _ _ _ language_entry_read
               Hlanguages_loop).
  - rewrite Hglobal in Hget. injection Hget as <-.
    rewrite Hglobal_anchors in Hoptional. injection Hoptional as <-.
    exact (validate_entries_read _ _ _ _ _ _ _ global_anchor_entry_read Hrun).
Qed.

Lemma not_returns_throws {A : Type} (c : completion A) :
  (forall a, c <> Normal a) -> throws c.
Proof.
  intros H. destruct c as [a|e]; [now destruct (H a)|now exists e].
Qed.

(** X8. The loops of [validateNavigation] are not guarded. When one of
    [groups], [tabs], [anchors], [dropdowns], [versions], [languages]
    and [global.anchors] is bound to a truthy value that is no array, or
    to an array that holds [null], [validateNavigation] throws, whatever
    else the document holds, and so do the validator and the pipeline of
    the current variant, which has no [catch] around them: a navigation
    that is no object passes, and an object with an ill-shaped array
    yields no result at all. *)
Theorem unguarded_loops_throw (config : json) (navigation entries : value) :
  Get config "navigation" = Normal navigation ->
  ToBoolean navigation = true ->
  looped_entries navigation entries ->
  ToBoolean entries = true ->
  match entries with
  | Json (JArray items) => In JNull items
  | _ => True
  end ->
  (forall errors warnings,
      throws (validateNavigation config errors warnings))
  /\ throws (Sandbox.validateDocsJson config)
  /\ forall JSON_parse text,
       blank text = false -> JSON_parse text = Normal config ->
       throws (Sandbox.validate_text JSON_parse text).
Proof.
  intros Hnavigation Htruthy Hentries Hfound Hshape.
  assert (~ entries_read entries) as Hnot.
  { intros [Hfalsy | (items & -> & Hitems)]; [congruence|].
    exact (proj1 (Forall_forall _ _) Hitems JNull Hshape eq_refl). }
  assert (forall errors warnings,
             throws (validateNavigation config errors warnings)) as Hthrows.
  { intros errors warnings. apply not_returns_throws. intros [e' w'] Hrun.
    exact (Hnot (validateNavigation_read _ _ _ _ _ _ _ Hnavigation Htruthy
                   Hrun Hentries)). }
  assert (throws (validateDocsJson config)) as Hvalidator.
  { apply not_returns_throws. intros result Hrun.
    rewrite validateDocsJson_in_order in Hrun.
    apply bind_inv in Hrun as (required & _ & Hrun).
    apply bind_inv in Hrun as (colors & _ & Hrun).
    apply bind_inv in Hrun as ([e' w'] & Hrun & _).
    destruct (Hthrows [] []) as [error E]. congruence. }
  repeat split; [exact Hthrows | exact Hvalidator |].
  intros JSON_parse text Hblank Hparse.
  rewrite (validate_text_parsed _ _ config Hblank Hparse).
  assert (ToBoolean config = true) as ->.
  { destruct config; try reflexivity;
      cbn in Hnavigation; try discriminate Hnavigation;
      injection Hnavigation as <-; discriminate Htruthy. }
  destruct Hvalidator as [error ->]. now exists error.
Qed.

(** X8 on [groups] bound to a string; a navigation that is itself a
    string passes. *)
Lemma unguarded_loops_throw_witness :
  let config :=
    JObject [("navigation", JObject [("groups", JString "guides")])] in
  throws (Sandbox.validateDocsJson config)
  /\ Sandbox.validateDocsJson
       (JObject [("navigation", JString "guides")])
     = Normal (result_of [theme_required; name_required; primary_required]
                 four_hints).
Proof.
  split; [|reflexivity].
  exact (proj1 (proj2 (unguarded_loops_throw
                         (JObject [("navigation",
                                    JObject [("groups", JString "guides")])])
                         (JObject [("groups", JString "guides")])
                         (JString "guides") eq_refl eq_refl
                         (or_introl (ex_intro _ "groups"
                                       (conj (or_introl eq_refl) eq_refl)))
                         eq_refl I))).
Defined.

(** ** The memo cells over renders *)

Lemma parsedConfig_not_blank JSON_parse text :
  parsedConfig JSON_parse text <> JNull -> blank text = false.
Proof. unfold parsedConfig. now destruct (blank text). Qed.

Lemma validationResult_null text :
  validationResult text JNull = Normal None
  \/ validationResult text JNull = Normal (Some parse_error_result).
Proof. unfold validationResult. destruct (blank text); auto. Qed.

Lemma number_eqb_eq m n : number_eqb m n = true -> m = n.
Proof.
  unfold number_eqb. intros H. apply andb_prop in H as [Hz Ht].
  apply Bool.eqb_prop in Hz. apply String.eqb_eq in Ht.
  destruct m, n. cbn in *. now subst.
Qed.

Lemma Object_is_refl cell : Object_is cell cell = true.
Proof.
  unfold Object_is. destruct (parsed_value cell) as [|b|n|s|items|fields];
    try reflexivity.
  - apply Bool.eqb_reflx.
  - unfold number_eqb. now rewrite Bool.eqb_reflx, String.eqb_refl.
  - apply String.eqb_refl.
  - apply Nat.eqb_refl.
  - apply Nat.eqb_refl.
Qed.

(** Two held values that [Object.is] identifies: both [null], or the same
    primitive, or values of the same parse. *)
Lemma Object_is_inv a b :
  Object_is a b = true ->
  (parsed_value a = parsed_value b /\ is_object (parsed_value a) = false
   /\ Array_isArray (parsed_value a) = false)
  \/ parsed_at a = parsed_at b.
Proof.
  unfold Object_is.
  destruct (parsed_value a) as [|x|x|x|x|x], (parsed_value b) as [|y|y|y|y|y];
    try discriminate; intros H;
    try (right; now apply Nat.eqb_eq);
    left; repeat split.
  - now apply Bool.eqb_prop in H; subst.
  - now apply number_eqb_eq in H; subst.
  - now apply String.eqb_eq in H; subst.
Qed.

Lemma render_keeps_invariant JSON_parse previous_text previous text c :
  memo_invariant JSON_parse previous_text previous ->
  render JSON_parse previous text = Normal c ->
  memo_invariant JSON_parse text c.
Proof.
  intros (Hfor & Hat & Hvalue & Hfresh & Hnull) Hrender.
  unfold render in Hrender. rewrite Hfor in Hrender.
  destruct (String.eqb_spec previous_text text) as [->|Hchanged].
  - rewrite Object_is_refl in Hrender. cbn [bind] in Hrender.
    injection Hrender as <-. unfold memo_invariant. cbn.
    repeat split; auto.
  - set (cell := {| parsed_for := text;
                    parsed_value := parsedConfig JSON_parse text;
                    parsed_at := renders previous |}) in Hrender.
    destruct (Object_is (parsed_memo previous) cell) eqn:Hsame.
    + cbn [bind] in Hrender. injection Hrender as <-.
      apply Object_is_inv in Hsame as [(Hequal & _ & _) | Hstamp];
        [|cbn in Hstamp; lia].
      cbn [parsed_value cell] in Hequal.
      unfold memo_invariant. cbn. repeat split; auto.
      * intros Hnot. rewrite <- Hequal in Hnot.
        rewrite <- (Hfresh Hnot). unfold validate_text.
        rewrite <- Hequal, Hvalue. unfold validationResult.
        rewrite (parsedConfig_not_blank JSON_parse text)
          by now rewrite <- Hequal.
        rewrite (parsedConfig_not_blank JSON_parse previous_text)
          by now rewrite <- Hvalue.
        reflexivity.
      * intros Hnow. apply Hnull. now rewrite Hequal.
    + apply bind_inv in Hrender as (result & Hresult & Hrender).
      injection Hrender as <-. unfold memo_invariant. cbn.
      repeat split; auto.
      intros Hnow. subst cell. cbn [parsed_value] in Hresult.
      rewrite Hnow in Hresult.
      destruct (validationResult_null text) as [E|E]; rewrite E in Hresult;
        injection Hresult as <-; auto.
Qed.

Lemma rendered_with_invariant JSON_parse text c :
  rendered_with JSON_parse text c -> memo_invariant JSON_parse text c.
Proof.
  induction 1 as [c Hmount|previous_text previous text c _ IH Hrender].
  - unfold mount in Hmount. cbn in Hmount. injection Hmount as <-.
    unfold memo_invariant. cbn. repeat split; auto.
  - exact (render_keeps_invariant _ _ _ _ _ IH Hrender).
Qed.

(** X9. After any sequence of renders, the last with [jsonInput] equal to
    [text]: when [parsedConfig] is not [null] the result held is the
    validation of [text]; when it is [null] the result held is [null] or
    the parse error, never the result of a validation. *)
Theorem held_result_after_renders JSON_parse text c :
  rendered_with JSON_parse text c ->
  parsed_value (parsed_memo c) = Sandbox.parsedConfig JSON_parse text
  /\ (Sandbox.parsedConfig JSON_parse text <> JNull ->
      Sandbox.validate_text JSON_parse text = Normal (result_memo c))
  /\ (Sandbox.parsedConfig JSON_parse text = JNull ->
      result_memo c = None \/ result_memo c = Some parse_error_result).
Proof.
  intros H. apply rendered_with_invariant in H
    as (_ & _ & Hvalue & Hfresh & Hnull).
  rewrite <- Hvalue. auto.
Qed.

(** X9 after the first render and a render with a text that parses to
    the empty object. *)
Lemma held_result_after_renders_witness :
  let JSON_parse := fun _ : string => Normal (JObject []) in
  let mounted :=
    {| renders := 1;
       parsed_memo := {| parsed_for := ""; parsed_value := JNull;
                         parsed_at := 0 |};
       result_memo := None |} in
  let loaded :=
    {| renders := 2;
       parsed_memo := {| parsed_for := "{}"; parsed_value := JObject [];
                         parsed_at := 1 |};
       result_memo := Some (result_of four_required four_hints) |} in
  rendered_with JSON_parse "{}" loaded
  /\ Sandbox.validate_text JSON_parse "{}" = Normal (result_memo loaded).
Proof.
  cbn zeta.
  assert (rendered_with (fun _ : string => Normal (JObject [])) "{}"
            {| renders := 2;
               parsed_memo := {| parsed_for := "{}";
                                 parsed_value := JObject [];
                                 parsed_at := 1 |};
               result_memo := Some (result_of four_required four_hints) |})
    as Hrendered.
  { apply (later_render _ "" {| renders := 1;
                                parsed_memo := {| parsed_for := "";
                                                  parsed_value := JNull;
                                                  parsed_at := 0 |};
                                result_memo := None |}).
    - now apply first_render.
    - reflexivity. }
  split; [exact Hrendered|].
  apply (held_result_after_renders _ _ _ Hrendered). discriminate.
Defined.

(** ** Checks on values of other shapes *)

(** X10. A [navigation] that is not an object is not looked into: a falsy
    one gets the error of a missing field, and a truthy one (a string, a
    number, [true], an array) passes without an error or a warning. *)
Theorem navigation_without_structure (config navigation : value)
  (errors warnings : list string) :
  Get config "navigation" = Normal navigation ->
  (forall fields, navigation <> Json (JObject fields)) ->
  validateNavigation config errors warnings
  = Normal (if ToBoolean navigation then errors
            else errors ++ [navigation_required], warnings).
Proof.
  intros Hget Hshape. unfold validateNavigation. rewrite Hget. cbn [bind].
  destruct navigation as [|[|b|n|s|items|fields]|name]; try reflexivity.
  - now destruct b.
  - cbn [ToBoolean]. now destruct (number_is_zero n).
  - cbn [ToBoolean]. now destruct (s =? "").
  - now destruct (Hshape fields).
Qed.

(** X10 on a string, on an empty array and on the empty string. *)
Lemma navigation_without_structure_witness :
  validateNavigation (JObject [("navigation", JString "docs")]) [] []
  = Normal ([], [])
  /\ validateNavigation (JObject [("navigation", JArray [])]) [] []
     = Normal ([], [])
  /\ validateNavigation (JObject [("navigation", JString "")]) [] []
     = Normal ([navigation_required], []).
Proof.
  split; [|split].
  - exact (navigation_without_structure
             (JObject [("navigation", JString "docs")]) (JString "docs")
             [] [] eq_refl ltac:(discriminate)).
  - exact (navigation_without_structure
             (JObject [("navigation", JArray [])]) (JArray [])
             [] [] eq_refl ltac:(discriminate)).
  - exact (navigation_without_structure
             (JObject [("navigation", JString "")]) (JString "")
             [] [] eq_refl ltac:(discriminate)).
Defined.

(** X11. The check of a group, in the three variants. A group without a
    truthy [group] gets an error with its index. A group whose [pages] is
    an array, were it empty, gets no error for it; any other [pages]
    (absent, [null], a string, an object) gets an error that names the
    group as a template literal renders it, ['undefined'] when [group]
    is absent. *)
Theorem group_entry_errors (fields : list (string * json)) (index : nat)
  (errors : list string) :
  let name := own_property "group" fields in
  let pages := own_property "pages" fields in
  let unnamed := if ToBoolean name then [] else [group_missing index] in
  (Array_isArray pages = true ->
   group_entry (JObject fields) index errors = Normal (errors ++ unnamed))
  /\ (forall shown,
        Array_isArray pages = false -> ToString name = Normal shown ->
        group_entry (JObject fields) index errors
        = Normal (errors ++ unnamed ++ [pages_missing shown])).
Proof.
  cbn zeta. unfold group_entry. rewrite !Get_object. cbn [bind].
  split.
  - intros Harray.
    destruct (own_property "pages" fields) as [|[| | | |items|]|];
      try discriminate.
    cbn [ToBoolean Array_isArray negb orb].
    destruct (ToBoolean (own_property "group" fields)); cbn [negb bind];
      [now rewrite app_nil_r|reflexivity].
  - intros shown Harray Hshown.
    assert (negb (ToBoolean (own_property "pages" fields))
            || negb (Array_isArray (own_property "pages" fields)) = true) as E.
    { rewrite Harray. apply orb_true_r. }
    destruct (ToBoolean (own_property "group" fields)); cbn [negb bind];
      rewrite E, Hshown; cbn [bind]; unfold push;
      now rewrite <- ?app_assoc.
Qed.

(** X11 on a group with an empty [pages] and on a group without a name
    and without [pages]. *)
Lemma group_entry_errors_witness :
  group_entry (JObject [("group", JString "G"); ("pages", JArray [])]) 0 []
  = Normal []
  /\ group_entry (JObject []) 0 []
     = Normal [group_missing 0; pages_missing "undefined"].
Proof.
  split.
  - exact (proj1 (group_entry_errors
                    [("group", JString "G"); ("pages", JArray [])] 0 [])
             eq_refl).
  - exact (proj2 (group_entry_errors [] 0 []) "undefined" eq_refl eq_refl).
Defined.

(** X12. The check of a global anchor whose [href] is a string or absent:
    an [href] that starts with [http] passes, any other gets an error.
    The scanner, which warns about relative [href]s only, warns about
    the [href] of a global anchor only when the check has an error for
    it. *)
Theorem global_anchor_entry_errors (fields : list (string * json))
  (index : nat) (errors warnings : list string) (shown : string) :
  let name := own_property "anchor" fields in
  let href := own_property "href" fields in
  text_or_absent href = true ->
  ToString name = Normal shown ->
  global_anchor_entry (JObject fields) index errors
  = Normal (errors
            ++ (if ToBoolean name then [] else [global_anchor_missing index])
            ++ global_href_errors shown href)
  /\ (check_href fields warnings "Global anchors" <> warnings ->
      global_href_errors shown href <> []).
Proof.
  cbn zeta. intros Hhref Hshown. split.
  - unfold global_anchor_entry. rewrite !Get_object. cbn [bind].
    destruct (own_property "href" fields) as [|[| | |href| |]|];
      try discriminate; cbn [ToBoolean global_href_errors].
    + destruct (ToBoolean (own_property "anchor" fields));
        cbn [negb bind]; rewrite Hshown; cbn [bind]; unfold push;
        now rewrite <- ?app_assoc.
    + destruct (href =? ""); cbn [negb String_startsWith string_method bind].
      * destruct (ToBoolean (own_property "anchor" fields));
          cbn [negb bind]; rewrite Hshown; cbn [bind]; unfold push;
          now rewrite <- ?app_assoc.
      * destruct (ToBoolean (own_property "anchor" fields));
          cbn [negb bind]; destruct (startsWith href "http");
          cbn [negb bind]; rewrite ?Hshown; cbn [bind]; unfold push;
          now rewrite <- ?app_assoc, ?app_nil_r.
  - unfold check_href.
    destruct (own_property "href" fields) as [|[| | |href| |]|];
      try discriminate; cbn [global_href_errors].
    destruct (href =? ""); [discriminate|]. cbn [negb].
    destruct (startsWith href "http"); cbn [negb]; [|discriminate].
    now intros H.
Qed.

(** X12 on a global anchor with a relative, reserved [href]. *)
Lemma global_anchor_entry_errors_witness :
  let fields := [("anchor", JString "Blog"); ("href", JString "mcp/blog")] in
  global_anchor_entry (JObject fields) 0 []
  = Normal [global_href_relative "Blog"]
  /\ check_href fields [] "Global anchors"
     = [reserved_href_warning "Global anchors" "mcp/blog"].
Proof.
  split; [|reflexivity].
  exact (proj1 (global_anchor_entry_errors
                  [("anchor", JString "Blog"); ("href", JString "mcp/blog")]
                  0 [] [] "Blog" eq_refl eq_refl)).
Defined.








Lemma endsWith_suffix s suffix :
  endsWith s suffix = true <-> exists stem, s = (stem ++ suffix)%string.
Proof.
  split.
  - induction s as [|c s IH]; cbn [endsWith]; intros H.
    + rewrite orb_false_r in H. apply String.eqb_eq in H. subst.
      now exists "".
    + apply orb_prop in H as [H|H].
      * apply String.eqb_eq in H. now exists "".
      * destruct (IH H) as [stem ->]. now exists (String c stem).
  - intros [stem ->]. induction stem as [|c stem IH].
    + cbn [String.append]. destruct suffix; cbn [endsWith];
        now rewrite String.eqb_refl.
    + cbn [String.append endsWith]. rewrite IH. apply orb_true_r.
Qed.

Lemma fold_case_string_app a b :
  fold_case_string (a ++ b) = (fold_case_string a ++ fold_case_string b)%string.
Proof. induction a as [|c a IH]; cbn; congruence. Qed.

Lemma fold_case_string_split s stem folded :
  fold_case_string s = (stem ++ folded)%string ->
  exists stem' extension,
    s = (stem' ++ extension)%string /\ fold_case_string extension = folded.
Proof.
  revert stem. induction s as [|c s IH]; intros stem H.
  - destruct stem; [|discriminate]. cbn in H. subst. now exists "", "".
  - destruct stem as [|d stem].
    + cbn [String.append] in H. exists "", (String c s). now split.
    + cbn in H. injection H as _ H. destruct (IH _ H) as (stem' & ext & -> & E).
      exists (String c stem'), ext. now split.
Qed.

(** The favicon test looks at the end of the name and ignores the case
    of the letters. *)
Lemma favicon_re_extension name :
  favicon_re name = true
  <-> exists stem extension,
        name = (stem ++ extension)%string
        /\ In (fold_case_string extension) [".ico"; ".png"; ".svg"]%string.
Proof.
  unfold favicon_re. cbn zeta. rewrite !orb_true_iff, !endsWith_suffix. split.
  - intros [[[stem H] | [stem H]] | [stem H]];
      destruct (fold_case_string_split _ _ _ H) as (stem' & ext & -> & E);
      exists stem', ext; rewrite E; cbn; tauto.
  - intros (stem & ext & -> & Hin). rewrite fold_case_string_app.
    cbn [In] in Hin. destruct Hin as [<- | [<- | [<- | []]]]; eauto.
Qed.

(** X14. The check of the assets on a document whose [favicon] is a string
    or absent and whose [logo] is a string, an object with a string or no
    [href], or absent: it does not throw, and it pushes the warning of
    the logo, then that of the favicon. A logo that is a string is not
    looked at. A favicon passes exactly when its name ends in [.ico],
    [.png] or [.svg], in any letter case. *)
Theorem validateAssets_warnings (fields : list (string * json))
  (warnings : list string) :
  text_or_absent (own_property "favicon" fields) = true ->
  logo_ok (own_property "logo" fields) = true ->
  validateAssets (JObject fields) warnings
  = Normal (warnings
            ++ logo_warnings (own_property "logo" fields)
            ++ favicon_warnings (own_property "favicon" fields))
  /\ forall name,
       favicon_re name = true
       <-> exists stem extension,
             name = (stem ++ extension)%string
             /\ In (fold_case_string extension)
                  [".ico"; ".png"; ".svg"]%string.
Proof.
  intros Hfavicon Hlogo. split; [|exact favicon_re_extension].
  unfold validateAssets. rewrite !Get_object. cbn [bind].
  assert (forall held,
           (if ToBoolean (own_property "favicon" fields) then
              matched <-
                String_match (own_property "favicon" fields) favicon_re ;;
              if negb matched then Normal (push held favicon_warning)
              else Normal held
            else Normal held)
           = Normal (held
                     ++ favicon_warnings (own_property "favicon" fields)))
    as Hcheck.
  { intros held.
    destruct (own_property "favicon" fields) as [|[| | |name| |]|];
      try discriminate; cbn [ToBoolean favicon_warnings];
      [now rewrite app_nil_r|].
    destruct (name =? ""); cbn [negb andb String_match string_method bind];
      [now rewrite app_nil_r|].
    destruct (favicon_re name); cbn [negb]; [now rewrite app_nil_r|].
    reflexivity. }
  revert Hcheck. generalize (favicon_warnings (own_property "favicon" fields)).
  intros found Hcheck.
  destruct (own_property "logo" fields) as [|[| | |logo| |logo]|];
    try discriminate; cbn [ToBoolean typeof js_type_eqb logo_warnings bind].
  - apply Hcheck.
  - destruct (negb (logo =? "")); cbn [bind]; apply Hcheck.
  - rewrite Get_object. cbn [bind].
    cbn [logo_ok object_or_absent texts forallb] in Hlogo.
    rewrite andb_true_r in Hlogo.
    destruct (own_property "href" logo) as [|[| | |href| |]|];
      try discriminate; cbn [ToBoolean bind]; [apply Hcheck|].
    destruct (href =? ""); cbn [negb andb String_match string_method bind];
      [apply Hcheck|].
    destruct (absolute_url_re href); cbn [negb bind]; [apply Hcheck|].
    etransitivity; [exact (Hcheck _)|].
    unfold push. now rewrite <- app_assoc.
Qed.

(** X14 on a logo that links to a path and a favicon that is a GIF. *)
Lemma validateAssets_warnings_witness :
  validateAssets (JObject relative_assets) []
  = Normal [logo_href_warning; favicon_warning]
  /\ (favicon_re "/icons/site.PNG" = true
      <-> exists stem extension,
            "/icons/site.PNG" = (stem ++ extension)%string
            /\ In (fold_case_string extension)
                 [".ico"; ".png"; ".svg"]%string).
Proof.
  destruct (validateAssets_warnings relative_assets [] eq_refl eq_refl) as [Hrun Hre].
  split; [exact Hrun | exact (Hre "/icons/site.PNG")].
Defined.

(** ** The documents the component loads itself *)

(** X15. The documents that the component loads itself pass. For the
    text of [loadExample], whatever [example] of its table is asked for,
    and for the text that the first render sets from [defaultConfig]:
    when the text parses back to the document, the document has the
    shapes the validator assumes, every language in it is a string, and
    the result is valid, with no error and no warning but hints of the
    best practices, so none of a reserved path. *)
Theorem loaded_examples_are_valid
  (JSON_stringify : value -> string) (JSON_parse : string -> completion json)
  (example text : string) (doc : json) :
  (text = loadExample JSON_stringify example
   /\ own_property example examples = Json doc)
  \/ (text = initial_text JSON_stringify /\ doc = JObject defaultConfig) ->
  blank text = false ->
  JSON_parse text = Normal doc ->
  exists fields hints,
    doc = JObject fields
    /\ document_ok fields = true
    /\ languages_are_strings doc = true
    /\ Sandbox.validate_text JSON_parse text
       = Normal (Some (result_of [] hints))
    /\ incl hints four_hints.
Proof.
  intros Hloaded Hblank Hparse.
  rewrite (validate_text_parsed _ _ doc Hblank Hparse).
  assert (In doc [JObject minimal_example; JObject complete_example;
                  JObject api_example; JObject multilingual_example;
                  JObject defaultConfig]) as Hin.
  { destruct Hloaded as [[_ H] | [_ ->]]; [|cbn; tauto].
    unfold examples in H. cbn [own_property] in H.
    repeat match type of H with
           | (if ?b then _ else _) = _ => destruct b
           end;
      try discriminate H; injection H as <-; cbn; tauto. }
  clear Hloaded Hblank Hparse. cbn [In] in Hin.
  repeat destruct Hin as [<- | Hin]; try contradiction;
    eexists; eexists; (split; [reflexivity|]);
    (split; [vm_compute; reflexivity|]);
    (split; [vm_compute; reflexivity|]);
    (split; [vm_compute; reflexivity|]);
    intros hint Hhint; cbn in Hhint; cbn; tauto.
Qed.

(** X15 on the [multilingual] example. *)
Lemma loaded_examples_are_valid_witness :
  exists fields hints,
    JObject multilingual_example = JObject fields
    /\ document_ok fields = true
    /\ languages_are_strings (JObject multilingual_example) = true
    /\ Sandbox.validate_text
         (fun _ => Normal (JObject multilingual_example))
         (loadExample (fun _ => "{}"%string) "multilingual")
       = Normal (Some (result_of [] hints))
    /\ incl hints four_hints.
Proof.
  exact (loaded_examples_are_valid (fun _ => "{}"%string)
           (fun _ => Normal (JObject multilingual_example))
           "multilingual" _ (JObject multilingual_example)
           (or_introl (conj eq_refl eq_refl)) eq_refl eq_refl).
Defined.

(** ** The earlier variants compared *)

Lemma agree_bind {A B A' B' : Type} (R : A -> B -> Prop)
  (R' : A' -> B' -> Prop) c d (k : A -> completion A')
  (k' : B -> completion B') :
  agree R c d -> (forall a b, R a b -> agree R' (k a) (k' b)) ->
  agree R' (bind c k) (bind d k').
Proof.
  intros Hcd Hk. destruct c, d; cbn in *; try contradiction; auto.
Qed.

Lemma agree_refl {A : Type} (c : completion A) : agree eq c c.
Proof. now destruct c. Qed.

Lemma agree_forEachFrom {X S S' : Type} (R : S -> S' -> Prop)
  (cb : X -> nat -> S -> completion S) (cb' : X -> nat -> S' -> completion S')
  items :
  (forall x index s s', R s s' -> agree R (cb x index s) (cb' x index s')) ->
  forall index s s',
    R s s' ->
    agree R (forEachFrom cb items index s) (forEachFrom cb' items index s').
Proof.
  intros Hcb. induction items as [|x items IH]; intros index s s' Hs;
    cbn [forEachFrom]; [exact Hs|].
  apply (agree_bind R R); [now apply Hcb|]. intros a b Hab. now apply IH.
Qed.

Lemma agree_Array_forEach {S S' : Type} (R : S -> S' -> Prop) entries
  (cb : json -> nat -> S -> completion S)
  (cb' : json -> nat -> S' -> completion S') s s' :
  (forall x index s s', R s s' -> agree R (cb x index s) (cb' x index s')) ->
  R s s' ->
  agree R (Array_forEach entries cb s) (Array_forEach entries cb' s').
Proof.
  intros Hcb Hs. destruct entries as [|[| | | |items|]|]; try reflexivity.
  now apply agree_forEachFrom.
Qed.

(** The navigation block of the earlier variants finds the same errors
    whatever the test for reserved pages. *)
Lemma legacy_navigation_agrees reserved reserved' config e w w' :
  agree same_errors (legacy_navigation reserved config e w)
    (legacy_navigation reserved' config e w').
Proof.
  unfold legacy_navigation.
  apply (agree_bind eq); [apply agree_refl|]. intros navigation ? <-.
  destruct (ToBoolean navigation); cbn [negb]; [|reflexivity].
  apply (agree_bind eq); [apply agree_refl|]. intros groups ? <-.
  apply (agree_bind same_errors).
  - destruct (ToBoolean groups); [|reflexivity].
    apply agree_Array_forEach; [|reflexivity].
    intros group index [e1 w1] [e2 w2] E. unfold same_errors in E.
    cbn [fst] in E. subst e2.
    apply (agree_bind eq); [apply agree_refl|]. intros e1' ? <-.
    apply (agree_bind eq); [apply agree_refl|]. intros pages ? <-.
    apply (agree_bind (fun _ _ => True)); [|reflexivity].
    destruct (ToBoolean pages); [|exact I].
    apply agree_Array_forEach; [|exact I].
    intros page _ a b _. destruct page; try exact I.
    destruct (reserved s), (reserved' s); exact I.
  - intros [e1 w1] [e2 w2] E. unfold same_errors in E. cbn [fst] in E.
    subst e2.
    apply (agree_bind eq); [apply agree_refl|]. intros tabs ? <-.
    destruct (ToBoolean tabs); [|reflexivity].
    apply (agree_bind eq); [apply agree_refl|]. now intros e1' ? <-.
Qed.

Lemma suggest_returns config key message w theme :
  Get config "theme" = Normal theme ->
  returns (suggest config key message w).
Proof.
  intros H. unfold suggest.
  assert (returns (Get config key)) as [present ->].
  { destruct config as [|[]|]; try discriminate; cbn;
      try destruct (_ =? _); apply returns_Normal. }
  cbn [bind]. destruct (negb _); apply returns_Normal.
Qed.

Lemma check_variants_returns config key what w theme :
  Get config "theme" = Normal theme ->
  returns (LegacyApi.check_variants config key what w).
Proof.
  intros H. unfold LegacyApi.check_variants.
  assert (returns (Get config key)) as [asset ->].
  { destruct config as [|[]|]; try discriminate; cbn;
      try destruct (_ =? _); apply returns_Normal. }
  cbn [bind].
  destruct (ToBoolean asset) eqn:Htruthy; cbn [andb]; [|apply returns_Normal].
  destruct (negb _); [|apply returns_Normal].
  apply forEachFrom_returns. apply Forall_forall. intros mode _ index s.
  assert (returns (Get asset mode)) as [variant ->].
  { destruct asset as [|[]|]; try discriminate; cbn;
      try destruct (_ =? _); apply returns_Normal. }
  cbn [bind]. destruct (_ && _); apply returns_Normal.
Qed.

(** X16. The two earlier variants find the same errors: on every parsed
    value both validators return, with equal [errors] and equal
    [isValid], or both throw the same exception. They differ in their
    warnings only. *)
Theorem earlier_variants_find_same_errors (config : value) :
  agree (fun first second =>
           errors first = errors second /\ isValid first = isValid second)
    (Legacy.validateDocsJson config) (LegacyApi.validateDocsJson config).
Proof.
  unfold Legacy.validateDocsJson, LegacyApi.validateDocsJson.
  destruct (validateRequiredFields config []) as [required|error] eqn:Hrequired;
    [|reflexivity].
  assert (exists theme, Get config "theme" = Normal theme) as [theme Htheme].
  { unfold validateRequiredFields in Hrequired.
    apply bind_inv in Hrequired as (theme & Htheme & _). eauto. }
  cbn [bind].
  apply (agree_bind eq); [apply agree_refl|]. intros primary ? <-.
  apply (agree_bind same_errors); [apply legacy_navigation_agrees|].
  intros [e w] [e' w'] E. unfold same_errors in E. cbn [fst] in E. subst e'.
  apply (agree_bind eq); [apply agree_refl|]. intros e' ? <-.
  destruct (suggest_returns config "$schema" schema_hint w theme Htheme)
    as [w1 ->]. cbn [bind].
  destruct (suggest_returns config "description" description_hint w1 theme
              Htheme) as [w2 ->]. cbn [bind].
  destruct (check_variants_returns config "favicon" "favicon" w' theme Htheme)
    as [v1 ->]. cbn [bind].
  destruct (check_variants_returns config "logo" "logo" v1 theme Htheme)
    as [v2 ->]. cbn [bind].
  match goal with
  | |- context [suggest config "$schema" ?m v2] =>
      destruct (suggest_returns config "$schema" m v2 theme Htheme)
        as [v3 ->]
  end. cbn [bind].
  match goal with
  | |- context [suggest config "description" ?m v3] =>
      destruct (suggest_returns config "description" m v3 theme Htheme)
        as [v4 ->]
  end. cbn [bind agree]. split; reflexivity.
Qed.

Lemma validateColors_split config e :
  validateColors config e
  = (e' <- legacy_primary config e ;; legacy_optional_colors config e').
Proof.
  unfold validateColors, legacy_primary, legacy_optional_colors.
  destruct (Get config "colors") as [colors|]; [|reflexivity]. cbn [bind].
  destruct (ToBoolean colors); cbn [negb bind]; [|reflexivity].
  destruct (Get colors "primary") as [primary|]; [|reflexivity]. cbn [bind].
  destruct (negb (ToBoolean primary)); cbn [bind]; [reflexivity|].
  destruct (malformed_color primary) as [[]|]; reflexivity.
Qed.

Lemma legacy_groups_errors reserved items :
  forall index e w e' w',
    forEachFrom (legacy_group_entry reserved) items index (e, w)
    = Normal (e', w') ->
    forEachFrom group_entry items index e = Normal e'.
Proof.
  induction items as [|group items IH]; intros index e w e' w' Hrun.
  - now injection Hrun as <- _.
  - cbn [forEachFrom] in Hrun |- *.
    apply bind_inv in Hrun as ([e1 w1] & Hentry & Hrest).
    unfold legacy_group_entry in Hentry.
    apply bind_inv in Hentry as (e2 & Hentry & Hrun).
    apply bind_inv in Hrun as (pages & _ & Hrun).
    apply bind_inv in Hrun as (w2 & _ & Hrun). injection Hrun as -> _.
    rewrite Hentry. cbn [bind]. exact (IH _ _ _ _ _ Hrest).
Qed.

Lemma falsy_validate_entries entries cb context e w :
  ToBoolean entries = false ->
  validate_entries entries cb context e w = Normal (e, w).
Proof. intros H. unfold validate_entries. now rewrite H. Qed.

(** The errors of the navigation block of the current validator on a
    navigation with groups only: those of the groups. *)
Lemma groups_only_current config navigation e w e' w' :
  Get config "navigation" = Normal navigation ->
  ToBoolean navigation = true ->
  groups_only navigation ->
  validateNavigation config e w = Normal (e', w') ->
  exists groups,
    Get navigation "groups" = Normal groups
    /\ (if ToBoolean groups then Array_forEach groups group_entry e
        else Normal e) = Normal e'.
Proof.
  intros Hnavigation Htruthy Honly Hrun.
  unfold validateNavigation in Hrun. rewrite Hnavigation in Hrun.
  cbn [bind] in Hrun. rewrite Htruthy in Hrun. cbn [negb] in Hrun.
  destruct (Honly "tabs") as (tabs & Htabs & Ftabs); [cbn; tauto|].
  destruct (Honly "anchors") as (anchors & Hanchors & Fanchors);
    [cbn; tauto|].
  destruct (Honly "dropdowns") as (dropdowns & Hdropdowns & Fdropdowns);
    [cbn; tauto|].
  destruct (Honly "versions") as (versions & Hversions & Fversions);
    [cbn; tauto|].
  destruct (Honly "languages") as (languages & Hlanguages & Flanguages);
    [cbn; tauto|].
  destruct (Honly "global") as (global & Hglobal & Fglobal); [cbn; tauto|].
  apply bind_inv in Hrun as (pages & _ & Hrun).
  apply bind_inv in Hrun as (w1 & _ & Hrun).
  apply bind_inv in Hrun as (groups & Hgroups & Hrun).
  apply bind_inv in Hrun as ([e2 w2] & Hgroups_loop & Hrun).
  exists groups. split; [exact Hgroups|].
  rewrite Htabs, Hanchors, Hdropdowns, Hversions, Hlanguages, Hglobal in Hrun.
  cbn [bind] in Hrun.
  rewrite (falsy_validate_entries tabs) in Hrun by assumption.
  cbn [bind] in Hrun.
  rewrite (falsy_validate_entries anchors) in Hrun by assumption.
  cbn [bind] in Hrun.
  rewrite (falsy_validate_entries dropdowns) in Hrun by assumption.
  cbn [bind] in Hrun. rewrite Fversions, Flanguages in Hrun.
  cbn [bind] in Hrun.
  assert (OptionalGet global "anchors" = Normal Undefined) as Hanchors'.
  { destruct global as [|[| | |s| |]|]; try discriminate; try reflexivity. }
  rewrite Hanchors' in Hrun. cbn [bind] in Hrun.
  rewrite falsy_validate_entries in Hrun by reflexivity.
  injection Hrun as <- _.
  unfold validate_entries in Hgroups_loop.
  destruct (ToBoolean groups); [|now injection Hgroups_loop as <- _].
  apply bind_inv in Hgroups_loop as (e3 & Hloop & Hrest).
  apply bind_inv in Hrest as (w3 & _ & Hrest). now injection Hrest as <- _.
Qed.

(** The same for the navigation block of the earlier validators. *)
Lemma groups_only_earlier reserved config navigation e w e' w' :
  Get config "navigation" = Normal navigation ->
  ToBoolean navigation = true ->
  groups_only navigation ->
  legacy_navigation reserved config e w = Normal (e', w') ->
  exists groups,
    Get navigation "groups" = Normal groups
    /\ (if ToBoolean groups then Array_forEach groups group_entry e
        else Normal e) = Normal e'.
Proof.
  intros Hnavigation Htruthy Honly Hrun.
  unfold legacy_navigation in Hrun. rewrite Hnavigation in Hrun.
  cbn [bind] in Hrun. rewrite Htruthy in Hrun. cbn [negb] in Hrun.
  destruct (Honly "tabs") as (tabs & Htabs & Ftabs); [cbn; tauto|].
  apply bind_inv in Hrun as (groups & Hgroups & Hrun).
  apply bind_inv in Hrun as ([e2 w2] & Hloop & Hrun).
  exists groups. split; [exact Hgroups|].
  rewrite Htabs in Hrun. cbn [bind] in Hrun. rewrite Ftabs in Hrun.
  injection Hrun as <- _.
  change (fun (group : json) (index : nat)
            (arrays : list string * list string) =>
            let '(errors, warnings) := arrays in _)
    with (legacy_group_entry reserved) in Hloop.
  destruct (ToBoolean groups); [|now injection Hloop as <- _].
  destruct groups as [|[| | | |items|]|]; try discriminate.
  cbn [Array_forEach] in Hloop |- *.
  exact (legacy_groups_errors _ _ _ _ _ _ _ Hloop).
Qed.

(** X17. The current validator against the earlier ones, on a document
    whose navigation holds groups only. When both return they find the
    same errors, and the same [isValid]; the current one reports the
    errors of [colors.light] and [colors.dark] before those of the
    groups, the earlier ones after them. *)
Theorem same_errors_on_groups (config navigation : value)
  (current earlier : ValidationResult) :
  Get config "navigation" = Normal navigation ->
  ToBoolean navigation = true ->
  groups_only navigation ->
  Sandbox.validateDocsJson config = Normal current ->
  Legacy.validateDocsJson config = Normal earlier
  \/ LegacyApi.validateDocsJson config = Normal earlier ->
  exists required primary optional groups,
    errors current = required ++ primary ++ optional ++ groups
    /\ errors earlier = required ++ primary ++ groups ++ optional
    /\ isValid current = isValid earlier.
Proof.
  intros Hnavigation Htruthy Honly Hcurrent Hearlier.
  rewrite validateDocsJson_in_order in Hcurrent.
  apply bind_inv in Hcurrent as (required & Hrequired & Hcurrent).
  apply bind_inv in Hcurrent as (colors & Hcolors & Hcurrent).
  apply bind_inv in Hcurrent as ([e w] & Hcurrent_navigation & Hcurrent).
  apply bind_inv in Hcurrent as (assets & _ & Hcurrent).
  apply bind_inv in Hcurrent as (integrations & _ & Hcurrent).
  apply bind_inv in Hcurrent as (practices & _ & Hcurrent).
  injection Hcurrent as <-.
  rewrite validateColors_split in Hcolors.
  apply bind_inv in Hcolors as (primary & Hprimary & Hoptional).
  destruct (appends_extends [] (@app string) _ _ _
              (legacy_optional_colors_appends config) Hoptional)
    as (optional & Hoptional' & ->).
  destruct (groups_only_current _ _ _ _ _ _ Hnavigation Htruthy Honly
              Hcurrent_navigation) as (groups & Hgroups & Hloop).
  assert (exists reserved e1 w1 e2 w2,
             legacy_primary config required = Normal e1
             /\ legacy_navigation reserved config e1 w1 = Normal (e2, w2)
             /\ legacy_optional_colors config e2 = Normal (errors earlier)
             /\ isValid earlier = Nat.eqb (List.length (errors earlier)) 0)
    as (reserved & e1 & w1 & e2 & w2 & Hprimary' & Hnavigation'
        & Hoptional'' & Hvalid).
  { destruct Hearlier as [Hrun|Hrun];
      [unfold Legacy.validateDocsJson in Hrun
      |unfold LegacyApi.validateDocsJson in Hrun];
      apply bind_inv in Hrun as (required' & Hrequired' & Hrun);
      rewrite Hrequired in Hrequired'; injection Hrequired' as <-;
      apply bind_inv in Hrun as (e1 & Hprimary' & Hrun);
      apply bind_inv in Hrun as ([e2 w2] & Hnavigation' & Hrun);
      apply bind_inv in Hrun as (e3 & Hoptional'' & Hrun);
      invert_binds; injection Hrun as <-; cbn [errors isValid result_of];
      eauto 12. }
  destruct (appends_extends [] (@app string) _ _ _
              (legacy_primary_appends config) Hprimary')
    as (primary' & Hprimary'' & ->).
  rewrite Hprimary in Hprimary''. injection Hprimary'' as <-.
  destruct (groups_only_earlier _ _ _ _ _ _ _ Hnavigation Htruthy Honly
              Hnavigation') as (groups' & Hgroups' & Hloop').
  rewrite Hgroups in Hgroups'. injection Hgroups' as <-.
  assert (exists found, e = found /\ e2 = (required ++ primary) ++ found)
    as (found & -> & ->).
  { destruct (ToBoolean groups).
    - destruct (appends_extends [] (@app string) _ _ _
                  (Array_forEach_appends groups group_entry
                     group_entry_appends) Hloop') as (found & Hfound & ->).
      rewrite Hloop in Hfound. injection Hfound as <-. eauto.
    - injection Hloop as <-. injection Hloop' as <-. exists [].
      now rewrite app_nil_r. }
  destruct (appends_extends [] (@app string) _ _ _
              (legacy_optional_colors_appends config) Hoptional'')
    as (optional' & Hoptional''' & Hearlier_errors).
  rewrite Hoptional' in Hoptional'''. injection Hoptional''' as <-.
  exists required, primary, optional, found.
  rewrite Hvalid, Hearlier_errors. cbn [errors isValid result_of].
  repeat split.
  - now rewrite <- !app_assoc.
  - now rewrite <- !app_assoc.
  - f_equal. rewrite !length_app. lia.
Qed.

(** X17 on a document with a malformed [colors.light] and a group
    without [pages]. *)
Lemma same_errors_on_groups_witness :
  let config :=
    JObject
      [("theme", JString "mint");
       ("name", JString "X");
       ("colors", JObject [("primary", JString "#0066cc");
                           ("light", JString "red")]);
       ("navigation",
        JObject [("groups", JArray [JObject [("group", JString "G")]])])] in
  Sandbox.validateDocsJson config
  = Normal (result_of [color_malformed "light"; pages_missing "G"] four_hints)
  /\ Legacy.validateDocsJson config
     = Normal (result_of [pages_missing "G"; color_malformed "light"]
                 [schema_hint; description_hint])
  /\ exists required primary optional groups,
       [color_malformed "light"; pages_missing "G"]
       = required ++ primary ++ optional ++ groups
       /\ [pages_missing "G"; color_malformed "light"]
          = required ++ primary ++ groups ++ optional
       /\ isValid (result_of [color_malformed "light"; pages_missing "G"]
                     four_hints)
          = isValid (result_of [pages_missing "G"; color_malformed "light"]
                       [schema_hint; description_hint]).
Proof.
  cbn zeta. split; [reflexivity|]. split; [reflexivity|].
  refine (same_errors_on_groups
            (JObject
               [("theme", JString "mint");
                ("name", JString "X");
                ("colors", JObject [("primary", JString "#0066cc");
                                    ("light", JString "red")]);
                ("navigation",
                 JObject [("groups",
                           JArray [JObject [("group", JString "G")]])])])
            (JObject [("groups", JArray [JObject [("group", JString "G")]])])
            (result_of [color_malformed "light"; pages_missing "G"]
               four_hints)
            (result_of [pages_missing "G"; color_malformed "light"]
               [schema_hint; description_hint])
            eq_refl eq_refl _ eq_refl (or_introl eq_refl)).
  intros key Hkey. cbn [In] in Hkey.
  repeat destruct Hkey as [<- | Hkey]; try contradiction;
    exists Undefined; split; reflexivity.
Defined.

Lemma split_cons sep s : exists segment segments, split sep s = segment :: segments.
Proof.
  destruct s as [|c rest]; cbn [split]; [eauto|].
  destruct (Ascii.eqb c sep); [eauto|]. destruct (split sep rest); eauto.
Qed.

(** The first segment of a path is a prefix of it. *)
Lemma first_segment_prefix sep s :
  String.prefix (hd "" (split sep s)) s = true.
Proof.
  induction s as [|c rest IH]; [reflexivity|]. cbn [split].
  destruct (Ascii.eqb c sep); [reflexivity|].
  destruct (split sep rest) as [|segment segments]; cbn [hd] in *.
  - cbn. destruct (ascii_dec c c); [|contradiction]. now destruct rest.
  - cbn [String.prefix]. destruct (ascii_dec c c); [assumption|contradiction].
Qed.

Lemma String_includes_tail c rest sub :
  String_includes rest sub = true -> String_includes (String c rest) sub = true.
Proof. intros H. cbn [String_includes]. rewrite H. apply orb_true_r. Qed.

Lemma String_includes_prefix s sub :
  String.prefix sub s = true -> String_includes s sub = true.
Proof. intros H. destruct s; cbn [String_includes]; now rewrite H. Qed.

(** A later segment [mcp] of a path is preceded by a slash. *)
Lemma later_segment_substring s :
  includes (tl (split "/" s)) "mcp" = true -> String_includes s "/mcp" = true.
Proof.
  induction s as [|c rest IH]; [discriminate|]. cbn [split].
  destruct (Ascii.eqb_spec c "/") as [->|Hc].
  - cbn [tl]. intros H. destruct (split_cons "/" rest) as (segment & segments & E).
    rewrite E in H, IH. cbn [includes existsb tl] in H, IH.
    apply orb_prop in H as [H|H].
    + apply String.eqb_eq in H. subst segment.
      apply String_includes_prefix.
      pose proof (first_segment_prefix "/" rest) as P. rewrite E in P.
      cbn [hd] in P. cbn [String.prefix].
      destruct (ascii_dec "/" "/"); [exact P|contradiction].
    + apply String_includes_tail, IH, H.
  - destruct (split_cons "/" rest) as (segment & segments & E).
    rewrite E in IH |- *. cbn [tl] in *. intros H.
    apply String_includes_tail, IH, H.
Qed.

(** X18. The segment test of the second variant against the substring test
    of the first: a page the segment test reports is reported by the
    substring test as well, unless [mcp] is its first segment. *)
Theorem segment_test_within_substring_test (page warning : string) :
  Legacy.reserved page = Some warning ->
  (exists warning', LegacyApi.reserved page = Some warning')
  \/ hd "" (split "/" page) = "mcp".
Proof.
  unfold Legacy.reserved, LegacyApi.reserved. intros H.
  destruct (includes (split "/" page) "mcp") eqn:E; [clear H|discriminate].
  destruct (split_cons "/" page) as (segment & segments & S).
  rewrite S in E. cbn [includes existsb] in E. rewrite S. cbn [hd].
  apply orb_prop in E as [E|E].
  - right. apply String.eqb_eq in E. now subst.
  - left. rewrite later_segment_substring.
    + rewrite orb_true_r. eauto.
    + now rewrite S.
Qed.

(** X18 on a later segment, on a first segment and on a segment that
    only starts with the letters. *)
Lemma segment_test_within_substring_test_witness :
  ((exists warning', LegacyApi.reserved "guides/mcp/setup" = Some warning')
   \/ hd "" (split "/" "guides/mcp/setup") = "mcp")
  /\ LegacyApi.reserved "mcp/setup" = None
  /\ Legacy.reserved "guides/mcp-server" = None
  /\ LegacyApi.reserved "guides/mcp-server" <> None.
Proof.
  split; [|repeat split; discriminate].
  exact (segment_test_within_substring_test "guides/mcp/setup" _ eq_refl).
Defined.

(** X19. A text that parses to a falsy value, in the three variants. The
    current one reports that the text is no JSON. The earlier ones
    validate what they parsed: [false], a zero and the empty string get
    the four errors of the required fields, and [null] makes the
    validator throw at [config.theme], which they report as a parse
    error with the message of that exception. *)
Theorem falsy_document_results (JSON_parse : string -> completion json)
  (TypeError_message : type_error -> string) (text : string) (doc : json) :
  blank text = false ->
  JSON_parse text = Normal doc ->
  ToBoolean doc = false ->
  let thrown :=
    caught_result (TypeError_message (CannotReadProperty "theme")) in
  Sandbox.validate_text JSON_parse text = Normal (Some parse_error_result)
  /\ Legacy.effect JSON_parse TypeError_message text
     = Some (match doc with
             | JNull => thrown
             | _ => result_of four_required [schema_hint; description_hint]
             end)
  /\ LegacyApi.effect JSON_parse TypeError_message text
     = Some (match doc with
             | JNull => thrown
             | _ => result_of four_required first_hints
             end).
Proof.
  intros Hblank Hparse Hfalsy thrown. split; [|split].
  - now rewrite (validate_text_parsed _ _ doc Hblank Hparse), Hfalsy.
  - unfold Legacy.effect, legacy_effect. rewrite Hblank, Hparse. cbn [bind].
    destruct doc; try discriminate; reflexivity.
  - unfold LegacyApi.effect, legacy_effect. rewrite Hblank, Hparse.
    cbn [bind]. destruct doc; try discriminate; reflexivity.
Qed.

(** X19 on the texts [null] and [0]. *)
Lemma falsy_document_results_witness :
  Legacy.effect (fun _ => Normal JNull) (fun _ => "no theme"%string) "null"
  = Some (caught_result "no theme")
  /\ Legacy.effect
       (fun _ => Normal (JNumber {| number_is_zero := true;
                                    number_text := "0" |}))
       (fun _ => "no theme"%string) "0"
     = Some (result_of four_required [schema_hint; description_hint])
  /\ Sandbox.validate_text
       (fun _ => Normal (JNumber {| number_is_zero := true;
                                    number_text := "0" |})) "0"
     = Normal (Some parse_error_result).
Proof.
  split; [|split].
  - exact (proj1 (proj2 (falsy_document_results (fun _ => Normal JNull)
                           (fun _ => "no theme"%string) "null" JNull
                           eq_refl eq_refl eq_refl))).
  - exact (proj1 (proj2 (falsy_document_results
                           (fun _ => Normal (JNumber
                                               {| number_is_zero := true;
                                                  number_text := "0" |}))
                           (fun _ => "no theme"%string) "0" _
                           eq_refl eq_refl eq_refl))).
  - exact (proj1 (falsy_document_results
                    (fun _ => Normal (JNumber {| number_is_zero := true;
                                                 number_text := "0" |}))
                    (fun _ => "no theme"%string) "0" _
                    eq_refl eq_refl eq_refl)).
Defined.

(** ** The previews of the earlier variants behind the validation *)

Import EarlierPreview.

Lemma mapFromM_all_or_throws {X Y : Type} (ok : X -> bool)
  (cb : X -> nat -> completion Y) items :
  Forall (fun x => forall index,
            if ok x then returns (cb x index) else throws (cb x index))
    items ->
  forall index,
    if forallb ok items then returns (mapFromM cb items index)
    else throws (mapFromM cb items index).
Proof.
  induction 1 as [|x rest Hx _ IH]; intros index; cbn [mapFromM forallb].
  - apply returns_Normal.
  - specialize (Hx index). specialize (IH (S index)).
    destruct (ok x); cbn [andb];
      [|destruct Hx as [e ->]; now exists e].
    destruct Hx as [y ->]. cbn [bind].
    destruct (forallb ok rest); [|destruct IH as [e ->]; now exists e].
    destruct IH as [ys ->]. apply returns_Normal.
Qed.

Lemma map_hole_all_or_throws {Y : Type} (ok : json -> bool) entries
  (cb : json -> nat -> completion Y) :
  entries_read entries ->
  (forall items entry,
      entries = Json (JArray items) -> In entry items -> entry <> JNull ->
      forall index,
        if ok entry then returns (cb entry index)
        else throws (cb entry index)) ->
  if match entries with
     | Json (JArray items) => forallb ok items
     | _ => true
     end
  then returns (and_thenM entries (Array_map entries cb))
  else throws (and_thenM entries (Array_map entries cb)).
Proof.
  intros [Hfalsy | (items & -> & Hitems)] Hcb; unfold and_thenM.
  - rewrite Hfalsy. destruct entries as [|[]|]; try discriminate;
      apply returns_Normal.
  - cbn [ToBoolean Array_map].
    pose proof (mapFromM_all_or_throws ok cb items) as Hloop.
    assert (Forall (fun x => forall index,
                      if ok x then returns (cb x index)
                      else throws (cb x index)) items) as Hall.
    { apply Forall_forall. intros entry Hin.
      apply (Hcb items entry eq_refl Hin).
      now apply (proj1 (Forall_forall _ _) Hitems). }
    specialize (Hloop Hall 0). destruct (forallb ok items).
    + destruct Hloop as [ys ->]. apply returns_Normal.
    + destruct Hloop as [e ->]. now exists e.
Qed.

Lemma legacy_tab_entry_read entry index s s' :
  legacy_tab_entry entry index s = Normal s' -> entry <> JNull.
Proof.
  unfold legacy_tab_entry. intros Hrun.
  apply bind_inv in Hrun as (name & Hname & _).
  exact (Get_not_null _ _ _ Hname).
Qed.

Lemma legacy_group_entry_grows reserved group index e w e' w' :
  legacy_group_entry reserved group index (e, w) = Normal (e', w') ->
  exists added, e' = e ++ added.
Proof.
  unfold legacy_group_entry. intros Hrun.
  apply bind_inv in Hrun as (e1 & Hentry & Hrun).
  apply bind_inv in Hrun as (pages & _ & Hrun).
  apply bind_inv in Hrun as (w1 & _ & Hrun). injection Hrun as <- _.
  destruct (appends_extends [] (@app string) _ _ _
              (group_entry_appends group index) Hentry) as (out & _ & ->).
  eauto.
Qed.

Lemma legacy_groups_grow reserved items :
  forall index e w e' w',
    forEachFrom (legacy_group_entry reserved) items index (e, w)
    = Normal (e', w') ->
    exists added, e' = e ++ added.
Proof.
  induction items as [|group items IH]; intros index e w e' w' Hrun.
  - injection Hrun as <- _. exists []. now rewrite app_nil_r.
  - cbn [forEachFrom] in Hrun.
    apply bind_inv in Hrun as ([e1 w1] & Hentry & Hrest).
    apply legacy_group_entry_grows in Hentry as (first & ->).
    apply IH in Hrest as (rest & ->). exists (first ++ rest).
    now rewrite app_assoc.
Qed.

Lemma legacy_groups_without_error reserved items :
  forall index e w w',
    forEachFrom (legacy_group_entry reserved) items index (e, w)
    = Normal ([], w') ->
    Forall (fun group => group <> JNull /\ group_has_pages group) items.
Proof.
  induction items as [|group items IH]; intros index e w w' Hrun;
    [constructor|].
  cbn [forEachFrom] in Hrun.
  apply bind_inv in Hrun as ([e1 w1] & Hentry & Hrest).
  fold (forEachFrom (legacy_group_entry reserved)) in Hrest.
  constructor; [|exact (IH _ _ _ _ Hrest)].
  destruct (legacy_groups_grow _ _ _ _ _ _ _ Hrest) as (added & Hadded).
  symmetry in Hadded. apply app_eq_nil in Hadded as [-> _].
  unfold legacy_group_entry in Hentry.
  apply bind_inv in Hentry as (e1 & Hentry & Hrun).
  apply bind_inv in Hrun as (pages & Hpages & Hrun).
  apply bind_inv in Hrun as (w2 & _ & Hrun). injection Hrun as -> _.
  split; [exact (Get_not_null _ _ _ Hpages)|].
  unfold group_entry in Hentry.
  apply bind_inv in Hentry as (name & _ & Hentry).
  apply bind_inv in Hentry as (e2 & _ & Hentry).
  apply bind_inv in Hentry as (pages' & Hpages' & Hentry).
  rewrite Hpages in Hpages'. injection Hpages' as <-.
  destruct (Array_isArray pages) eqn:Harray.
  - destruct pages as [|[| | | |items'|]|]; try discriminate.
    now exists items'.
  - rewrite orb_true_r in Hentry.
    apply bind_inv in Hentry as (shown & _ & Hentry).
    injection Hentry as Hentry. unfold push in Hentry.
    now destruct e2.
Qed.

Lemma legacy_navigation_without_error reserved (config : value) warnings :
  legacy_navigation reserved config [] [] = Normal ([], warnings) ->
  exists navigation,
    Get config "navigation" = Normal navigation
    /\ legacy_navigation_valid navigation.
Proof.
  unfold legacy_navigation. intros Hrun.
  apply bind_inv in Hrun as (navigation & Hnavigation & Hrun).
  exists navigation. split; [exact Hnavigation|].
  destruct (ToBoolean navigation) eqn:Htruthy; [|discriminate].
  cbn [negb] in Hrun.
  apply bind_inv in Hrun as (groups & Hgroups & Hrun).
  apply bind_inv in Hrun as ([e1 w1] & Hloop & Hrun).
  apply bind_inv in Hrun as (tabs & Htabs & Hrun).
  change (fun (group : json) (index : nat)
            (arrays : list string * list string) =>
            let '(errors, warnings) := arrays in _)
    with (legacy_group_entry reserved) in Hloop.
  assert (e1 = [] /\ entries_read tabs) as [-> Htabs_read].
  { destruct (ToBoolean tabs) eqn:Etabs.
    - apply bind_inv in Hrun as (e2 & Htabs_loop & Hrun).
      injection Hrun as -> _. split.
      + destruct (appends_extends [] (@app string) _ _ _
                    (Array_forEach_appends tabs legacy_tab_entry
                       legacy_tab_entry_appends) Htabs_loop)
          as (out & _ & E).
        symmetry in E. now apply app_eq_nil in E as [-> _].
      + right.
        exact (Array_forEach_read _ _ _ _ legacy_tab_entry_read Htabs_loop).
    - injection Hrun as -> _. split; [reflexivity|now left]. }
  split.
  - exact Htruthy.
  - exact (value_Get_returns _ _ _ Hgroups).
  - intros tabs' E. rewrite Htabs in E. now injection E as <-.
  - intros groups' E. rewrite Hgroups in E. injection E as <-.
    destruct (ToBoolean groups) eqn:Egroups.
    + destruct groups as [|[| | | |items|]|]; try discriminate.
      cbn [Array_forEach] in Hloop.
      apply legacy_groups_without_error in Hloop.
      split.
      * right. exists items. split; [reflexivity|].
        eapply Forall_impl; [|exact Hloop]. now intros group [H _].
      * intros items' [= <-].
        eapply Forall_impl; [|exact Hloop]. now intros group [_ H].
    + split; [now left|]. intros items ->. discriminate.
Qed.

Lemma pages_hole_cases pages :
  let shown :=
    and_thenM (JArray pages)
      (Array_map (JArray pages)
         (fun page pageIndex =>
            text <- page_text page ;; Normal (pageIndex, text))) in
  if forallb page_prints pages then returns shown else throws shown.
Proof.
  cbn zeta. unfold and_thenM. cbn [ToBoolean Array_map].
  pose proof (mapFromM_all_or_throws page_prints
                (fun page pageIndex =>
                   text <- page_text page ;; Normal (pageIndex, text))
                pages) as Hloop.
  match type of Hloop with
  | ?premise -> _ => assert premise as Hall
  end.
  { apply Forall_forall. intros page _ index. unfold page_prints.
    destruct (page_text page) as [text|e]; cbn [bind].
    - apply returns_Normal.
    - now exists e. }
  specialize (Hloop Hall 0). destruct (forallb page_prints pages).
  - destruct Hloop as [ys ->]. apply returns_Normal.
  - destruct Hloop as [e ->]. now exists e.
Qed.

Lemma earlier_navigation_cases navigation :
  legacy_navigation_valid navigation ->
  if match Get navigation "groups" with
     | Normal (Json (JArray groups)) => forallb group_prints groups
     | _ => true
     end
  then returns (navigation_holes navigation)
  else throws (navigation_holes navigation).
Proof.
  intros [Htruthy Hreads Htabs Hgroups].
  destruct (Hreads "tabs") as [tabs Etabs].
  destruct (Hreads "groups") as [groups Egroups].
  specialize (Htabs _ Etabs).
  destruct (Hgroups _ Egroups) as [Hgroups_read Hpages].
  unfold navigation_holes. rewrite Etabs, Egroups. cbn [bind].
  assert (returns (and_thenM tabs
            (Array_map tabs
               (fun tab index =>
                  name <- Get tab "name" ;; Normal (index, name)))))
    as [tabs_row ->].
  { apply map_hole_returns; [assumption|]. intros entry index Hentry.
    apply returns_bind; [now apply Get_returns|intros ?].
    apply returns_Normal. }
  cbn [bind].
  pose proof (map_hole_all_or_throws group_prints groups
                (fun group index =>
                   name <- Get group "group" ;;
                   pages <- Get group "pages" ;;
                   shown <-
                     and_thenM pages
                       (Array_map pages
                          (fun page pageIndex =>
                             text <- page_text page ;;
                             Normal (pageIndex, text))) ;;
                   Normal {| group_key := index; group_name := name;
                             group_pages := shown |})
                Hgroups_read) as Hcases.
  match type of Hcases with
  | ?premise -> _ => assert premise as Hpremise
  end.
  { intros items group -> Hin Hread index.
    destruct (proj1 (Forall_forall _ _) (Hpages items eq_refl) _ Hin)
      as (pages & Epages).
    destruct (Get_returns group "group" Hread) as [name ->].
    unfold group_prints. rewrite Epages. cbn [bind].
    pose proof (pages_hole_cases pages) as Hhole.
    destruct (forallb page_prints pages).
    - destruct Hhole as [shown ->]. apply returns_Normal.
    - destruct Hhole as [e ->]. now exists e. }
  specialize (Hcases Hpremise).
  destruct (match groups with
            | Json (JArray items) => forallb group_prints items
            | _ => true
            end).
  - destruct Hcases as [groups_list ->]. apply returns_Normal.
  - destruct Hcases as [e ->]. now exists e.
Qed.

Lemma legacy_navigation_empty reserved config e w w' :
  legacy_navigation reserved config e w = Normal ([], w') ->
  exists found, legacy_navigation reserved config [] [] = Normal ([], found).
Proof.
  intros Hrun.
  destruct (appends_extends ([], []) add2 _ (e, w) _
              (legacy_navigation_appends reserved config) Hrun)
    as ([e0 w0] & Hempty & E).
  cbn [fst snd] in Hempty. unfold add2 in E. cbn [fst snd] in E.
  injection E as E _. symmetry in E. apply app_eq_nil in E as [_ ->].
  eauto.
Qed.

Lemma legacy_optional_colors_empty config e :
  legacy_optional_colors config e = Normal [] -> e = [].
Proof.
  intros Hrun.
  destruct (appends_extends [] (@app string) _ _ _
              (legacy_optional_colors_appends config) Hrun) as (out & _ & E).
  symmetry in E. now apply app_eq_nil in E as [-> _].
Qed.

Lemma OptionalGet_returns (colors : value) key :
  (exists fields key', Get (JObject fields) key' = Normal colors) ->
  returns (OptionalGet colors key).
Proof.
  intros (fields & key' & H). rewrite Get_object in H. injection H as <-.
  destruct (own_property_shape key' fields) as [-> | [v ->]];
    [apply returns_Normal|].
  destruct v; cbn; try destruct (_ =? _); apply returns_Normal.
Qed.

(** What an earlier validator that finds a document valid has checked:
    the document is an object whose navigation block ran without an
    error. *)
Lemma earlier_valid_navigation (config : json) result :
  Legacy.validateDocsJson config = Normal result
  \/ LegacyApi.validateDocsJson config = Normal result ->
  isValid result = true ->
  exists fields navigation,
    config = JObject fields
    /\ Get config "navigation" = Normal navigation
    /\ legacy_navigation_valid navigation.
Proof.
  intros Hrun Hvalid.
  assert (exists reserved e w w',
             (exists theme, Get config "theme" = Normal theme)
             /\ legacy_navigation reserved config e w = Normal ([], w'))
    as (reserved & e & w & w' & [theme Htheme] & Hnavigation).
  { destruct Hrun as [Hrun|Hrun];
      [unfold Legacy.validateDocsJson in Hrun
      |unfold LegacyApi.validateDocsJson in Hrun];
      apply bind_inv in Hrun as (required & Hrequired & Hrun);
      apply bind_inv in Hrun as (primary & _ & Hrun);
      apply bind_inv in Hrun as ([e1 w1] & Hnavigation & Hrun);
      apply bind_inv in Hrun as (e2 & Hoptional & Hrun);
      invert_binds; injection Hrun as <-;
      cbn [isValid result_of] in Hvalid;
      apply Nat.eqb_eq, length_zero_iff_nil in Hvalid; subst e2;
      apply legacy_optional_colors_empty in Hoptional; subst e1;
      unfold validateRequiredFields in Hrequired;
      apply bind_inv in Hrequired as (theme & Htheme & _);
      eauto 10. }
  apply legacy_navigation_empty in Hnavigation as (found & Hnavigation).
  apply legacy_navigation_without_error in Hnavigation
    as (navigation & Hget & Hnavigation).
  pose proof (legacy_truthy _ Hnavigation) as Htruthy.
  destruct config as [| | | | |fields];
    try discriminate Hget;
    try (cbn in Hget; injection Hget as <-; discriminate Htruthy).
  eauto.
Qed.

(** X20. The preview of the earlier variants is behind the validation,
    which does not look at the pages that are no strings. On a document
    that the validator finds valid the preview is shown, and building it
    does not throw, when [page.toString()] returns on every page of every
    group; when it throws on one, for a page that is [null] or an object
    with a [toString] property, building the preview throws. *)
Theorem earlier_valid_document_preview (config : json)
  (result : ValidationResult) :
  Legacy.validateDocsJson config = Normal result
  \/ LegacyApi.validateDocsJson config = Normal result ->
  isValid result = true ->
  if pages_print config then
    (exists shown,
        EarlierPreview.configuration_preview config (Some result)
        = Normal (Shown shown))
    /\ (exists shown,
          EarlierPreview.renderPreview config (Some result)
          = Normal (Some shown))
  else
    throws (EarlierPreview.configuration_preview config (Some result))
    /\ throws (EarlierPreview.renderPreview config (Some result)).
Proof.
  intros Hrun Hvalid.
  destruct (earlier_valid_navigation config result Hrun Hvalid)
    as (fields & navigation & -> & Hget & Hnavigation).
  pose proof (earlier_navigation_cases navigation Hnavigation) as Hcases.
  unfold pages_print. rewrite Hget. cbn [bind].
  assert (forall key, returns (OptionalGet (own_property "colors" fields) key))
    as Hcolors.
  { intros key. apply OptionalGet_returns. exists fields, "colors".
    apply Get_object. }
  assert (forall mode, returns (mode_hole (JObject fields) mode)) as Hmode.
  { intros mode. unfold mode_hole. rewrite !Get_object. cbn [bind].
    destruct (Hcolors mode) as [color Hcolor]. rewrite Hcolor. cbn [bind].
    unfold and_thenM. destruct (ToBoolean color) eqn:Htruthy;
      [|apply returns_Normal].
    assert (returns (Get (own_property "colors" fields) mode)) as [v ->].
    { destruct (own_property "colors" fields) as [|[]|];
        try (cbn in Hcolor; injection Hcolor as <-; discriminate);
        cbn; try destruct (_ =? _); apply returns_Normal. }
    apply returns_Normal. }
  destruct (Hmode "light") as [light Hlight].
  destruct (Hmode "dark") as [dark Hdark].
  destruct (Hcolors "primary") as [primary Hprimary].
  unfold configuration_preview, renderPreview, configuration_holes, configured.
  cbn [ToBoolean negb orb]. rewrite Hvalid. cbn [negb].
  rewrite Hlight, Hdark. rewrite Hget. rewrite !Get_object.
  cbn [bind]. rewrite Hprimary. cbn [bind].
  unfold and_thenM. rewrite (legacy_truthy _ Hnavigation).
  destruct (match Get navigation "groups" with
            | Normal (Json (JArray groups)) => forallb group_prints groups
            | _ => true
            end).
  - destruct Hcases as [holes ->]. cbn [bind]. eauto.
  - destruct Hcases as [e ->]. cbn [bind]. split; now exists e.
Qed.

(** X20 on the passing document, and on a document with [null] for a
    page, which both earlier validators find valid. *)
Lemma earlier_valid_document_preview_witness :
  ((exists shown,
       EarlierPreview.configuration_preview passing_document
         (Some (result_of [] [schema_hint; description_hint]))
       = Normal (Shown shown))
   /\ (exists shown,
         EarlierPreview.renderPreview passing_document
           (Some (result_of [] [schema_hint; description_hint]))
         = Normal (Some shown)))
  /\ Legacy.validateDocsJson null_page
     = Normal (result_of [] [schema_hint; description_hint])
  /\ throws (EarlierPreview.configuration_preview null_page
               (Some (result_of [] [schema_hint; description_hint])))
  /\ throws (EarlierPreview.renderPreview null_page
               (Some (result_of [] [schema_hint; description_hint]))).
Proof.
  split; [|split; [reflexivity|]].
  - exact (earlier_valid_document_preview passing_document
             (result_of [] [schema_hint; description_hint])
             (or_introl eq_refl) eq_refl).
  - exact (earlier_valid_document_preview null_page
             (result_of [] [schema_hint; description_hint])
             (or_introl eq_refl) eq_refl).
Defined.
